(** * KeyValueDatabase: the server's request dispatch, store operations,
      query parser and query executor (src/server.py), embedded in Rocq.

    The embedding has three layers.
    - [Py]: the part of the Python runtime the server relies on: the
      objects that travel as keys and values (None, int, float, complex,
      str), the comparison operators of module [operator], the
      constructors [int], [float], [complex], [str] applied to a string,
      insertion-ordered dictionaries whose keys are objects with an
      identity, and exceptions.
    - [pyparsing]: the elements of the pyparsing library the grammar is
      built from ([Keyword], [Word], [Literal], [+], [|], result names,
      [parseString]).
    - [Server]: the methods of class [Server], one definition per method,
      written in a state-and-exception monad over [self.data]; the loop
      of a connection runs over what the socket gives and takes in each
      of its turns. *)

From Stdlib Require Import ZArith List String Ascii Bool Lia.
From Stdlib Require Import Floats.SpecFloat.
Import ListNotations.

Local Open Scope string_scope.
Local Open Scope Z_scope.

(* ================================================================== *)
(** * The Python runtime *)
(* ================================================================== *)

Module Py.

(** Exception classes that the server can meet.  [FileNotFoundError],
    [PermissionError], [ConnectionResetError] and [BrokenPipeError] are
    the subclasses of [OSError]; [IOError] is an alias of [OSError]. *)
Variant exn : Set :=
| KeyError | TypeError | ValueError | IndexError | AttributeError
| ParseException
| FileNotFoundError | PermissionError
| ConnectionResetError | BrokenPipeError
| EOFError | UnpicklingError.

Definition is_IOError (e : exn) : bool :=
  match e with
  | FileNotFoundError | PermissionError
  | ConnectionResetError | BrokenPipeError => true
  | _ => false
  end.

(** The outcome of evaluating an expression: a value or a raised
    exception. *)
Variant result (A : Type) : Type :=
| Ok (a : A)
| Raise (e : exn).
Arguments Ok {A} a.
Arguments Raise {A} e.

Definition rbind {A B} (r : result A) (k : A -> result B) : result B :=
  match r with
  | Ok a => k a
  | Raise e => Raise e
  end.

(** Objects.  A float is an IEEE-754 binary64 datum; a complex number is
    a pair of them. *)
Inductive pyobj : Type :=
| PNone
| PInt (z : Z)
| PFloat (f : spec_float)
| PComplex (re im : spec_float)
| PStr (s : string).

(** ** Numbers compared by exact value

    Python compares int with float, and float with float, by the exact
    real value of the operands; NaN is unordered. *)
Variant xnum : Set :=
| XNan
| XInf (neg : bool)
| XFin (m e : Z).          (* the dyadic rational m * 2^e *)

Definition xnum_of_float (f : spec_float) : xnum :=
  match f with
  | S754_zero _ => XFin 0 0
  | S754_infinity s => XInf s
  | S754_nan => XNan
  | S754_finite s m e => XFin (if s then Z.neg m else Z.pos m) e
  end.

Definition xcompare (a b : xnum) : option comparison :=
  match a, b with
  | XNan, _ | _, XNan => None
  | XInf s1, XInf s2 => Some (if s1 then (if s2 then Eq else Lt)
                              else (if s2 then Gt else Eq))
  | XInf s, XFin _ _ => Some (if s then Lt else Gt)
  | XFin _ _, XInf s => Some (if s then Gt else Lt)
  | XFin m1 e1, XFin m2 e2 =>
      let e := Z.min e1 e2 in
      Some (Z.compare (m1 * 2 ^ (e1 - e)) (m2 * 2 ^ (e2 - e)))
  end.

Definition xeq (a b : xnum) : bool :=
  match xcompare a b with
  | Some Eq => true
  | _ => false
  end.

Definition as_real (o : pyobj) : option xnum :=
  match o with
  | PInt z => Some (XFin z 0)
  | PFloat f => Some (xnum_of_float f)
  | _ => None
  end.

Definition as_complex (o : pyobj) : option (xnum * xnum) :=
  match o with
  | PInt z => Some (XFin z 0, XFin 0 0)
  | PFloat f => Some (xnum_of_float f, XFin 0 0)
  | PComplex re im => Some (xnum_of_float re, xnum_of_float im)
  | _ => None
  end.

(** ** [a == b] *)
Definition py_eq (a b : pyobj) : bool :=
  match a, b with
  | PNone, PNone => true
  | PStr s, PStr t => String.eqb s t
  | _, _ =>
      match as_complex a, as_complex b with
      | Some (r1, i1), Some (r2, i2) => xeq r1 r2 && xeq i1 i2
      | _, _ => false
      end
  end.

(** ** [a < b], [a > b], [a <= b], [a >= b]

    Defined between real numbers and between strings; every other pair
    of operands raises [TypeError]. *)
Definition py_order (test : comparison -> bool) (a b : pyobj) : result bool :=
  match a, b with
  | PStr s, PStr t => Ok (test (String.compare s t))
  | _, _ =>
      match as_real a, as_real b with
      | Some x, Some y =>
          Ok (match xcompare x y with Some c => test c | None => false end)
      | _, _ => Raise TypeError
      end
  end.

Definition is_Lt (c : comparison) := match c with Lt => true | _ => false end.
Definition is_Gt (c : comparison) := match c with Gt => true | _ => false end.
Definition is_Le (c : comparison) := match c with Gt => false | _ => true end.
Definition is_Ge (c : comparison) := match c with Lt => false | _ => true end.

(** ** [item in container] *)
Fixpoint is_substring (t s : string) : bool :=
  prefix t s ||
  match s with
  | EmptyString => false
  | String _ s' => is_substring t s'
  end.

Definition py_in (item container : pyobj) : result bool :=
  match container, item with
  | PStr s, PStr t => Ok (is_substring t s)
  | _, _ => Raise TypeError
  end.

(** Module [operator]. *)
Module operator.
Definition gt (a b : pyobj) : result bool := py_order is_Gt a b.
Definition lt (a b : pyobj) : result bool := py_order is_Lt a b.
Definition eq (a b : pyobj) : result bool := Ok (py_eq a b).
Definition le (a b : pyobj) : result bool := py_order is_Le a b.
Definition ge (a b : pyobj) : result bool := py_order is_Ge a b.
Definition contains (a b : pyobj) : result bool := py_in b a.
End operator.

(** ** Strings to numbers: [int(s)], [float(s)], [complex(s)], [str(s)]

    The routines follow CPython's: [PyLong_FromString] for [int],
    [_Py_string_to_number_with_underscores], [_Py_dg_strtod] and
    [_Py_parse_inf_or_nan] for [float], and
    [complex_from_string_inner] for [complex].  The text is ASCII (the
    parser hands over runs of printable ASCII characters only). *)

(** [Py_ISSPACE] *)
Definition is_space (c : ascii) : bool :=
  let n := nat_of_ascii c in
  (Nat.eqb n 32 || (Nat.leb 9 n && Nat.leb n 13))%bool.

Definition is_digit (c : ascii) : bool :=
  let n := nat_of_ascii c in (Nat.leb 48 n && Nat.leb n 57)%bool.

Definition digit_val (c : ascii) : Z := Z.of_nat (nat_of_ascii c) - 48.

Definition lower (c : ascii) : ascii :=
  let n := nat_of_ascii c in
  if (Nat.leb 65 n && Nat.leb n 90)%bool then ascii_of_nat (n + 32) else c.

Fixpoint lstrip (s : string) : string :=
  match s with
  | String c s' => if is_space c then lstrip s' else s
  | EmptyString => s
  end.

Fixpoint rev_string (s acc : string) : string :=
  match s with
  | EmptyString => acc
  | String c s' => rev_string s' (String c acc)
  end.

Definition rstrip (s : string) : string :=
  rev_string (lstrip (rev_string s EmptyString)) EmptyString.

Definition strip (s : string) : string := rstrip (lstrip s).

(** The longest run of decimal digits at the head of [s], as the number
    it denotes, its length, and what follows it. *)
Fixpoint span_digits (s : string) (acc : Z) (n : Z) : Z * Z * string :=
  match s with
  | String c s' =>
      if is_digit c then span_digits s' (10 * acc + digit_val c) (n + 1)
      else (acc, n, s)
  | EmptyString => (acc, n, s)
  end.

(** *** [int(s)]: optional sign, then digits separated by single
    underscores, with blanks allowed around. *)
Fixpoint int_digits (s : string) (prev : option ascii) (acc : Z)
  : option (Z * string) :=
  match s with
  | String c s' =>
      if is_digit c then int_digits s' (Some c) (10 * acc + digit_val c)
      else if Ascii.eqb c "_" then
        match prev with
        | Some p => if is_digit p then int_digits s' (Some c) acc else None
        | None => None
        end
      else
        match prev with
        | Some p => if is_digit p then Some (acc, s) else None
        | None => None
        end
  | EmptyString =>
      match prev with
      | Some p => if is_digit p then Some (acc, s) else None
      | None => None
      end
  end.

Definition py_int (s : string) : result pyobj :=
  let s1 := lstrip s in
  let '(neg, s2) :=
    match s1 with
    | String "-" r => (true, r)
    | String "+" r => (false, r)
    | _ => (false, s1)
    end in
  match int_digits s2 None 0 with
  | Some (n, r) =>
      match lstrip r with
      | EmptyString => Ok (PInt (if neg then - n else n))
      | _ => Raise ValueError
      end
  | None => Raise ValueError
  end.

(** *** [float(s)] *)

(** [_Py_string_to_number_with_underscores]: an underscore must stand
    between two digits; the underscores are then dropped. *)
Fixpoint drop_underscores (s : string) (prev : option ascii) : option string :=
  match s with
  | EmptyString =>
      match prev with
      | Some "_"%char => None
      | _ => Some EmptyString
      end
  | String c s' =>
      if Ascii.eqb c "_" then
        match prev with
        | Some p => if is_digit p then drop_underscores s' (Some c) else None
        | None => None
        end
      else
        match prev with
        | Some "_"%char =>
            if is_digit c
            then option_map (String c) (drop_underscores s' (Some c))
            else None
        | _ => option_map (String c) (drop_underscores s' (Some c))
        end
  end.

(** The binary64 number nearest to [d * 10^e] (ties to even), [d > 0];
    [nd] is the number of decimal digits [d] was written with. *)
Definition round_decimal (neg : bool) (d nd e : Z) : spec_float :=
  if d =? 0 then S754_zero neg
  else if 310 <=? e then S754_infinity neg
  else if e + nd <=? -330 then S754_zero neg
  else if 0 <=? e then
    binary_normalize 53 1024 ((if neg then - d else d) * 10 ^ e) 0 neg
  else
    let p := 10 ^ (- e) in
    let s := 65 + Z.log2 p in
    let q := (d * 2 ^ s) / p in
    let r := (d * 2 ^ s) mod p in
    let m := 2 * q + (if r =? 0 then 0 else 1) in
    binary_normalize 53 1024 (if neg then - m else m) (- s - 1) neg.

(** [_Py_dg_strtod]: sign, digits, optional fraction, optional exponent.
    Yields the number read and the unread text, or [None] when no digit
    was read. *)
Definition dg_strtod (s : string) : option (spec_float * string) :=
  let '(neg, s1) :=
    match s with
    | String "-" r => (true, r)
    | String "+" r => (false, r)
    | _ => (false, s)
    end in
  let '(i, ni, s2) := span_digits s1 0 0 in
  let '(d, nf, s3) :=
    match s2 with
    | String "." r => let '(d, n, r') := span_digits r i ni in (d, n - ni, r')
    | _ => (i, 0, s2)
    end in
  if ni + nf =? 0 then None
  else
    let '(e, s4) :=
      match s3 with
      | String c r =>
          if Ascii.eqb (lower c) "e" then
            let '(eneg, r1) :=
              match r with
              | String "-" r' => (true, r')
              | String "+" r' => (false, r')
              | _ => (false, r)
              end in
            let '(a, na, r2) := span_digits r1 0 0 in
            if na =? 0 then (0, s3) else ((if eneg then - a else a), r2)
          else (0, s3)
      | EmptyString => (0, s3)
      end in
    Some (round_decimal neg d (ni + nf) (e - nf), s4).

Fixpoint imatch (pat s : string) : option string :=
  match pat, s with
  | EmptyString, _ => Some s
  | String p pat', String c s' =>
      if Ascii.eqb (lower c) p then imatch pat' s' else None
  | String _ _, EmptyString => None
  end.

(** [_Py_parse_inf_or_nan] *)
Definition parse_inf_or_nan (s : string) : option (spec_float * string) :=
  let '(neg, s1) :=
    match s with
    | String "-" r => (true, r)
    | String "+" r => (false, r)
    | _ => (false, s)
    end in
  match imatch "inf" s1 with
  | Some r =>
      match imatch "inity" r with
      | Some r' => Some (S754_infinity neg, r')
      | None => Some (S754_infinity neg, r)
      end
  | None =>
      match imatch "nan" s1 with
      | Some r => Some (S754_nan, r)
      | None => None
      end
  end.

(** [PyOS_string_to_double] with an end pointer. *)
Definition string_to_double (s : string) : option (spec_float * string) :=
  match dg_strtod s with
  | Some r => Some r
  | None => parse_inf_or_nan s
  end.

Definition py_float (s : string) : result pyobj :=
  match drop_underscores s None with
  | None => Raise ValueError
  | Some s' =>
      match string_to_double (strip s') with
      | Some (x, EmptyString) => Ok (PFloat x)
      | _ => Raise ValueError
      end
  end.

(** *** [complex(s)] *)
Definition is_sign (c : ascii) : bool := (Ascii.eqb c "+" || Ascii.eqb c "-")%bool.
Definition is_j (c : ascii) : bool := Ascii.eqb (lower c) "j".

Definition float_one (neg : bool) : spec_float :=
  S754_finite neg 4503599627370496 (-52).

Definition expect_j (x y : spec_float) (s : string)
  : option (spec_float * spec_float * string) :=
  match s with
  | String c r => if is_j c then Some (x, y, r) else None
  | EmptyString => None
  end.

Definition complex_from_string_inner (s0 : string)
  : option (spec_float * spec_float) :=
  let s1 := lstrip s0 in
  let '(got_bracket, s) :=
    match s1 with
    | String "(" r => (true, lstrip r)
    | _ => (false, s1)
    end in
  let zero := S754_zero false in
  let body :=
    match string_to_double s with
    | Some (z, r) =>
        match r with
        | String c r' =>
            if is_sign c then
              match string_to_double r with
              | Some (y, r2) => expect_j z y r2
              | None => expect_j z (float_one (Ascii.eqb c "-")) r'
              end
            else if is_j c then Some (zero, z, r')
            else Some (z, zero, r)
        | EmptyString => Some (z, zero, r)
        end
    | None =>
        match s with
        | String c r =>
            if is_sign c then expect_j zero (float_one (Ascii.eqb c "-")) r
            else expect_j zero (float_one false) s
        | EmptyString => None
        end
    end in
  match body with
  | None => None
  | Some (x, y, r) =>
      let r1 := lstrip r in
      let r2 :=
        if got_bracket then
          match r1 with
          | String ")" r' => Some (lstrip r')
          | _ => None
          end
        else Some r1 in
      match r2 with
      | Some EmptyString => Some (x, y)
      | _ => None
      end
  end.

Definition py_complex (s : string) : result pyobj :=
  match drop_underscores s None with
  | None => Raise ValueError
  | Some s' =>
      match complex_from_string_inner s' with
      | Some (x, y) => Ok (PComplex x y)
      | None => Raise ValueError
      end
  end.

Definition py_str (s : string) : result pyobj := Ok (PStr s).

(** ** Objects, identity and dictionary keys

    A key of a dictionary is an object: a value at an address.  [a is b]
    holds of two references to one object, that is, to one address (and
    an address holds one value).  A dictionary finds a stored key [k']
    for a probe [k] when [k' is k] or [k' == k] (the hashes of equal
    objects agree).  Identity matters where equality fails of an object
    and itself: a float NaN, or a complex number with a NaN part, is
    found by the very object that was stored and by no other one.  (The
    objects CPython shares, such as [None], small integers and interned
    strings, are equal whenever they are identical.) *)
Record object : Type := { addr : nat; val : pyobj }.

Definition sf_same (f g : spec_float) : bool :=
  match f, g with
  | S754_zero s, S754_zero t => Bool.eqb s t
  | S754_infinity s, S754_infinity t => Bool.eqb s t
  | S754_nan, S754_nan => true
  | S754_finite s m e, S754_finite t n d =>
      Bool.eqb s t && Pos.eqb m n && Z.eqb e d
  | _, _ => false
  end.

(** The same datum, bit for bit. *)
Definition same_value (a b : pyobj) : bool :=
  match a, b with
  | PNone, PNone => true
  | PInt x, PInt y => Z.eqb x y
  | PFloat f, PFloat g => sf_same f g
  | PComplex r i, PComplex r' i' => sf_same r r' && sf_same i i'
  | PStr s, PStr t => String.eqb s t
  | _, _ => false
  end.

(** [a is b] *)
Definition py_is (a b : object) : bool :=
  Nat.eqb (addr a) (addr b) && same_value (val a) (val b).

Definition key_eq (stored probe : object) : bool :=
  py_is stored probe || py_eq (val stored) (val probe).

(** ** [dict]: insertion-ordered, one entry per key *)
Definition dict : Type := list (object * pyobj).

(** [d[k]] *)
Fixpoint dict_getitem (k : object) (d : dict) : result pyobj :=
  match d with
  | [] => Raise KeyError
  | (k', v) :: d' => if key_eq k' k then Ok v else dict_getitem k d'
  end.

(** [d[k] = v]: an existing entry keeps its place and its key object;
    otherwise the object [k] becomes the key of a new, last entry. *)
Fixpoint dict_setitem (k : object) (v : pyobj) (d : dict) : dict :=
  match d with
  | [] => [(k, v)]
  | (k', v') :: d' =>
      if key_eq k' k then (k', v) :: d' else (k', v') :: dict_setitem k v d'
  end.

(** [del d[k]] *)
Fixpoint dict_delitem (k : object) (d : dict) : result dict :=
  match d with
  | [] => Raise KeyError
  | (k', v') :: d' =>
      if key_eq k' k then Ok d'
      else rbind (dict_delitem k d') (fun d'' => Ok ((k', v') :: d''))
  end.

(** [k in d] *)
Definition dict_contains (k : object) (d : dict) : bool :=
  existsb (fun kv => key_eq (fst kv) k) d.

(** The invariant of a dictionary: the key of an entry matches the key
    of no later entry (a key is appended only when no stored key
    matches it). *)
Fixpoint dict_wf (d : dict) : Prop :=
  match d with
  | [] => True
  | (k, _) :: d' =>
      forallb (fun kv => negb (key_eq k (fst kv))) d' = true /\ dict_wf d'
  end.

(** [list(d.items())] as it is pickled or printed: the pairs of values,
    without the addresses. *)
Definition item (entry : object * pyobj) : pyobj * pyobj :=
  (val (fst entry), snd entry).

Definition items (d : dict) : list (pyobj * pyobj) := map item d.

(** A new object of value [v]: what [pickle.loads], the parser, [int],
    [float], [complex] and [str] return.  Its address is that of no live
    object, so of no key of the dictionary [d]. *)
Definition new (d : dict) (v : pyobj) : object :=
  {| addr := S (list_max (map (fun entry => addr (fst entry)) d));
     val := v |}.

End Py.

(* ================================================================== *)
(** * The pyparsing elements used by the grammar *)
(* ================================================================== *)

Module pyparsing.
Import Py.

Definition between (lo hi : nat) (c : ascii) : bool :=
  let n := nat_of_ascii c in (Nat.leb lo n && Nat.leb n hi)%bool.

(** [alphanums], [printables], the default blank characters
    [" \n\t\r"] and the default keyword characters [alphanums + "_$"]. *)
Definition alphanums (c : ascii) : bool :=
  (between 48 57 c || between 65 90 c || between 97 122 c)%bool.

Definition printables (c : ascii) : bool := between 33 126 c.

Definition DEFAULT_WHITE_CHARS (c : ascii) : bool :=
  let n := nat_of_ascii c in
  (Nat.eqb n 32 || Nat.eqb n 10 || Nat.eqb n 9 || Nat.eqb n 13)%bool.

Definition DEFAULT_KEYWORD_CHARS (c : ascii) : bool :=
  (alphanums c || Ascii.eqb c "_" || Ascii.eqb c "$")%bool.

(** A location in the string under analysis: the character just before
    it ([None] at the start of the string) and the text from it on. *)
Record loc : Type := { before : option ascii; text : string }.

(** The results of a match: the tokens, and the tokens that were given
    a results name.  A named result holds an object because the server
    later stores a converted value under a name. *)
Record ParseResults : Type :=
  { toklist : list string; tokdict : list (string * pyobj) }.

Definition ParserElement : Type := loc -> result (ParseResults * loc).

(** [preParse]: skip blanks. *)
Fixpoint skip_white (b : option ascii) (s : string) : loc :=
  match s with
  | String c s' =>
      if DEFAULT_WHITE_CHARS c then skip_white (Some c) s'
      else {| before := b; text := s |}
  | EmptyString => {| before := b; text := s |}
  end.

Definition preParse (l : loc) : loc := skip_white (before l) (text l).

(** [s] without its prefix [p], and the last character of [p]. *)
Fixpoint startswith (p s : string) (b : option ascii)
  : option (option ascii * string) :=
  match p, s with
  | EmptyString, _ => Some (b, s)
  | String a p', String c s' =>
      if Ascii.eqb a c then startswith p' s' (Some c) else None
  | String _ _, EmptyString => None
  end.

Definition char_in (chars : ascii -> bool) (c : option ascii) : bool :=
  match c with
  | Some a => chars a
  | None => false
  end.

Definition first_char (s : string) : option ascii :=
  match s with
  | String c _ => Some c
  | EmptyString => None
  end.

(** [Literal(m)]: the exact text [m]. *)
Definition Literal (m : string) : ParserElement := fun l0 =>
  let l := preParse l0 in
  match startswith m (text l) (before l) with
  | Some (b, r) =>
      Ok ({| toklist := [m]; tokdict := [] |}, {| before := b; text := r |})
  | None => Raise ParseException
  end.

(** [Keyword(m)]: the exact text [m], neither followed nor preceded by a
    keyword character. *)
Definition Keyword (m : string) : ParserElement := fun l0 =>
  let l := preParse l0 in
  match startswith m (text l) (before l) with
  | Some (b, r) =>
      if (negb (char_in DEFAULT_KEYWORD_CHARS (first_char r))
          && negb (char_in DEFAULT_KEYWORD_CHARS (before l)))%bool
      then Ok ({| toklist := [m]; tokdict := [] |},
               {| before := b; text := r |})
      else Raise ParseException
  | None => Raise ParseException
  end.

(** The longest run of characters of [chars] at the head of [s]. *)
Fixpoint span (chars : ascii -> bool) (s : string) (b : option ascii)
  : string * loc :=
  match s with
  | String c s' =>
      if chars c then
        let '(w, l) := span chars s' (Some c) in (String c w, l)
      else (EmptyString, {| before := b; text := s |})
  | EmptyString => (EmptyString, {| before := b; text := s |})
  end.

(** [Word(chars)]: a non-empty run of characters of [chars], as long as
    possible. *)
Definition Word (chars : ascii -> bool) : ParserElement := fun l0 =>
  let l := preParse l0 in
  match span chars (text l) (before l) with
  | (EmptyString, _) => Raise ParseException
  | (w, l') => Ok ({| toklist := [w]; tokdict := [] |}, l')
  end.

(** [expr(name)]: the last token of the match is also stored under
    [name]. *)
Definition setResultsName (e : ParserElement) (name : string)
  : ParserElement := fun l =>
  match e l with
  | Ok (r, l') =>
      match rev (toklist r) with
      | t :: _ =>
          Ok ({| toklist := toklist r;
                 tokdict := tokdict r ++ [(name, PStr t)] |}, l')
      | [] => Ok (r, l')
      end
  | Raise e => Raise e
  end.

(** [a + b]: [a] then [b]. *)
Definition And (a b : ParserElement) : ParserElement := fun l =>
  match a (preParse l) with
  | Ok (ra, la) =>
      match b la with
      | Ok (rb, lb) =>
          Ok ({| toklist := toklist ra ++ toklist rb;
                 tokdict := tokdict ra ++ tokdict rb |}, lb)
      | Raise e => Raise e
      end
  | Raise e => Raise e
  end.

(** [a | b]: [a], or else [b] at the same location. *)
Definition MatchFirst (a b : ParserElement) : ParserElement := fun l =>
  match a l with
  | Ok r => Ok r
  | Raise _ => b l
  end.

(** [expr.parseString(s)]: a match at the start of [s]; the text after
    the match is not looked at ([parseAll] is off).  Tabs are blanks
    whether or not they are first expanded to spaces. *)
Definition parseString (e : ParserElement) (s : string)
  : result ParseResults :=
  match e {| before := None; text := s |} with
  | Ok (r, _) => Ok r
  | Raise x => Raise x
  end.

(** [results[name]], [name in results], [results[name] = v]. *)
Fixpoint getitem (name : string) (d : list (string * pyobj))
  : result pyobj :=
  match d with
  | [] => Raise KeyError
  | (n, v) :: d' => if String.eqb n name then Ok v else getitem name d'
  end.

Definition contains (name : string) (r : ParseResults) : bool :=
  existsb (fun nv => String.eqb (fst nv) name) (tokdict r).

Fixpoint set_named (name : string) (v : pyobj) (d : list (string * pyobj))
  : list (string * pyobj) :=
  match d with
  | [] => [(name, v)]
  | (n, v') :: d' =>
      if String.eqb n name then (n, v) :: d'
      else (n, v') :: set_named name v d'
  end.

Definition setitem (name : string) (v : pyobj) (r : ParseResults)
  : ParseResults :=
  {| toklist := toklist r; tokdict := set_named name v (tokdict r) |}.

End pyparsing.

Declare Scope py_scope.
Delimit Scope py_scope with py.
Infix "+'" := pyparsing.And (at level 50, left associativity) : py_scope.
Infix "|'" := pyparsing.MatchFirst (at level 60, right associativity) : py_scope.

(* ================================================================== *)
(** * class Server *)
(* ================================================================== *)

Module Server.
Import Py pyparsing.

(** src/response.py *)
Record Response : Type :=
  { success : bool;
    message : option string;
    data : list (pyobj * pyobj) }.

(** Modelled from the spec: class [Request] of request.py, which is not
    among the sources.  Its four fields are those the client fills in
    ([Request(0, key, None, None)], [Request(3, None, None, query)]) and
    the server reads. *)
Record Request : Type :=
  { request_type : pyobj;
    key : pyobj;
    value : pyobj;
    query : pyobj }.

(** ** Methods run on [self.data] and may raise

    A method takes the dictionary and gives back its outcome together
    with the dictionary as the method left it. *)
Definition M (A : Type) : Type := dict -> result A * dict.

Definition ret {A} (a : A) : M A := fun d => (Ok a, d).

Definition raise {A} (e : exn) : M A := fun d => (Raise e, d).

Definition bind {A B} (m : M A) (k : A -> M B) : M B := fun d =>
  match m d with
  | (Ok a, d') => k a d'
  | (Raise e, d') => (Raise e, d')
  end.

Definition lift {A} (r : result A) : M A := fun d => (r, d).

(** [try: body  except: handler] *)
Definition try_except {A} (body handler : M A) : M A := fun d =>
  match body d with
  | (Ok a, d') => (Ok a, d')
  | (Raise _, d') => handler d'
  end.

Notation "x <- m ;; k" := (bind m (fun x => k))
  (at level 61, m at next level, right associativity).
Notation "m ;;; k" := (bind m (fun _ => k))
  (at level 61, right associativity).

(** [self.data[key]], [self.data[key] = value], [del self.data[key]],
    [self.data.copy().items()].  The copy holds the key objects of the
    dictionary themselves. *)
Definition self_data_getitem (k : object) : M pyobj :=
  fun d => (dict_getitem k d, d).

Definition self_data_setitem (k : object) (v : pyobj) : M unit :=
  fun d => (Ok tt, dict_setitem k v d).

Definition self_data_delitem (k : object) : M unit := fun d =>
  match dict_delitem k d with
  | Ok d' => (Ok tt, d')
  | Raise e => (Raise e, d)
  end.

Definition self_data_copy_items : M (list (object * pyobj)) :=
  fun d => (Ok d, d).

(** The keys that reach the dictionary from a request.  [_listen] passes
    on [request.key] of the request that [pickle.loads] has just built,
    and [_execute_query_by_key] looks up the object that the parser or
    [_parse_value_to_type] has just made: each time an object made after
    every key of [self.data], and so none of them.  [key] below is the
    value that arrived; [new_object key] is the object. *)
Definition new_object (v : pyobj) : M object := fun d => (Ok (new d v), d).

(** ** The methods *)

Definition _send_error (description : string) : M Response :=
  ret {| success := false; message := Some description; data := [] |}.

Definition _read (key : pyobj) : M Response :=
  k <- new_object key ;;
  try_except
    (v <- self_data_getitem k ;;
     ret {| success := true; message := None; data := [(key, v)] |})
    (_send_error "Entry does not exist.").

(** The second [self.data[key]] is a lookup of the object that the
    assignment has just stored, or found an equal key for. *)
Definition _add (key value : pyobj) : M Response :=
  k <- new_object key ;;
  try_except
    (self_data_setitem k value ;;;
     v <- self_data_getitem k ;;
     ret {| success := true; message := None; data := [(key, v)] |})
    (_send_error "Entry could not be added.").

Definition _delete (key : pyobj) : M Response :=
  k <- new_object key ;;
  try_except
    (self_data_delitem k ;;;
     ret {| success := true; message := None; data := [] |})
    (_send_error "Entry could not be deleted.").

(** [key] is a key object of the dictionary in a scan, and the object
    that was looked up in a query by key with "=". *)
Definition _delete_from_query (key : object) : M unit :=
  self_data_delitem key.

(** A table with string keys, as the literal dictionaries of the
    methods below; a missing key raises [KeyError]. *)
Fixpoint table_get {V} (t : list (string * V)) (k : string) : result V :=
  match t with
  | [] => Raise KeyError
  | (n, v) :: t' => if String.eqb n k then Ok v else table_get t' k
  end.

Definition as_str (o : pyobj) : result string :=
  match o with
  | PStr s => Ok s
  | _ => Raise TypeError
  end.

Definition _parse_value_to_type (value value_type : string)
  : result pyobj :=
  let types :=
    [ ("int", py_int);
      ("float", py_float);
      ("complex", py_complex);
      ("str", py_str) ] in
  rbind (table_get types value_type) (fun t => t value).

Local Open Scope py_scope.

Definition ACTION : ParserElement :=
  setResultsName (Keyword "read") "action"
  |' setResultsName (Keyword "delete") "action".

Definition ELEMENT : ParserElement :=
  setResultsName (Keyword "key") "element"
  |' setResultsName (Keyword "value") "element".

Definition OPERATOR : ParserElement :=
  setResultsName (Keyword "<=") "operator"
  |' setResultsName (Keyword ">=") "operator"
  |' setResultsName (Keyword "<") "operator"
  |' setResultsName (Keyword ">") "operator"
  |' setResultsName (Keyword "=") "operator"
  |' setResultsName (Keyword "contains") "operator".

Definition VALUE : ParserElement :=
  (setResultsName (Word printables) "value_type"
   +' Literal "("
   +' setResultsName (Word printables) "value"
   +' Literal ")")
  |' setResultsName (Word printables) "value".

Definition SYNTAX : ParserElement := ACTION +' ELEMENT +' OPERATOR +' VALUE.

Local Close Scope py_scope.

(** The query of a request is a string; [parseString] fails on any other
    object. *)
Definition _parse_query_string (query : pyobj) : result ParseResults :=
  match query with
  | PStr s =>
      rbind (parseString SYNTAX s) (fun query =>
      if contains "value_type" query then
        rbind (getitem "value" (tokdict query)) (fun v =>
        rbind (getitem "value_type" (tokdict query)) (fun t =>
        rbind (as_str v) (fun v =>
        rbind (as_str t) (fun t =>
        rbind (_parse_value_to_type v t) (fun x =>
        Ok (setitem "value" x query))))))
      else Ok query)
  | _ => Raise AttributeError
  end.

(** [query_action(key)], where [query_action] is [None] for a read. *)
Definition call_action (query_action : option (object -> M unit))
  (key : object) : M unit :=
  match query_action with
  | Some f => f key
  | None => raise TypeError
  end.

Definition operators_table : Type :=
  list (string * (pyobj -> pyobj -> result bool)).

(** [operators[query["operator"]](operand, query["value"])] *)
Definition apply_operator (query : ParseResults)
  (operators : operators_table) (operand : pyobj) : result bool :=
  rbind (getitem "operator" (tokdict query)) (fun o =>
  rbind (as_str o) (fun o =>
  rbind (table_get operators o) (fun op =>
  rbind (getitem "value" (tokdict query)) (fun qv =>
  op operand qv)))).

(** One turn of a scan loop:
<<
    try:
        if operators[query["operator"]](operand, query["value"]):
            matches.append((key, value))
            query_action(key)
    except:
        pass
>>
    The entry is appended before the action runs, so it stays in
    [matches] when the action raises. *)
Definition scan_entry (query_action : option (object -> M unit))
  (query : ParseResults) (operators : operators_table)
  (operand : pyobj) (entry : object * pyobj)
  (matches : list (pyobj * pyobj)) : M (list (pyobj * pyobj)) :=
  match apply_operator query operators operand with
  | Ok true =>
      try_except (call_action query_action (fst entry)) (ret tt) ;;;
      ret (matches ++ [item entry])%list
  | Ok false | Raise _ => ret matches
  end.

Fixpoint scan (step : object * pyobj -> list (pyobj * pyobj)
                      -> M (list (pyobj * pyobj)))
  (items : list (object * pyobj)) (matches : list (pyobj * pyobj))
  : M (list (pyobj * pyobj)) :=
  match items with
  | [] => ret matches
  | entry :: items' =>
      matches' <- step entry matches ;;
      scan step items' matches'
  end.

Definition _execute_query_by_value
  (query_action : option (object -> M unit)) (query : ParseResults)
  (operators : operators_table) : M (list (pyobj * pyobj)) :=
  items <- self_data_copy_items ;;
  scan (fun entry =>
          scan_entry query_action query operators (snd entry) entry)
       items [].

Definition _execute_query_by_key
  (query_action : option (object -> M unit)) (query : ParseResults)
  (operators : operators_table) : M (list (pyobj * pyobj)) :=
  o <- lift (getitem "operator" (tokdict query)) ;;
  if py_eq o (PStr "=") then
    try_except
      (qv <- lift (getitem "value" (tokdict query)) ;;
       k <- new_object qv ;;
       v <- self_data_getitem k ;;
       try_except (call_action query_action k) (ret tt) ;;;
       ret [(qv, v)])
      (ret [])
  else
    items <- self_data_copy_items ;;
    scan (fun entry =>
            scan_entry query_action query operators (val (fst entry)) entry)
         items [].

(** The dictionary [operators] of [_query]. *)
Definition operators : operators_table :=
  [ (">", operator.gt);
    ("<", operator.lt);
    ("=", operator.eq);
    ("<=", operator.le);
    (">=", operator.ge);
    ("contains", operator.contains) ].

Definition _query (query : pyobj) : M Response :=
  try_except
    (query <- lift (_parse_query_string query) ;;
     let query_elements :=
       [ ("key", _execute_query_by_key);
         ("value", _execute_query_by_value) ] in
     let query_actions :=
       [ ("read", None);
         ("delete", Some _delete_from_query) ] in
     a <- lift (rbind (getitem "action" (tokdict query)) as_str) ;;
     query_action <- lift (table_get query_actions a) ;;
     e <- lift (rbind (getitem "element" (tokdict query)) as_str) ;;
     execute <- lift (table_get query_elements e) ;;
     matches <- execute query_action query operators ;;
     ret {| success := true; message := None; data := matches |})
    (_send_error "Invalid query syntax.").

(** ** [_listen]

    What [request_types.get(request.request_type, 4)] yields: one of the
    lambdas of the table, or the default, which is the integer [4]. *)
Variant lambda_or_object : Type :=
| Lambda (body : M Response)
| Object (o : pyobj).

(** [d.get(k, default)] on a dictionary of lambdas whose keys are
    integers: a key that is the probe also equals it, so the stored key
    [k'] is found when [k' == k]. *)
Fixpoint get (d : list (pyobj * M Response)) (k : pyobj) (default : pyobj)
  : lambda_or_object :=
  match d with
  | [] => Object default
  | (k', f) :: d' => if py_eq k' k then Lambda f else get d' k default
  end.

(** [f()]: an integer is not callable. *)
Definition call (f : lambda_or_object) : M Response :=
  match f with
  | Lambda body => body
  | Object _ => raise TypeError
  end.

(** The body of the inner loop once the request is unpickled: the
    response that is pickled and sent back. *)
Definition dispatch (request : Request) : M Response :=
  let request_types :=
    [ (PInt 0, _read (key request));
      (PInt 1, _add (key request) (value request));
      (PInt 2, _delete (key request));
      (PInt 3, _query (query request));
      (PInt 4, _send_error "Request type does not exist.") ] in
  call (get request_types (request_type request) (PInt 4)).

(** What one [client_socket.recv(1024)] gives, told by what
    [pickle.loads] makes of the bytes: a request, when they begin with
    the whole pickle of one; an object without the attributes of a
    request; or an exception, that of [pickle.loads]
    ([UnpicklingError] on the first 1024 bytes of a longer pickle and
    on bytes that are no pickle) or that of [recv] itself on a
    connection that broke.  The empty bytes object, which ends the
    connection, is the end of the list. *)
Variant payload : Type :=
| Whole (request : Request)
| Other_object
| Raises (e : exn).

(** What the socket does in one turn of the inner loop: what is
    received, and the outcome of [client_socket.send(response)] when
    the turn comes to it ([BrokenPipeError] when the client is gone). *)
Record turn : Type :=
  { received : payload;
    sent : result unit }.

(** From the bytes to the response:
<<
    request = pickle.loads(request)
    request_types = {...}
    response = request_types.get(request.request_type, 4)()
>> *)
Definition serve (data : payload) : M Response :=
  match data with
  | Whole request => dispatch request
  | Other_object => raise AttributeError
  | Raises e => raise e
  end.

(** The inner loop over the turns of one connection, up to the empty
    bytes object that ends it; the result is the list of the responses
    that were sent.  There is no handler in the loop or around it: an
    exception ends it. *)
Fixpoint _listen (turns : list turn) : M (list Response) :=
  match turns with
  | [] => ret []
  | t :: turns' =>
      response <- serve (received t) ;;
      lift (sent t) ;;;
      responses <- _listen turns' ;;
      ret (response :: responses)
  end.

(** ** [_init_db]

    The file named in the configuration: absent, present but not
    readable, or present with some content.  A content is told by what
    [pickle.loads] makes of it: the dictionary a snapshot holds, or the
    exception raised on bytes that are no pickle ([EOFError] on a file
    cut short, with the empty file as the least case; [UnpicklingError]
    on other bytes). *)
Variant content : Type :=
| Snapshot (d : dict)
| Truncated
| Garbage.

Variant file : Type :=
| Absent
| Unreadable
| Holds (c : content).

Definition pickle_loads (c : content) : result dict :=
  match c with
  | Snapshot d => Ok d
  | Truncated => Raise EOFError
  | Garbage => Raise UnpicklingError
  end.

(** [open(filename, 'rb')] followed by [handle.read()]. *)
Definition open_read (f : file) : result content :=
  match f with
  | Holds c => Ok c
  | Absent => Raise FileNotFoundError
  | Unreadable => Raise PermissionError
  end.

(** The value given to [self.data], or the exception that leaves
    [_init_db]:
<<
    try:
        with open(self.filename, 'rb') as handle:
            self.data = pickle.loads(handle.read())
    except IOError:
        self.data = {}
>> *)
Definition _init_db (f : file) : result dict :=
  match rbind (open_read f) pickle_loads with
  | Ok d => Ok d
  | Raise e => if is_IOError e then Ok [] else Raise e
  end.

(** ** [_read_config]

    What [ConfigParser] makes of 'config.ini': the file is absent (then
    [read] reads nothing and every [get] raises), its syntax is
    rejected ([read] raises), or it is read; [settings] gives, for a
    section and an option, the string [config.get] returns, and [None]
    where [config.get] raises. *)
Variant config_ini : Type :=
| NoConfigFile
| BadSyntax
| Settings (settings : string -> string -> option string).

Record configuration : Type :=
  { host : string;
    port : Z;
    filename : string;
    snapshot_interval : Z }.

(** [int(s)], as a number. *)
Definition int_of_str (s : string) : option Z :=
  match py_int s with
  | Ok (PInt z) => Some z
  | _ => None
  end.

Definition obind {A B} (o : option A) (k : A -> option B) : option B :=
  match o with
  | Some a => k a
  | None => None
  end.

(** The four attributes [_read_config] sets:
<<
    try:
        config = ConfigParser()
        config.read('config.ini')
        self.host = config.get("database", "host")
        self.port = int(config.get("database", "port"))
        self.filename = config.get("database", "filename")
        self.snapshot_interval = int(config.get("snapshot", "interval"))
    except:
        self.host = "127.0.0.1"
        self.port = 65535
        self.filename = "data"
        self.snapshot_interval = 60
>> *)
Definition _read_config (ini : config_ini) : configuration :=
  let get :=
    match ini with
    | NoConfigFile => Some (fun _ _ => None)
    | BadSyntax => None
    | Settings settings => Some settings
    end in
  let attempt :=
    obind get (fun get =>
    obind (get "database" "host") (fun host =>
    obind (obind (get "database" "port") int_of_str) (fun port =>
    obind (get "database" "filename") (fun filename =>
    obind (obind (get "snapshot" "interval") int_of_str) (fun interval =>
    Some {| host := host; port := port; filename := filename;
            snapshot_interval := interval |}))))) in
  match attempt with
  | Some c => c
  | None => {| host := "127.0.0.1"; port := 65535; filename := "data";
               snapshot_interval := 60 |}
  end.

End Server.

(* ================================================================== *)
(** * The grammar as the specification words it *)
(* ================================================================== *)

Module Spec.
Import Py.

(** The tokens of a string: its maximal runs of characters that are not
    blanks. *)
Fixpoint tokens (s : string) : list string :=
  match s with
  | EmptyString => []
  | String c s' =>
      if pyparsing.DEFAULT_WHITE_CHARS c then tokens s'
      else
        match s' with
        | EmptyString => [String c EmptyString]
        | String c' _ =>
            if pyparsing.DEFAULT_WHITE_CHARS c'
            then String c EmptyString :: tokens s'
            else
              match tokens s' with
              | t :: ts => String c t :: ts
              | [] => [String c EmptyString]
              end
        end
  end.

Definition one_of (words : list string) (t : string) : bool :=
  existsb (String.eqb t) words.

Definition converts (typeName literal : string) : bool :=
  match Server._parse_value_to_type literal typeName with
  | Ok _ => true
  | Raise _ => false
  end.

(** [query := action element operator value], with
    [value := literal | typeName "(" literal ")"]: exactly these tokens,
    and a literal that converts to the type named. *)
Definition conforms (s : string) : bool :=
  match tokens s with
  | [a; e; o; _] =>
      one_of ["read"; "delete"] a && one_of ["key"; "value"] e
      && one_of ["<="; ">="; "<"; ">"; "="; "contains"] o
  | [a; e; o; t; lp; x; rp] =>
      one_of ["read"; "delete"] a && one_of ["key"; "value"] e
      && one_of ["<="; ">="; "<"; ">"; "="; "contains"] o
      && one_of ["int"; "float"; "complex"; "str"] t
      && String.eqb lp "(" && String.eqb rp ")" && converts t x
  | _ => false
  end.

End Spec.

(* ================================================================== *)
(** * Vocabulary of the statements *)
(* ================================================================== *)

Import Py pyparsing Server.

#[local] Arguments String.eqb : simpl never.
Local Open Scope list_scope.

(** Decide the comparisons of two string constants in the goal. *)
Ltac string_eqb :=
  repeat match goal with
         | |- context [String.eqb ?a ?b] =>
             let v := eval vm_compute in (String.eqb a b) in
             match v with
             | true => idtac
             | false => idtac
             end;
             change (String.eqb a b) with v
         end.

(** [Response(True, None, matches)] and [Response(False, description, [])]. *)
Definition ok (matches : list (pyobj * pyobj)) : Response :=
  {| success := true; message := None; data := matches |}.

Definition failure (description : string) : Response :=
  {| success := false; message := Some description; data := [] |}.

(** The store of the examples of client.py, after [delete(1)]: the
    keys are the second, third and fourth objects that were added. *)
Definition store0 : dict :=
  [ ({| addr := 2; val := PStr "1a2b3c" |}, PStr "John");
    ({| addr := 3; val := PInt 10 |}, PStr "Radu-Mihai");
    ({| addr := 4; val := PInt 15 |}, PStr "Onescu") ].

(** A request of type [t] with no other field set. *)
Definition with_type (t : pyobj) : Request :=
  {| request_type := t; key := PNone; value := PNone; query := PNone |}.

(** What [_query] does once the string is parsed. *)
Definition run_parsed (pq : ParseResults) : M Response :=
  a <- lift (rbind (getitem "action" (tokdict pq)) as_str) ;;
  query_action <- lift (table_get [ ("read", None);
                                    ("delete", Some _delete_from_query) ] a) ;;
  e <- lift (rbind (getitem "element" (tokdict pq)) as_str) ;;
  execute <- lift (table_get [ ("key", _execute_query_by_key);
                               ("value", _execute_query_by_value) ] e) ;;
  matches <- execute query_action pq operators ;;
  ret (ok matches).

(** Every character of [s] is among [printables]. *)
Fixpoint all_printable (s : string) : bool :=
  match s with
  | EmptyString => true
  | String c s' => printables c && all_printable s'
  end.

(** A literal of the grammar: a non-empty run of printable characters. *)
Definition is_literal (s : string) : bool :=
  match s with
  | EmptyString => false
  | String _ _ => all_printable s
  end.

(** The character before the location reached after reading [s] from a
    location that [b] precedes. *)
Fixpoint last_char (s : string) (b : option ascii) : option ascii :=
  match s with
  | EmptyString => b
  | String c s' => last_char s' (Some c)
  end.

(** [x in value] holds. *)
Definition value_contains (x : string) (entry : pyobj * pyobj) : bool :=
  match operator.contains (snd entry) (PStr x) with
  | Ok true => true
  | _ => false
  end.

(** The key [k] matches the key of no entry of [items]. *)
Definition no_key_matches (k : object) (items : dict) : bool :=
  forallb (fun kv => negb (key_eq k (fst kv))) items.

(** Whether the operator of the query holds of the operand of an
    entry; an operator that raises does not hold. *)
Definition matching (pq : ParseResults) (operand : object * pyobj -> pyobj)
  (entry : object * pyobj) : bool :=
  match apply_operator pq operators (operand entry) with
  | Ok true => true
  | _ => false
  end.

(** The four named results a parsed query is read through. *)
Definition parsed_as (pq : ParseResults) (a e o : string) (v : pyobj) : Prop :=
  getitem "action" (tokdict pq) = Ok (PStr a) /\
  getitem "element" (tokdict pq) = Ok (PStr e) /\
  getitem "operator" (tokdict pq) = Ok (PStr o) /\
  getitem "value" (tokdict pq) = Ok v.

(** The text of a value in a query, untyped ([None]) or typed, and the
    object it stands for. *)
Definition value_text (t : option string) (x : string) : string :=
  match t with
  | None => x
  | Some t => (t ++ " ( " ++ x ++ " )")%string
  end.

Definition value_object (t : option string) (x : string) : result pyobj :=
  match t with
  | None => Ok (PStr x)
  | Some t => _parse_value_to_type x t
  end.

(** The keywords of [OPERATOR], in the order they are tried. *)
Definition operator_names : list string :=
  ["<="; ">="; "<"; ">"; "="; "contains"]%string.

(** [operators[o](operand, v)] *)
Definition compare_with (o : string) (operand v : pyobj) : result bool :=
  rbind (table_get operators o) (fun op => op operand v).

(** The operand of a scan: the key of the entry or its value. *)
Definition operand_of (e : string) (entry : pyobj * pyobj) : pyobj :=
  if String.eqb e "key" then fst entry else snd entry.

(** A full scan: by value with any operator, by key unless the operator
    is ["="]. *)
Definition is_scan (e o : string) : bool :=
  (String.eqb e "value" || (String.eqb e "key" && negb (String.eqb o "=")))%bool.

(** The strings [_parse_query_string] raises on: those at whose start
    [SYNTAX] finds no match, and those of the typed form whose type
    name is unknown or whose literal does not convert.  (An object that
    is no string is turned down as well.) *)
Definition rejects (q : pyobj) : bool :=
  match q with
  | PStr s =>
      match parseString SYNTAX s with
      | Raise _ => true
      | Ok r =>
          match getitem "value_type" (tokdict r),
                getitem "value" (tokdict r) with
          | Ok (PStr t), Ok (PStr x) =>
              match _parse_value_to_type x t with
              | Raise _ => true
              | Ok _ => false
              end
          | _, _ => false
          end
      end
  | _ => true
  end.

(** Every operator keyword begins with one of these. *)
Definition starts_with_operator (t : string) : bool :=
  (prefix "<" t || prefix ">" t || prefix "=" t || prefix "contains" t)%bool.

(** The first three tokens of the string are an action, an element, and
    a token that begins with an operator. *)
Definition keywords_in_place (s : string) : bool :=
  match Spec.tokens s with
  | a :: e :: o :: _ =>
      (Spec.one_of ["read"; "delete"]%string a
       && Spec.one_of ["key"; "value"]%string e
       && starts_with_operator o)%bool
  | _ => false
  end.

(** No character of [s] is a blank; the first character of [s] is a
    blank. *)
Fixpoint no_blank (s : string) : bool :=
  match s with
  | EmptyString => true
  | String c s' => negb (DEFAULT_WHITE_CHARS c) && no_blank s'
  end.

Definition blank_first (s : string) : bool :=
  char_in DEFAULT_WHITE_CHARS (first_char s).

(** The operator [o] holds between the operand of [entry] and the value
    [v]; an operator that raises does not hold. *)
Definition holds (e o : string) (v : pyobj) (entry : pyobj * pyobj) : bool :=
  match compare_with o (operand_of e entry) v with
  | Ok true => true
  | _ => false
  end.

(** The request type is one of the keys [0] to [4] of [request_types]. *)
Definition known_type (r : Request) : bool :=
  existsb (fun n => py_eq (PInt n) (request_type r)) [0; 1; 2; 3; 4].

(** The defaults of [_read_config]. *)
Definition default_configuration : configuration :=
  {| host := "127.0.0.1"; port := 65535; filename := "data";
     snapshot_interval := 60 |}.

(** The four settings are there, with integers for the port and the
    interval. *)
Definition complete (settings : string -> string -> option string)
  (c : configuration) : Prop :=
  settings "database" "host" = Some (host c) /\
  obind (settings "database" "port") int_of_str = Some (port c) /\
  settings "database" "filename" = Some (filename c) /\
  obind (settings "snapshot" "interval") int_of_str
  = Some (snapshot_interval c).

(** A run of blanks, and a gap: a run of blanks that is not empty. *)
Fixpoint all_blank (w : string) : bool :=
  match w with
  | EmptyString => true
  | String c w' => DEFAULT_WHITE_CHARS c && all_blank w'
  end.

Definition gap (w : string) : bool :=
  match w with
  | EmptyString => false
  | String _ _ => all_blank w
  end.

(** The two formats of the docstring of [_parse_query_string], with any
    blanks [w0] in front and any gaps between the tokens:
    "[ACTION] [ELEMENT] [OPERATOR] [VALUE]", which may end in blanks, and
    "[ACTION] [ELEMENT] [OPERATOR] [DATATYPE] ( [VALUE] )", after which
    anything may stand. *)
Definition head_text (w0 a w1 e w2 o w3 : string) : string :=
  (w0 ++ a ++ w1 ++ e ++ w2 ++ o ++ w3)%string.

Definition untyped_text (x w : string) : string := (x ++ w)%string.

Definition typed_text (t w4 w5 x w6 tail : string) : string :=
  (t ++ w4 ++ "(" ++ w5 ++ x ++ w6 ++ ")" ++ tail)%string.

(** What [_parse_query_string] returns for a query of these formats. *)
Definition parsed_untyped (a e o x : string) : ParseResults :=
  {| toklist := [a; e; o; x];
     tokdict := [ ("action", PStr a); ("element", PStr e);
                  ("operator", PStr o); ("value", PStr x) ]%string |}.

Definition parsed_typed (a e o t x : string) (k : pyobj) : ParseResults :=
  {| toklist := [a; e; o; t; "("; x; ")"]%string;
     tokdict := [ ("action", PStr a); ("element", PStr e);
                  ("operator", PStr o); ("value_type", PStr t);
                  ("value", k) ]%string |}.

(** A method puts no entry in [self.data]: what is there after it was
    there before it. *)
Definition adds_nothing {A} (m : M A) : Prop :=
  forall d, incl (snd (m d)) d.

(** The request type selects [_add]. *)
Definition is_add (r : Request) : bool := py_eq (PInt 1) (request_type r).

(** What was received is a whole request of a known type; it is one
    that selects [_add]. *)
Definition known (data : payload) : bool :=
  match data with
  | Whole request => known_type request
  | Other_object | Raises _ => false
  end.

Definition selects_add (data : payload) : bool :=
  match data with
  | Whole request => is_add request
  | Other_object | Raises _ => false
  end.

(** A turn in which a whole request of a known type is received and the
    response is sent; the turn with what is received in which the
    response is sent. *)
Definition served (t : turn) : bool :=
  known (received t) && match sent t with Ok _ => true | Raise _ => false end.

Definition answered (data : payload) : turn :=
  {| received := data; sent := Ok tt |}.

(** The exception that ends the loop in a turn that is not [served]. *)
Definition raised_on (t : turn) : exn :=
  match received t, sent t with
  | Whole request, Raise e => if known_type request then e else TypeError
  | Whole _, Ok _ => TypeError
  | Other_object, _ => AttributeError
  | Raises e, _ => e
  end.

(** The object [p] is none of the keys of [d]. *)
Definition fresh (p : object) (d : dict) : Prop :=
  Forall (fun entry => py_is (fst entry) p = false) d.

(** A method keeps the invariant of [self.data]. *)
Definition keeps_wf {A} (m : M A) : Prop :=
  forall d, dict_wf d -> dict_wf (snd (m d)).

(** One of the keywords [ms] matched at [l] and left [l']. *)
Definition keyword_matched (ms : list string) (l l' : loc) : Prop :=
  exists m r, In m ms /\ Keyword m l = Ok (r, l').

(** The keywords of the grammar are non-empty and hold no blank. *)
Ltac keywords_are_words :=
  repeat (constructor; [split; [discriminate | reflexivity] |]); constructor.

(* ================================================================== *)
(** * Properties *)
(* ================================================================== *)

(** ** Dictionary keys *)

Lemma sf_same_refl (f : spec_float) : sf_same f f = true.
Proof.
  destruct f as [s | s | | s m e]; simpl; auto using Bool.eqb_reflx.
  now rewrite Bool.eqb_reflx, Pos.eqb_refl, Z.eqb_refl.
Qed.

Lemma same_value_refl (a : pyobj) : same_value a a = true.
Proof.
  destruct a; simpl; auto using Z.eqb_refl, sf_same_refl, String.eqb_refl.
  now rewrite !sf_same_refl.
Qed.

Lemma py_is_refl (a : object) : py_is a a = true.
Proof. unfold py_is. now rewrite Nat.eqb_refl, same_value_refl. Qed.

Lemma key_eq_refl (k : object) : key_eq k k = true.
Proof. unfold key_eq. now rewrite py_is_refl. Qed.

(** A new object is none of the keys of the dictionary; so it matches a
    stored key exactly when it equals it. *)
Lemma new_fresh (d : dict) (v : pyobj) : fresh (new d v) d.
Proof.
  unfold fresh. apply Forall_forall. intros entry Hin.
  unfold py_is, new. cbn [addr val].
  assert (H : (addr (fst entry)
               <= list_max (map (fun e => addr (fst e)) d))%nat).
  { assert (Hall := proj1 (list_max_le (map (fun e => addr (fst e)) d) _)
                      (Nat.le_refl _)).
    rewrite Forall_forall in Hall. apply Hall.
    now apply (in_map (fun e => addr (fst e))). }
  apply andb_false_intro1, Nat.eqb_neq. lia.
Qed.

Lemma fresh_key_eq (p k' : object) :
  py_is k' p = false -> key_eq k' p = py_eq (val k') (val p).
Proof. unfold key_eq. now intros ->. Qed.

Lemma dict_contains_getitem (k : object) (d : dict) :
  dict_contains k d = true -> exists v, dict_getitem k d = Ok v.
Proof.
  induction d as [| [k' v'] d IH]; simpl; [discriminate |].
  destruct (key_eq k' k); simpl; eauto.
Qed.

Lemma dict_absent_getitem (k : object) (d : dict) :
  dict_contains k d = false -> dict_getitem k d = Raise KeyError.
Proof.
  induction d as [| [k' v'] d IH]; simpl; [reflexivity |].
  destruct (key_eq k' k); simpl; [discriminate | exact IH].
Qed.

Lemma dict_contains_delitem (k : object) (d : dict) :
  dict_contains k d = true -> exists d', dict_delitem k d = Ok d'.
Proof.
  induction d as [| [k' v'] d IH]; simpl; [discriminate |].
  destruct (key_eq k' k); simpl; [eauto |].
  intros H. destruct (IH H) as [d' ->]. simpl. eauto.
Qed.

Lemma dict_absent_delitem (k : object) (d : dict) :
  dict_contains k d = false -> dict_delitem k d = Raise KeyError.
Proof.
  induction d as [| [k' v'] d IH]; simpl; [reflexivity |].
  destruct (key_eq k' k); simpl; [discriminate |].
  intros H. now rewrite (IH H).
Qed.

(** The object that was assigned to is found again. *)
Lemma dict_getitem_setitem (k : object) (v : pyobj) (d : dict) :
  dict_getitem k (dict_setitem k v d) = Ok v.
Proof.
  induction d as [| [k' v'] d IH]; simpl.
  - now rewrite key_eq_refl.
  - destruct (key_eq k' k) eqn:E; simpl; now rewrite E.
Qed.

(** Another object of the same value is found after the assignment when
    the value equals itself, and only then if no key was equal to it. *)
Lemma dict_getitem_setitem_equal (p p' : object) (v : pyobj) (d : dict) :
  fresh p d -> fresh p' (dict_setitem p v d) -> val p' = val p ->
  py_eq (val p) (val p) = true ->
  dict_getitem p' (dict_setitem p v d) = Ok v.
Proof.
  intros Hp Hp' Hval Hrefl. unfold fresh in *.
  induction d as [| [k' v'] d IH]; cbn [dict_setitem] in *.
  - cbn [dict_getitem]. unfold key_eq. now rewrite Hval, Hrefl, orb_true_r.
  - inversion Hp as [| ? ? Hk Hd]; subst. cbn [fst] in Hk.
    pose proof (fresh_key_eq p k' Hk) as E.
    destruct (key_eq k' p) eqn:Ek;
      inversion Hp' as [| ? ? Hk' Hd']; subst; cbn [fst] in Hk';
      cbn [dict_getitem];
      rewrite (fresh_key_eq p' k' Hk'), Hval, <- E;
      [reflexivity | now apply IH].
Qed.

(** The operations keep the invariant of dictionaries. *)
Lemma forallb_setitem (k0 k : object) (v : pyobj) (d : dict) :
  key_eq k0 k = false ->
  forallb (fun kv => negb (key_eq k0 (fst kv))) d = true ->
  forallb (fun kv => negb (key_eq k0 (fst kv))) (dict_setitem k v d) = true.
Proof.
  intros Hk. induction d as [| [k' v'] d IH]; simpl.
  - now rewrite Hk.
  - intros [H1 H2]%andb_prop.
    destruct (key_eq k' k); simpl in *; rewrite H1; auto.
Qed.

Lemma dict_wf_setitem (k : object) (v : pyobj) (d : dict) :
  dict_wf d -> dict_wf (dict_setitem k v d).
Proof.
  induction d as [| [k' v'] d IH]; simpl; [auto |].
  intros [H1 H2]. destruct (key_eq k' k) eqn:E; simpl; [auto |].
  split; [now apply forallb_setitem | auto].
Qed.

Lemma forallb_delitem (k0 k : object) (d d' : dict) :
  dict_delitem k d = Ok d' ->
  forallb (fun kv => negb (key_eq k0 (fst kv))) d = true ->
  forallb (fun kv => negb (key_eq k0 (fst kv))) d' = true.
Proof.
  revert d'. induction d as [| [k' v'] d IH]; simpl; [discriminate |].
  intros d' Hd [H1 H2]%andb_prop. destruct (key_eq k' k).
  - now injection Hd as <-.
  - destruct (dict_delitem k d) as [d1 |]; simpl in Hd; [| discriminate].
    injection Hd as <-. simpl. rewrite H1. now apply IH.
Qed.

Lemma dict_wf_delitem (k : object) (d d' : dict) :
  dict_delitem k d = Ok d' -> dict_wf d -> dict_wf d'.
Proof.
  revert d'. induction d as [| [k' v'] d IH]; simpl; [discriminate |].
  intros d' Hd [H1 H2]. destruct (key_eq k' k).
  - now injection Hd as <-.
  - destruct (dict_delitem k d) as [d1 |] eqn:E; simpl in Hd; [| discriminate].
    injection Hd as <-. simpl. split; [| now apply IH].
    now apply (forallb_delitem k' k d).
Qed.

(** ** Read, add, delete *)

Lemma _add_spec (k v : pyobj) (d : dict) :
  _add k v d = (Ok (ok [(k, v)]), dict_setitem (new d k) v d).
Proof.
  unfold _add, new_object, try_except, bind, self_data_setitem,
    self_data_getitem, ret.
  now rewrite dict_getitem_setitem.
Qed.

Lemma _read_unfold (k : pyobj) (d : dict) :
  _read k d =
  match dict_getitem (new d k) d with
  | Ok v => (Ok (ok [(k, v)]), d)
  | Raise _ => (Ok (failure "Entry does not exist."), d)
  end.
Proof.
  unfold _read, new_object, try_except, bind, self_data_getitem.
  now destruct (dict_getitem (new d k) d).
Qed.

Lemma _delete_unfold (k : pyobj) (d : dict) :
  _delete k d =
  match dict_delitem (new d k) d with
  | Ok d' => (Ok (ok []), d')
  | Raise _ => (Ok (failure "Entry could not be deleted."), d)
  end.
Proof.
  unfold _delete, new_object, try_except, bind, self_data_delitem.
  now destruct (dict_delitem (new d k) d).
Qed.

(** C4, for the keys that equal themselves.  [add(k, v)] answers with
    [[(k, v)]] for every key; when [k == k], reading [k] from the
    resulting store succeeds and the data of the response is exactly
    [[(k, v)]], although the key of the read request is another
    object. *)
Theorem add_then_read (d : dict) (k v : pyobj) :
  py_eq k k = true ->
  fst (_add k v d) = Ok (ok [(k, v)]) /\
  _read k (snd (_add k v d)) = (Ok (ok [(k, v)]), snd (_add k v d)).
Proof.
  intros Hk. rewrite _add_spec. cbn [fst snd]. split; [reflexivity |].
  rewrite _read_unfold.
  rewrite (dict_getitem_setitem_equal (new d k) _ v d);
    auto using new_fresh.
Qed.

Lemma add_then_read_witness :
  py_eq (PFloat (S754_finite false 5 1)) (PFloat (S754_finite false 5 1))
  = true /\
  _read (PFloat (S754_finite false 5 1))
    (snd (_add (PFloat (S754_finite false 5 1)) (PStr "ten") store0))
  = (Ok (ok [(PFloat (S754_finite false 5 1), PStr "ten")]),
     [ ({| addr := 2; val := PStr "1a2b3c" |}, PStr "John");
       ({| addr := 3; val := PInt 10 |}, PStr "ten");
       ({| addr := 4; val := PInt 15 |}, PStr "Onescu") ]).
Proof.
  split; [reflexivity |].
  exact (proj2 (add_then_read store0 (PFloat (S754_finite false 5 1))
                  (PStr "ten") eq_refl)).
Defined.

(** C4, as the specification words it, fails for a key that does not
    equal itself.  [add(nan, 1)] stores the entry and answers with it,
    and [read(nan)] on the resulting store finds nothing: its key is
    another NaN object, neither identical nor equal to the stored
    one. *)
Lemma nan_key_is_not_read_back :
  let nan := PFloat S754_nan in
  let d := snd (_add nan (PInt 1) []) in
  fst (_add nan (PInt 1) []) = Ok (ok [(nan, PInt 1)]) /\
  d = [({| addr := 1; val := nan |}, PInt 1)] /\
  _read nan d = (Ok (failure "Entry does not exist."), d).
Proof. repeat split. Qed.

(** C7.  For a key that is not in the store, [read] fails with "Entry
    does not exist." and [delete] fails with "Entry could not be
    deleted."; both responses carry no data, and the store is left as it
    was. *)
Theorem absent_key_read_delete (d : dict) (k : pyobj) :
  dict_contains (new d k) d = false ->
  _read k d = (Ok (failure "Entry does not exist."), d) /\
  _delete k d = (Ok (failure "Entry could not be deleted."), d).
Proof.
  intros H. split.
  - rewrite _read_unfold. now rewrite (dict_absent_getitem _ _ H).
  - rewrite _delete_unfold. now rewrite (dict_absent_delitem _ _ H).
Qed.

Lemma absent_key_read_delete_witness :
  dict_contains (new store0 (PInt 2)) store0 = false /\
  _read (PInt 2) store0 = (Ok (failure "Entry does not exist."), store0) /\
  _delete (PInt 2) store0
  = (Ok (failure "Entry could not be deleted."), store0).
Proof.
  split; [reflexivity |].
  apply (absent_key_read_delete store0 (PInt 2)). reflexivity.
Defined.

(** C10.  Deleting a key that is in the store succeeds with no message
    and with empty data: the removed pair is not part of the response.
    The store that results is the store without the entry of that key. *)
Theorem delete_present_returns_no_data (d : dict) (k : pyobj) :
  dict_contains (new d k) d = true ->
  exists d', dict_delitem (new d k) d = Ok d' /\
             _delete k d = (Ok (ok []), d').
Proof.
  intros H. destruct (dict_contains_delitem _ _ H) as [d' Hd].
  exists d'. split; [exact Hd |].
  rewrite _delete_unfold. now rewrite Hd.
Qed.

Lemma delete_present_returns_no_data_witness :
  dict_contains (new store0 (PInt 10)) store0 = true /\
  exists d', dict_delitem (new store0 (PInt 10)) store0 = Ok d' /\
             _delete (PInt 10) store0 = (Ok (ok []), d').
Proof.
  split; [reflexivity |].
  apply (delete_present_returns_no_data store0 (PInt 10)). reflexivity.
Defined.

(** ** Dispatch *)

(** A request type that matches none of the keys [0] to [4] of
    [request_types] makes [get] yield the integer [4], and calling it
    raises [TypeError] out of the loop. *)
Lemma dispatch_unmatched_type (r : Request) (d : dict) :
  forallb (fun n => negb (py_eq (PInt n) (request_type r))) [0; 1; 2; 3; 4]
  = true ->
  dispatch r d = (Raise TypeError, d).
Proof.
  unfold dispatch. cbn [get forallb].
  intros H.
  repeat (apply andb_prop in H; destruct H as [?%negb_true_iff H]).
  repeat match goal with E : py_eq _ _ = false |- _ => rewrite E; clear E end.
  reflexivity.
Qed.

Lemma dispatch_type_4 (r : Request) (d : dict) :
  request_type r = PInt 4 ->
  dispatch r d = (Ok (failure "Request type does not exist."), d).
Proof. unfold dispatch. intros ->. reflexivity. Qed.

(** C1 (the code at the failing input).  A request of type [5], which is
    none of the four kinds, is answered by no response: [TypeError]
    leaves [dispatch], and it ends the loop of the connection. *)
Theorem dispatch_type_5_raises (d : dict) :
  dispatch (with_type (PInt 5)) d = (Raise TypeError, d) /\
  _listen [answered (Whole (with_type (PInt 5)))] d = (Raise TypeError, d).
Proof.
  assert (H : dispatch (with_type (PInt 5)) d = (Raise TypeError, d))
    by (now apply dispatch_unmatched_type).
  split; [exact H |].
  unfold _listen, bind, serve, answered, received. now rewrite H.
Qed.

(** ** Start-up *)

Lemma _init_db_read_failure (f : file) :
  f = Absent \/ f = Unreadable -> _init_db f = Ok [].
Proof. intros [-> | ->]; reflexivity. Qed.

Lemma _init_db_snapshot (d : dict) : _init_db (Holds (Snapshot d)) = Ok d.
Proof. reflexivity. Qed.

(** C3 (the code at the failing input).  When the file is there and its
    content is no pickle, the exception of [pickle.loads] is not an
    [IOError]: it leaves [_init_db], and no empty store is set up. *)
Theorem _init_db_corrupted_raises :
  _init_db (Holds Truncated) = Raise EOFError /\
  _init_db (Holds Garbage) = Raise UnpicklingError.
Proof. split; reflexivity. Qed.

(** ** Queries: the frame of a read *)

Lemma call_action_None_swallowed (k : object) (d : dict) :
  try_except (call_action None k) (ret tt) d = (Ok tt, d).
Proof. reflexivity. Qed.

Lemma scan_entry_read_frame (pq : ParseResults) (ops : operators_table)
  (operand : pyobj) (entry : object * pyobj) (matches : list (pyobj * pyobj))
  (d : dict) :
  exists matches', scan_entry None pq ops operand entry matches d
                   = (Ok matches', d).
Proof.
  unfold scan_entry.
  destruct (apply_operator pq ops operand) as [[|] | e];
    unfold bind, try_except, call_action, raise, ret; eauto.
Qed.

Lemma scan_read_frame (pq : ParseResults) (ops : operators_table)
  (operand : object * pyobj -> pyobj) (items : list (object * pyobj)) :
  forall (matches : list (pyobj * pyobj)) (d : dict),
  exists matches',
    scan (fun entry => scan_entry None pq ops (operand entry) entry)
      items matches d = (Ok matches', d).
Proof.
  induction items as [| entry items IH]; intros matches d; simpl.
  - unfold ret. eauto.
  - unfold bind.
    destruct (scan_entry_read_frame pq ops (operand entry) entry matches d)
      as [m' ->].
    apply IH.
Qed.

Lemma execute_by_value_read_frame (pq : ParseResults)
  (ops : operators_table) (d : dict) :
  exists matches, _execute_query_by_value None pq ops d = (Ok matches, d).
Proof.
  unfold _execute_query_by_value, bind, self_data_copy_items.
  apply (scan_read_frame pq ops snd).
Qed.

Lemma execute_by_key_read_frame (pq : ParseResults)
  (ops : operators_table) (d : dict) :
  snd (_execute_query_by_key None pq ops d) = d.
Proof.
  unfold _execute_query_by_key, bind, lift.
  destruct (getitem "operator" (tokdict pq)) as [o |]; [| reflexivity].
  destruct (py_eq o (PStr "=")).
  - unfold try_except, bind, lift, new_object, self_data_getitem.
    destruct (getitem "value" (tokdict pq)) as [qv |]; [| reflexivity].
    destruct (dict_getitem (new d qv) d); reflexivity.
  - unfold self_data_copy_items.
    destruct (scan_read_frame pq ops (fun entry => val (fst entry)) d [] d)
      as [m ->].
    reflexivity.
Qed.

Lemma _query_unfold (q : pyobj) (d : dict) :
  _query q d =
  match _parse_query_string q with
  | Ok pq => try_except (run_parsed pq) (_send_error "Invalid query syntax.") d
  | Raise _ => (Ok (failure "Invalid query syntax."), d)
  end.
Proof.
  unfold _query, run_parsed, try_except at 1, bind at 1, lift at 1.
  destruct (_parse_query_string q) as [pq | e]; reflexivity.
Qed.

Lemma run_parsed_read_frame (pq : ParseResults) (d : dict) :
  getitem "action" (tokdict pq) = Ok (PStr "read") ->
  snd (try_except (run_parsed pq) (_send_error "Invalid query syntax.") d) = d.
Proof.
  intros Ha. unfold run_parsed, try_except, bind, lift. rewrite Ha. simpl.
  destruct (rbind (getitem "element" (tokdict pq)) as_str) as [e |];
    [| reflexivity].
  simpl. destruct (String.eqb "key" e).
  - pose proof (execute_by_key_read_frame pq operators d) as H.
    destruct (_execute_query_by_key None pq operators d) as [[m |] d'];
      simpl in H; subst; reflexivity.
  - destruct (String.eqb "value" e); [| reflexivity].
    destruct (execute_by_value_read_frame pq operators d) as [m ->].
    reflexivity.
Qed.

Lemma run_parsed_frame_unless_delete (pq : ParseResults) (d : dict) :
  getitem "action" (tokdict pq) <> Ok (PStr "delete") ->
  snd (try_except (run_parsed pq) (_send_error "Invalid query syntax.") d) = d.
Proof.
  intros Ha.
  destruct (getitem "action" (tokdict pq)) as [a |] eqn:E;
    [| unfold run_parsed, try_except, bind, lift; now rewrite E].
  destruct a as [| | | | a];
    try (unfold run_parsed, try_except, bind, lift; now rewrite E).
  destruct (String.eqb "read" a) eqn:Er.
  - apply String.eqb_eq in Er. subst a. now apply run_parsed_read_frame.
  - destruct (String.eqb "delete" a) eqn:Ed.
    + apply String.eqb_eq in Ed. now subst a.
    + unfold run_parsed, try_except, bind, lift. rewrite E. simpl.
      now rewrite Er, Ed.
Qed.

(** C9.  A query that parses with action "read" leaves the store as it
    was, whatever its element and operator; and a query after which the
    store differs parsed with action "delete". *)
Theorem read_query_leaves_store (q : pyobj) (d : dict) :
  (forall pq, _parse_query_string q = Ok pq ->
              getitem "action" (tokdict pq) = Ok (PStr "read") ->
              snd (_query q d) = d) /\
  (snd (_query q d) <> d ->
   exists pq, _parse_query_string q = Ok pq /\
              getitem "action" (tokdict pq) = Ok (PStr "delete")).
Proof.
  rewrite _query_unfold. split.
  - intros pq -> Ha. now apply run_parsed_read_frame.
  - destruct (_parse_query_string q) as [pq | e]; simpl; [| congruence].
    intros Hd. exists pq. split; [reflexivity |].
    destruct (getitem "action" (tokdict pq)) as [a |] eqn:E.
    + destruct a as [| | | | a].
      1-4: exfalso; apply Hd; apply run_parsed_frame_unless_delete;
           rewrite E; discriminate.
      destruct (String.eqb "delete" a) eqn:Ed.
      * apply String.eqb_eq in Ed. now subst.
      * exfalso. apply Hd. apply run_parsed_frame_unless_delete.
        rewrite E. intros [= ->]. now rewrite String.eqb_refl in Ed.
    + exfalso. apply Hd. apply run_parsed_frame_unless_delete.
      rewrite E. discriminate.
Qed.

Lemma read_query_leaves_store_witness :
  let q := PStr "read value contains Mihai" in
  (exists pq, _parse_query_string q = Ok pq /\
              getitem "action" (tokdict pq) = Ok (PStr "read")) /\
  snd (_query q store0) = store0.
Proof.
  intros q. split.
  - eexists. split; reflexivity.
  - exact (proj1 (read_query_leaves_store q store0) _ eq_refl eq_refl).
Defined.

(** ** The parser on literals *)

Lemma printable_not_white (c : ascii) :
  printables c = true -> DEFAULT_WHITE_CHARS c = false.
Proof.
  unfold printables, between, DEFAULT_WHITE_CHARS.
  generalize (nat_of_ascii c) as n. intros n [H1 H2]%andb_prop.
  apply Nat.leb_le in H1, H2.
  repeat (apply orb_false_intro); apply Nat.eqb_neq; lia.
Qed.

Lemma skip_white_literal (b : option ascii) (s : string) :
  is_literal s = true -> skip_white b s = {| before := b; text := s |}.
Proof.
  destruct s as [| c s]; simpl; [discriminate |].
  intros [H _]%andb_prop. now rewrite (printable_not_white c H).
Qed.

Lemma span_all_printable (s : string) :
  forall b, all_printable s = true ->
  span printables s b = (s, {| before := last_char s b; text := "" |}).
Proof.
  induction s as [| c s IH]; intros b; simpl; [reflexivity |].
  intros [H1 H2]%andb_prop. rewrite H1. now rewrite (IH (Some c) H2).
Qed.

Lemma span_until_blank (w : string) (c : ascii) (r : string) :
  forall b, all_printable w = true -> printables c = false ->
  span printables (w ++ String c r)%string b
  = (w, {| before := last_char w b; text := String c r |}).
Proof.
  induction w as [| a w IH]; intros b; simpl.
  - intros _ ->. reflexivity.
  - intros [H1 H2]%andb_prop Hc. rewrite H1. now rewrite (IH (Some a) H2 Hc).
Qed.

(** [Word(printables)] on a literal that ends the string. *)
Lemma Word_last_literal (b : option ascii) (x : string) :
  is_literal x = true ->
  Word printables {| before := b; text := x |}
  = Ok ({| toklist := [x]; tokdict := [] |},
        {| before := last_char x b; text := "" |}).
Proof.
  intros H. unfold Word, preParse. cbn [before text].
  rewrite (skip_white_literal b x H). cbn [before text].
  destruct x as [| c x]; [discriminate |].
  now rewrite (span_all_printable (String c x) b H).
Qed.

Lemma preParse_blank_literal (b : option ascii) (x : string) :
  is_literal x = true ->
  preParse {| before := b; text := String " " x |}
  = {| before := Some " "%char; text := x |}.
Proof.
  intros H. unfold preParse. cbn [before text].
  change (skip_white b (String " " x)) with (skip_white (Some " "%char) x).
  now apply skip_white_literal.
Qed.

Lemma preParse_literal (b : option ascii) (x : string) :
  is_literal x = true ->
  preParse {| before := b; text := x |} = {| before := b; text := x |}.
Proof. intros H. unfold preParse. now apply skip_white_literal. Qed.

(** [VALUE] on a blank and a literal that ends the string: the typed
    form finds no parenthesis, and the literal is the value. *)
Lemma VALUE_last_literal (b : option ascii) (x : string) :
  is_literal x = true ->
  VALUE {| before := b; text := String " " x |}
  = Ok ({| toklist := [x]; tokdict := [("value", PStr x)] |},
        {| before := last_char x (Some " "%char); text := "" |}).
Proof.
  intros H. unfold VALUE, MatchFirst, And, setResultsName.
  rewrite !(preParse_blank_literal _ _ H), !(preParse_literal _ _ H).
  rewrite (Word_last_literal _ _ H). cbn [toklist tokdict rev app].
  unfold Literal at 1, preParse. cbn.
  unfold Word, preParse. cbn [before text].
  change (skip_white b (String " " x)) with (skip_white (Some " "%char) x).
  rewrite (skip_white_literal _ x H). cbn [before text].
  destruct x as [| c x]; [discriminate |].
  now rewrite (span_all_printable (String c x) _ H).
Qed.

(** The strings ["delete value contains X"] and ["read key = K"]. *)
Lemma parse_delete_value_contains (x : string) :
  is_literal x = true ->
  _parse_query_string (PStr ("delete value contains " ++ x)%string)
  = Ok {| toklist := ["delete"; "value"; "contains"; x];
          tokdict := [ ("action", PStr "delete");
                       ("element", PStr "value");
                       ("operator", PStr "contains");
                       ("value", PStr x) ] |}.
Proof.
  intros H. unfold _parse_query_string, parseString, SYNTAX.
  unfold And at 1.
  change ((ACTION +' ELEMENT +' OPERATOR)%py
            (preParse {| before := None;
                         text := ("delete value contains " ++ x)%string |}))
    with (@Ok (ParseResults * loc)
            ({| toklist := ["delete"; "value"; "contains"];
                tokdict := [ ("action", PStr "delete");
                             ("element", PStr "value");
                             ("operator", PStr "contains") ] |},
             {| before := Some "s"%char; text := String " " x |})).
  cbv beta iota. now rewrite (VALUE_last_literal _ _ H).
Qed.

Lemma parse_read_key_eq (x : string) :
  is_literal x = true ->
  _parse_query_string (PStr ("read key = " ++ x)%string)
  = Ok {| toklist := ["read"; "key"; "="; x];
          tokdict := [ ("action", PStr "read");
                       ("element", PStr "key");
                       ("operator", PStr "=");
                       ("value", PStr x) ] |}.
Proof.
  intros H. unfold _parse_query_string, parseString, SYNTAX.
  unfold And at 1.
  change ((ACTION +' ELEMENT +' OPERATOR)%py
            (preParse {| before := None; text := ("read key = " ++ x)%string |}))
    with (@Ok (ParseResults * loc)
            ({| toklist := ["read"; "key"; "="];
                tokdict := [ ("action", PStr "read");
                             ("element", PStr "key");
                             ("operator", PStr "=") ] |},
             {| before := Some "="%char; text := String " " x |})).
  cbv beta iota. now rewrite (VALUE_last_literal _ _ H).
Qed.

(** ** Queries that delete by value *)

(** A key object of the dictionary finds its own entry. *)
Lemma dict_delitem_middle (pre : dict) (k : object) (v : pyobj)
  (rest : dict) :
  Forall (fun e => key_eq (fst e) k = false) pre ->
  dict_delitem k (pre ++ (k, v) :: rest) = Ok (pre ++ rest).
Proof.
  induction 1 as [| [k' v'] pre Hk _ IH]; simpl.
  - now rewrite key_eq_refl.
  - simpl in Hk. now rewrite Hk, IH.
Qed.

Lemma no_key_matches_filter (k : object) (f : object * pyobj -> bool)
  (items : dict) :
  no_key_matches k items = true -> no_key_matches k (filter f items) = true.
Proof.
  unfold no_key_matches. induction items as [| e items IH]; simpl; [auto |].
  intros [H1 H2]%andb_prop. destruct (f e); simpl; [rewrite H1 |]; auto.
Qed.

Lemma dict_wf_filter (f : object * pyobj -> bool) (d : dict) :
  dict_wf d -> dict_wf (filter f d).
Proof.
  induction d as [| [k v] d IH]; simpl; [auto |].
  intros [H1 H2]. destruct (f (k, v)); simpl; [| auto].
  split; [now apply no_key_matches_filter | auto].
Qed.

Lemma items_filter (f : pyobj * pyobj -> bool) (d : dict) :
  items (filter (fun e => f (item e)) d) = filter f (items d).
Proof.
  unfold items. induction d as [| e d IH]; simpl; [reflexivity |].
  destruct (f (item e)); simpl; now rewrite IH.
Qed.

Section DeleteScan.

Variable pq : ParseResults.
Variable operand : object * pyobj -> pyobj.

(** A deleting scan over the entries [entries], run on the store
    [pre ++ entries] in which they come last: it collects the entries
    that match and leaves the others. *)
Lemma scan_delete (entries : dict) :
  forall (pre : dict) (matches : list (pyobj * pyobj)),
  dict_wf entries ->
  Forall (fun e => no_key_matches (fst e) entries = true) pre ->
  scan (fun entry =>
          scan_entry (Some _delete_from_query) pq operators (operand entry)
            entry)
    entries matches (pre ++ entries)
  = (Ok (matches ++ items (filter (matching pq operand) entries)),
     pre ++ filter (fun e => negb (matching pq operand e)) entries).
Proof.
  induction entries as [| [k v] entries IH]; intros pre matches Hwf Hpre.
  - simpl. unfold ret. now rewrite !app_nil_r.
  - destruct Hwf as [Hk Hwf].
    assert (Hpre' : Forall (fun e => no_key_matches (fst e) entries = true)
                      pre).
    { eapply Forall_impl; [| exact Hpre]. simpl.
      now intros e [_ H]%andb_prop. }
    assert (Hprek : Forall (fun e => key_eq (fst e) k = false) pre).
    { eapply Forall_impl; [| exact Hpre]. simpl.
      now intros e [H%negb_true_iff _]%andb_prop. }
    cbn [scan filter]. unfold bind at 1, scan_entry.
    assert (Hm : matching pq operand (k, v)
                 = match apply_operator pq operators (operand (k, v)) with
                   | Ok true => true
                   | _ => false
                   end) by reflexivity.
    rewrite Hm. clear Hm.
    assert (Hskip : scan (fun entry =>
                            scan_entry (Some _delete_from_query) pq operators
                              (operand entry) entry)
                      entries matches (pre ++ (k, v) :: entries)
                    = (Ok (matches
                           ++ items (filter (matching pq operand) entries)),
                       pre ++ (k, v)
                           :: filter (fun e => negb (matching pq operand e))
                                entries)).
    { change (pre ++ (k, v) :: entries) with (pre ++ [(k, v)] ++ entries).
      rewrite app_assoc, (IH (pre ++ [(k, v)]) matches Hwf).
      - now rewrite <- app_assoc.
      - apply Forall_app. split; [exact Hpre' |].
        constructor; [exact Hk | constructor]. }
    destruct (apply_operator pq operators (operand (k, v))) as [[|] | e];
      cbn [negb].
    + unfold bind at 1, try_except, call_action, _delete_from_query,
        self_data_delitem. cbn [fst].
      rewrite (dict_delitem_middle pre k v entries Hprek).
      unfold ret at 1. rewrite (IH pre _ Hwf Hpre').
      cbn [items map]. now rewrite <- app_assoc.
    + exact Hskip.
    + exact Hskip.
Qed.

End DeleteScan.

Lemma filter_filter_negb {A} (f : A -> bool) (l : list A) :
  filter f (filter (fun a => negb (f a)) l) = [] /\
  filter (fun a => negb (f a)) (filter (fun a => negb (f a)) l)
  = filter (fun a => negb (f a)) l.
Proof.
  induction l as [| a l [IH1 IH2]]; simpl; [auto |].
  destruct (f a) eqn:E; simpl; [auto |]. rewrite E. simpl. now rewrite IH2.
Qed.

Lemma delete_value_contains_run (x : string) (d : dict) :
  is_literal x = true -> dict_wf d ->
  _query (PStr ("delete value contains " ++ x)%string) d
  = (Ok (ok (filter (value_contains x) (items d))),
     filter (fun e => negb (value_contains x (item e))) d).
Proof.
  intros Hx Hwf. rewrite _query_unfold, (parse_delete_value_contains x Hx).
  unfold run_parsed, try_except, bind at 1 2 3 4, lift.
  cbn [tokdict getitem rbind as_str table_get].
  change (String.eqb "action" "action") with true.
  change (String.eqb "read" "delete") with false.
  change (String.eqb "delete" "delete") with true.
  change (String.eqb "action" "element") with false.
  change (String.eqb "element" "element") with true.
  change (String.eqb "key" "value") with false.
  change (String.eqb "value" "value") with true.
  cbv beta iota. cbn [rbind as_str table_get].
  change (String.eqb "read" "delete") with false.
  change (String.eqb "delete" "delete") with true.
  change (String.eqb "key" "value") with false.
  change (String.eqb "value" "value") with true.
  cbv beta iota.
  unfold bind, _execute_query_by_value, self_data_copy_items, bind.
  pose proof (scan_delete
                {| toklist := ["delete"; "value"; "contains"; x];
                   tokdict := [ ("action", PStr "delete");
                                ("element", PStr "value");
                                ("operator", PStr "contains");
                                ("value", PStr x) ] |} snd d [] [] Hwf
                (Forall_nil _)) as H.
  cbn [app] in H. rewrite H.
  now rewrite <- (items_filter (value_contains x) d).
Qed.

(** C5, for the values of X the grammar reads as one word.  On a store
    [d] and for a literal [x], the query "delete value contains x"
    answers with exactly the entries of [d] whose value contains [x], in
    the order of the store, and leaves exactly the other entries; the
    same query run again at once succeeds with no match and changes
    nothing. *)
Theorem delete_value_contains (d : dict) (x : string) :
  dict_wf d ->
  is_literal x = true ->
  let q := PStr ("delete value contains " ++ x)%string in
  let removed := filter (value_contains x) (items d) in
  let kept := filter (fun e => negb (value_contains x (item e))) d in
  _query q d = (Ok (ok removed), kept) /\
  _query q kept = (Ok (ok []), kept).
Proof.
  intros Hwf Hx q removed kept. subst q removed kept. split.
  - now apply delete_value_contains_run.
  - rewrite (delete_value_contains_run x _ Hx (dict_wf_filter _ d Hwf)).
    rewrite <- (items_filter (value_contains x)).
    destruct (filter_filter_negb (fun e => value_contains x (item e)) d)
      as [-> ->].
    reflexivity.
Qed.

Lemma delete_value_contains_witness :
  dict_wf store0 /\ is_literal "Mihai" = true /\
  _query (PStr "delete value contains Mihai") store0
  = (Ok (ok [(PInt 10, PStr "Radu-Mihai")]),
     [ ({| addr := 2; val := PStr "1a2b3c" |}, PStr "John");
       ({| addr := 4; val := PInt 15 |}, PStr "Onescu") ]) /\
  _query (PStr "delete value contains Mihai")
    [ ({| addr := 2; val := PStr "1a2b3c" |}, PStr "John");
      ({| addr := 4; val := PInt 15 |}, PStr "Onescu") ]
  = (Ok (ok []),
     [ ({| addr := 2; val := PStr "1a2b3c" |}, PStr "John");
       ({| addr := 4; val := PInt 15 |}, PStr "Onescu") ]).
Proof.
  assert (Hwf : dict_wf store0) by (simpl; repeat split; reflexivity).
  split; [exact Hwf |]. split; [reflexivity |].
  exact (delete_value_contains store0 "Mihai" Hwf eq_refl).
Defined.

(** C5, as the specification words it, fails where X is not one word of
    the grammar.  For the empty X, which every string contains, the
    query is turned down and removes nothing; and of "a b" only "a" is
    read, so that an entry whose value contains "a" and not "a b" is
    removed. *)
Lemma delete_value_contains_not_every_x :
  let d := [({| addr := 1; val := PInt 1 |}, PStr "a")] in
  value_contains "" (PInt 1, PStr "a") = true /\
  _query (PStr "delete value contains ") d
  = (Ok (failure "Invalid query syntax."), d) /\
  value_contains "a b" (PInt 1, PStr "a") = false /\
  _query (PStr "delete value contains a b") d
  = (Ok (ok [(PInt 1, PStr "a")]), []).
Proof. repeat split. Qed.

(** ** Queries by key equality *)

Lemma run_read_key_eq (pq : ParseResults) (k : pyobj) (d : dict) :
  parsed_as pq "read" "key" "=" k ->
  run_parsed pq d =
  match dict_getitem (new d k) d with
  | Ok v => (Ok (ok [(k, v)]), d)
  | Raise _ => (Ok (ok []), d)
  end.
Proof.
  intros (Ha & He & Ho & Hv).
  unfold run_parsed, bind, lift. rewrite Ha, He.
  cbn [rbind as_str table_get].
  change (String.eqb "read" "read") with true.
  change (String.eqb "key" "key") with true. cbv beta iota.
  unfold _execute_query_by_key, bind, lift. rewrite Ho.
  change (py_eq (PStr "=") (PStr "=")) with true. cbv beta iota.
  unfold try_except, bind, lift, new_object, self_data_getitem. rewrite Hv.
  destruct (dict_getitem (new d k) d); reflexivity.
Qed.

Lemma skip_white_idem (s : string) :
  forall b, skip_white (before (skip_white b s)) (text (skip_white b s))
            = skip_white b s.
Proof.
  induction s as [| c s IH]; intros b; simpl; [reflexivity |].
  destruct (DEFAULT_WHITE_CHARS c) eqn:E; [apply IH |].
  simpl. now rewrite E.
Qed.

Lemma preParse_idem (l : loc) : preParse (preParse l) = preParse l.
Proof. unfold preParse. apply skip_white_idem. Qed.

Lemma skip_white_literal_app (b : option ascii) (x r : string) :
  is_literal x = true ->
  skip_white b (x ++ r)%string = {| before := b; text := (x ++ r)%string |}.
Proof.
  destruct x as [| c x]; simpl; [discriminate |].
  intros [H _]%andb_prop. now rewrite (printable_not_white c H).
Qed.

(** [Word(printables)] where, blanks skipped, a literal stands before a
    character that is not printable. *)
Lemma Word_before_blank (l : loc) (b : option ascii) (x : string)
  (c : ascii) (r : string) :
  is_literal x = true -> printables c = false ->
  preParse l = {| before := b; text := (x ++ String c r)%string |} ->
  Word printables l
  = Ok ({| toklist := [x]; tokdict := [] |},
        {| before := last_char x b; text := String c r |}).
Proof.
  intros Hx Hc Hl. unfold Word. rewrite Hl. cbn [before text].
  destruct x as [| a x]; [discriminate |].
  now rewrite (span_until_blank (String a x) c r b Hx Hc).
Qed.

Lemma preParse_blank_app (b : option ascii) (x r : string) :
  is_literal x = true ->
  preParse {| before := b; text := String " " (x ++ r) |}
  = {| before := Some " "%char; text := (x ++ r)%string |}.
Proof.
  intros H. unfold preParse. cbn [before text].
  change (skip_white b (String " " (x ++ r)))
    with (skip_white (Some " "%char) (x ++ r)).
  now apply skip_white_literal_app.
Qed.

(** [VALUE] on the typed form [t ( x )] that ends the string. *)
Lemma VALUE_typed (b : option ascii) (t x : string) :
  is_literal t = true -> is_literal x = true ->
  VALUE {| before := b; text := String " " (t ++ " ( " ++ x ++ " )") |}
  = Ok ({| toklist := [t; "("; x; ")"];
           tokdict := [("value_type", PStr t); ("value", PStr x)] |},
        {| before := Some ")"%char; text := "" |}).
Proof.
  intros Ht Hx. unfold VALUE, MatchFirst. unfold And at 1 2 3.
  rewrite !preParse_idem. cbn [append].
  unfold setResultsName at 1.
  rewrite (Word_before_blank _ (Some " "%char) t " "
             (String "(" (String " " (x ++ " )"))) Ht eq_refl).
  2: { rewrite preParse_idem. now apply (preParse_blank_app b t). }
  cbn [toklist tokdict rev app].
  change (Literal "("
            {| before := last_char t (Some " "%char);
               text := String " " (String "(" (String " " (x ++ " )"))) |})
    with (@Ok (ParseResults * loc)
            ({| toklist := ["("]; tokdict := [] |},
             {| before := Some "("%char; text := String " " (x ++ " )") |})).
  cbv beta iota. cbn [toklist tokdict app].
  unfold setResultsName at 1.
  rewrite (Word_before_blank _ (Some " "%char) x " " ")" Hx eq_refl
             (preParse_blank_app _ x _ Hx)).
  reflexivity.
Qed.

Lemma types_are_literals (x t : string) (k : pyobj) :
  _parse_value_to_type x t = Ok k -> is_literal t = true.
Proof.
  unfold _parse_value_to_type. cbn [table_get].
  repeat match goal with
         | |- context [String.eqb ?a t] =>
             destruct (String.eqb_spec a t) as [<- | _]; [reflexivity |]
         end.
  discriminate.
Qed.

Lemma parse_read_key_eq_typed (t x : string) (k : pyobj) :
  is_literal x = true ->
  _parse_value_to_type x t = Ok k ->
  _parse_query_string (PStr ("read key = " ++ t ++ " ( " ++ x ++ " )"))
  = Ok {| toklist := ["read"; "key"; "="; t; "("; x; ")"];
          tokdict := [ ("action", PStr "read");
                       ("element", PStr "key");
                       ("operator", PStr "=");
                       ("value_type", PStr t);
                       ("value", k) ] |}.
Proof.
  intros Hx Hk. pose proof (types_are_literals x t k Hk) as Ht.
  unfold _parse_query_string, parseString, SYNTAX.
  unfold And at 1.
  change ((ACTION +' ELEMENT +' OPERATOR)%py
            (preParse {| before := None;
                         text := ("read key = " ++ t ++ " ( " ++ x ++ " )")
                       |}))
    with (@Ok (ParseResults * loc)
            ({| toklist := ["read"; "key"; "="];
                tokdict := [ ("action", PStr "read");
                             ("element", PStr "key");
                             ("operator", PStr "=") ] |},
             {| before := Some "="%char;
                text := String " " (t ++ " ( " ++ x ++ " )") |})).
  cbv beta iota. rewrite (VALUE_typed _ t x Ht Hx).
  cbn -[_parse_value_to_type]. string_eqb.
  cbn -[_parse_value_to_type]. rewrite Hk. cbn. string_eqb. reflexivity.
Qed.

Lemma parse_read_key_eq_value (t : option string) (x : string) (k : pyobj) :
  is_literal x = true -> value_object t x = Ok k ->
  exists pq,
    _parse_query_string (PStr ("read key = " ++ value_text t x)) = Ok pq /\
    parsed_as pq "read" "key" "=" k.
Proof.
  intros Hx Hk. destruct t as [t |]; simpl in Hk.
  - eexists. split; [exact (parse_read_key_eq_typed t x k Hx Hk) |].
    repeat split.
  - injection Hk as <-. eexists. split; [exact (parse_read_key_eq x Hx) |].
    repeat split.
Qed.

(** C8, for the keys a query can name.  Let the text [value_text t x]
    stand for the key [k] (a literal for a string key, [t ( x )] for a
    key of type [t]).  When [k] is in the store, the query
    "read key = ..." returns what [read k] returns, a success with the
    single entry of [k]; when [k] is not in the store the query succeeds
    with no match. *)
Theorem query_read_key_eq (d : dict) (t : option string) (x : string)
  (k : pyobj) :
  is_literal x = true ->
  value_object t x = Ok k ->
  let q := PStr ("read key = " ++ value_text t x)%string in
  (dict_contains (new d k) d = true ->
   _query q d = _read k d /\
   exists v, _read k d = (Ok (ok [(k, v)]), d)) /\
  (dict_contains (new d k) d = false -> _query q d = (Ok (ok []), d)).
Proof.
  intros Hx Hk q. subst q.
  destruct (parse_read_key_eq_value t x k Hx Hk) as (pq & Hp & Hs).
  rewrite _query_unfold, Hp. unfold try_except.
  rewrite (run_read_key_eq pq k d Hs), _read_unfold. split.
  - intros [v ->]%dict_contains_getitem. eauto.
  - intros ->%dict_absent_getitem. reflexivity.
Qed.

Lemma query_read_key_eq_witness :
  is_literal "10" = true /\
  value_object (Some "int"%string) "10" = Ok (PInt 10) /\
  (dict_contains (new store0 (PInt 10)) store0 = true ->
   _query (PStr "read key = int ( 10 )") store0 = _read (PInt 10) store0 /\
   exists v, _read (PInt 10) store0 = (Ok (ok [(PInt 10, v)]), store0)) /\
  (dict_contains (new store0 (PInt 10)) store0 = false ->
   _query (PStr "read key = int ( 10 )") store0 = (Ok (ok []), store0)).
Proof.
  split; [reflexivity |]. split; [reflexivity |].
  exact (query_read_key_eq store0 (Some "int"%string) "10" (PInt 10)
           eq_refl eq_refl).
Defined.

(** C8, as the specification words it, fails for a present key that no
    query names.  The string "a b" is a key that [read] finds, and the
    query "read key = a b" looks up "a"; the integer 10 is a key that
    [read] finds, and the query "read key = 10" looks up the string
    "10", the type of a value that is written without one. *)
Lemma key_without_query_text :
  let d := [({| addr := 1; val := PStr "a b" |}, PInt 1)] in
  _read (PStr "a b") d = (Ok (ok [(PStr "a b", PInt 1)]), d) /\
  _query (PStr "read key = a b") d = (Ok (ok []), d) /\
  _read (PInt 10) store0 = (Ok (ok [(PInt 10, PStr "Radu-Mihai")]), store0) /\
  _query (PStr "read key = 10") store0 = (Ok (ok []), store0).
Proof. repeat split. Qed.

(** ** What the parser can return *)

Lemma MatchFirst_inv (a b : ParserElement) (l : loc)
  (x : ParseResults * loc) :
  MatchFirst a b l = Ok x -> a l = Ok x \/ b l = Ok x.
Proof. unfold MatchFirst. destruct (a l); auto. Qed.

Lemma And_inv (a b : ParserElement) (l l' : loc) (r : ParseResults) :
  And a b l = Ok (r, l') ->
  exists ra la rb,
    a (preParse l) = Ok (ra, la) /\ b la = Ok (rb, l') /\
    tokdict r = tokdict ra ++ tokdict rb.
Proof.
  unfold And.
  destruct (a (preParse l)) as [[ra la] |] eqn:Ea; [| discriminate].
  destruct (b la) as [[rb lb] |] eqn:Eb; [| discriminate].
  intros [= <- <-]. exists ra, la, rb. auto.
Qed.

Lemma named_Keyword_inv (m n : string) (l l' : loc) (r : ParseResults) :
  setResultsName (Keyword m) n l = Ok (r, l') -> tokdict r = [(n, PStr m)].
Proof.
  unfold setResultsName, Keyword.
  destruct (startswith m (text (preParse l)) (before (preParse l)))
    as [[b s] |]; [| discriminate].
  destruct (negb _ && negb _)%bool; [| discriminate].
  simpl. now intros [= <- _].
Qed.

Lemma named_Word_inv (chars : ascii -> bool) (n : string) (l l' : loc)
  (r : ParseResults) :
  setResultsName (Word chars) n l = Ok (r, l') ->
  exists w, tokdict r = [(n, PStr w)].
Proof.
  unfold setResultsName, Word.
  destruct (span chars (text (preParse l)) (before (preParse l)))
    as [[| c w] l1]; [discriminate |].
  simpl. intros [= <- _]. now exists (String c w).
Qed.

Lemma Literal_inv (m : string) (l l' : loc) (r : ParseResults) :
  Literal m l = Ok (r, l') -> tokdict r = [].
Proof.
  unfold Literal.
  destruct (startswith m (text (preParse l)) (before (preParse l)))
    as [[b s] |]; [| discriminate].
  now intros [= <- _].
Qed.

Lemma ACTION_inv (l l' : loc) (r : ParseResults) :
  ACTION l = Ok (r, l') ->
  exists a, tokdict r = [("action", PStr a)] /\ In a ["read"; "delete"]%string.
Proof.
  unfold ACTION.
  intros [H | H]%MatchFirst_inv; apply named_Keyword_inv in H;
    eexists; (split; [exact H | simpl; auto]).
Qed.

Lemma ELEMENT_inv (l l' : loc) (r : ParseResults) :
  ELEMENT l = Ok (r, l') ->
  exists e, tokdict r = [("element", PStr e)] /\ In e ["key"; "value"]%string.
Proof.
  unfold ELEMENT.
  intros [H | H]%MatchFirst_inv; apply named_Keyword_inv in H;
    eexists; (split; [exact H | simpl; auto]).
Qed.

Lemma OPERATOR_inv (l l' : loc) (r : ParseResults) :
  OPERATOR l = Ok (r, l') ->
  exists o, tokdict r = [("operator", PStr o)] /\ In o operator_names.
Proof.
  unfold OPERATOR.
  intros H. repeat (apply MatchFirst_inv in H; destruct H as [H | H]);
    apply named_Keyword_inv in H;
    eexists; (split; [exact H | simpl; auto 10]).
Qed.

Lemma VALUE_inv (l l' : loc) (r : ParseResults) :
  VALUE l = Ok (r, l') ->
  (exists v, tokdict r = [("value", PStr v)]) \/
  (exists t v, tokdict r = [("value_type", PStr t); ("value", PStr v)]).
Proof.
  unfold VALUE. intros [H | H]%MatchFirst_inv.
  - right.
    apply And_inv in H. destruct H as (r3 & l3 & rp & H3 & Hp & ->).
    apply And_inv in H3. destruct H3 as (r2 & l2 & rv & H2 & Hv & ->).
    apply And_inv in H2. destruct H2 as (r1 & l1 & ro & H1 & Ho & ->).
    apply named_Word_inv in H1, Hv. destruct H1 as [t ->], Hv as [v ->].
    apply Literal_inv in Hp, Ho. rewrite Hp, Ho. simpl. eauto.
  - left. now apply named_Word_inv in H.
Qed.

Lemma SYNTAX_inv (s : string) (pq : ParseResults) :
  parseString SYNTAX s = Ok pq ->
  exists a e o rest,
    tokdict pq = [("action", PStr a); ("element", PStr e);
                  ("operator", PStr o)] ++ rest /\
    In a ["read"; "delete"]%string /\ In e ["key"; "value"]%string /\
    In o operator_names /\
    ((exists v, rest = [("value", PStr v)]) \/
     (exists t v, rest = [("value_type", PStr t); ("value", PStr v)])).
Proof.
  unfold parseString.
  destruct (SYNTAX {| before := None; text := s |}) as [[r l'] |] eqn:E;
    [| discriminate].
  intros [= <-]. unfold SYNTAX in E.
  apply And_inv in E. destruct E as (r3 & l3 & rv & H3 & Hv & ->).
  apply And_inv in H3. destruct H3 as (r2 & l2 & ro & H2 & Ho & ->).
  apply And_inv in H2. destruct H2 as (ra & la & re & Ha & He & ->).
  apply ACTION_inv in Ha. destruct Ha as (a & -> & Ha).
  apply ELEMENT_inv in He. destruct He as (e & -> & He).
  apply OPERATOR_inv in Ho. destruct Ho as (o & -> & Ho).
  apply VALUE_inv in Hv. exists a, e, o, (tokdict rv). auto 10.
Qed.

(** What [_parse_query_string] can return: the three keywords are among
    those of the grammar, and a value is there. *)
Lemma _parse_query_string_shape (q : pyobj) (pq : ParseResults) :
  _parse_query_string q = Ok pq ->
  exists a e o v,
    parsed_as pq a e o v /\
    In a ["read"; "delete"]%string /\ In e ["key"; "value"]%string /\
    In o operator_names.
Proof.
  destruct q as [| | | | s]; try discriminate. unfold _parse_query_string.
  destruct (parseString SYNTAX s) as [pq0 |] eqn:E; [| discriminate].
  apply SYNTAX_inv in E.
  destruct E as (a & e & o & rest & Hd & Ha & He & Ho & Hrest).
  cbn [rbind]. unfold contains. rewrite !Hd.
  destruct Hrest as [[v ->] | (t & v & ->)].
  - cbn. string_eqb. cbn. intros [= <-]. exists a, e, o, (PStr v).
    unfold parsed_as. rewrite Hd. cbn. string_eqb. auto 10.
  - cbn -[_parse_value_to_type]. string_eqb. cbn -[_parse_value_to_type].
    destruct (_parse_value_to_type v t) as [k |]; [| discriminate].
    cbn. intros [= <-]. exists a, e, o, k.
    unfold parsed_as, setitem. cbn [tokdict]. rewrite Hd. cbn. string_eqb.
    cbn. string_eqb. auto 10.
Qed.

(** ** Scans never raise, and collect only entries that match *)

Lemma apply_operator_parsed (pq : ParseResults) (a e o : string)
  (v operand : pyobj) :
  parsed_as pq a e o v ->
  apply_operator pq operators operand = compare_with o operand v.
Proof.
  intros (_ & _ & Ho & Hv). unfold apply_operator, compare_with.
  rewrite Ho, Hv. cbn [rbind as_str].
  destruct (table_get operators o); reflexivity.
Qed.

Lemma swallowed_total (m : M unit) (d : dict) :
  exists d', try_except m (ret tt) d = (Ok tt, d').
Proof.
  unfold try_except, ret. destruct (m d) as [[[] | e] d']; eauto.
Qed.

Section Scan.

Variable query_action : option (object -> M unit).
Variable pq : ParseResults.
Variable operand : object * pyobj -> pyobj.

Lemma scan_entry_sound (entry : object * pyobj)
  (matches : list (pyobj * pyobj)) (d : dict) :
  exists d',
    scan_entry query_action pq operators (operand entry) entry matches d
    = (Ok (if matching pq operand entry then matches ++ [item entry]
           else matches), d').
Proof.
  unfold scan_entry, matching.
  destruct (apply_operator pq operators (operand entry)) as [[|] | e];
    [| unfold ret; eauto ..].
  unfold bind.
  destruct (swallowed_total (call_action query_action (fst entry)) d)
    as [d' ->]. unfold ret. eauto.
Qed.

Lemma scan_sound (entries : list (object * pyobj)) :
  forall (matches : list (pyobj * pyobj)) (d : dict),
  exists m d',
    scan (fun entry =>
            scan_entry query_action pq operators (operand entry) entry)
      entries matches d = (Ok m, d') /\
    forall x, In x m ->
              In x matches \/
              exists entry,
                In entry entries /\ x = item entry /\
                apply_operator pq operators (operand entry) = Ok true.
Proof.
  induction entries as [| entry entries IH]; intros matches d.
  - exists matches, d. split; [reflexivity | auto].
  - cbn [scan]. unfold bind at 1.
    destruct (scan_entry_sound entry matches d) as [d1 ->].
    destruct (IH (if matching pq operand entry then matches ++ [item entry]
                  else matches) d1)
      as (m & d' & -> & Hm).
    exists m, d'. split; [reflexivity |].
    intros x Hx. destruct (Hm x Hx) as [H | (y & H1 & H2 & H3)].
    + unfold matching in H.
      destruct (apply_operator pq operators (operand entry))
        as [[|] | e] eqn:E; auto.
      apply in_app_or in H. destruct H as [H | [<- | []]]; auto.
      right. exists entry. repeat split; [now left | exact E].
    + right. exists y. repeat split; [now right | exact H2 | exact H3].
Qed.

End Scan.

Lemma run_parsed_scan (pq : ParseResults) (a e o : string) (v : pyobj)
  (d : dict) :
  parsed_as pq a e o v ->
  In a ["read"; "delete"]%string ->
  is_scan e o = true ->
  exists matches d',
    run_parsed pq d = (Ok (ok matches), d') /\
    forall x, In x matches ->
              In x (items d) /\ compare_with o (operand_of e x) v = Ok true.
Proof.
  intros Hp Ha Hs. pose proof Hp as (Hpa & Hpe & Hpo & Hpv).
  unfold run_parsed, bind at 1 2 3 4, lift. rewrite Hpa, Hpe.
  cbn [rbind as_str].
  assert (Hqa : exists qa,
             table_get [("read"%string, None);
                        ("delete"%string, Some _delete_from_query)] a
             = Ok qa).
  { destruct Ha as [<- | [<- | []]]; cbn; string_eqb; eauto. }
  destruct Hqa as [qa ->]. cbv beta iota.
  unfold is_scan in Hs. apply orb_prop in Hs.
  destruct Hs as [He%String.eqb_eq | [He%String.eqb_eq Ho]%andb_prop].
  - subst e. cbn [table_get]. string_eqb. cbv beta iota.
    unfold bind, _execute_query_by_value, bind, self_data_copy_items.
    destruct (scan_sound qa pq snd d [] d) as (m & d' & -> & Hm).
    exists m, d'. split; [reflexivity |].
    intros x Hx. destruct (Hm x Hx) as [[] | (y & H1 & -> & H2)].
    split; [now apply in_map |].
    now rewrite <- (apply_operator_parsed pq a "value" o v _ Hp).
  - subst e. cbn [table_get]. string_eqb. cbv beta iota.
    unfold bind, _execute_query_by_key, bind, lift. rewrite Hpo.
    change (py_eq (PStr o) (PStr "=")) with (String.eqb o "=").
    apply negb_true_iff in Ho. rewrite Ho. unfold self_data_copy_items.
    destruct (scan_sound qa pq (fun entry => val (fst entry)) d [] d)
      as (m & d' & -> & Hm).
    exists m, d'. split; [reflexivity |].
    intros x Hx. destruct (Hm x Hx) as [[] | (y & H1 & -> & H2)].
    split; [now apply in_map |].
    now rewrite <- (apply_operator_parsed pq a "key" o v _ Hp).
Qed.

Lemma run_parsed_key_eq (pq : ParseResults) (a : string) (v : pyobj)
  (d : dict) :
  parsed_as pq a "key" "=" v ->
  In a ["read"; "delete"]%string ->
  exists matches d', run_parsed pq d = (Ok (ok matches), d').
Proof.
  intros (Hpa & Hpe & Hpo & Hpv) Ha.
  unfold run_parsed, bind at 1 2 3 4, lift. rewrite Hpa, Hpe.
  cbn [rbind as_str].
  assert (Hqa : exists qa,
             table_get [("read"%string, None);
                        ("delete"%string, Some _delete_from_query)] a
             = Ok qa).
  { destruct Ha as [<- | [<- | []]]; cbn; string_eqb; eauto. }
  destruct Hqa as [qa ->]. cbv beta iota.
  cbn [table_get]. string_eqb. cbv beta iota.
  unfold bind, _execute_query_by_key, bind, lift. rewrite Hpo.
  change (py_eq (PStr "=") (PStr "=")) with true. cbv beta iota.
  unfold try_except at 1, bind, lift, new_object, self_data_getitem.
  rewrite Hpv.
  destruct (dict_getitem (new d v) d) as [x |]; [| unfold ret; eauto].
  destruct (swallowed_total (call_action qa (new d v)) d) as [d' ->].
  unfold ret. eauto.
Qed.

(** A string that is parsed is run to a success. *)
Lemma run_parsed_total (q : pyobj) (pq : ParseResults) (d : dict) :
  _parse_query_string q = Ok pq ->
  exists matches d', run_parsed pq d = (Ok (ok matches), d').
Proof.
  intros H. apply _parse_query_string_shape in H.
  destruct H as (a & e & o & v & Hp & Ha & He & Ho).
  destruct (is_scan e o) eqn:Es.
  - destruct (run_parsed_scan pq a e o v d Hp Ha Es) as (m & d' & H & _).
    eauto.
  - assert (e = "key"%string /\ o = "="%string) as [-> ->].
    { unfold is_scan in Es. destruct He as [<- | [<- | []]].
      - revert Es. string_eqb. cbn.
        destruct (String.eqb_spec o "="); [auto | discriminate].
      - revert Es. string_eqb. discriminate. }
    now apply (run_parsed_key_eq pq a v d).
Qed.

(** Operands of kinds that an operator cannot compare. *)
Lemma ordering_str_number_raises (o s : string) (a : pyobj) :
  In o ["<"; ">"; "<="; ">="]%string ->
  as_real a <> None ->
  compare_with o a (PStr s) = Raise TypeError /\
  compare_with o (PStr s) a = Raise TypeError.
Proof.
  intros Ho Ha. unfold compare_with.
  destruct Ho as [<- | [<- | [<- | [<- | []]]]]; cbn [operators table_get];
    string_eqb; cbn [rbind];
    unfold operator.lt, operator.gt, operator.le, operator.ge, py_order;
    destruct a; simpl in *; try congruence; auto.
Qed.

Lemma contains_non_str_raises (a v : pyobj) :
  (forall s, a <> PStr s) ->
  compare_with "contains" a v = Raise TypeError.
Proof.
  intros Ha. unfold compare_with. cbn [operators table_get]. string_eqb.
  cbn [rbind]. unfold operator.contains, py_in.
  destruct a; try reflexivity. now destruct (Ha s).
Qed.

(** C6.  In a scan (by value, or by key with an operator other than
    "="), an entry on whose operand the operator raises (kinds that do
    not compare, or a test of containment in an object that is no
    container) is not among the matches, and the query succeeds. *)
Theorem scan_skips_incompatible (q : pyobj) (pq : ParseResults)
  (e o : string) (v : pyobj) (d : dict) (entry : pyobj * pyobj) (x : exn) :
  _parse_query_string q = Ok pq ->
  getitem "element" (tokdict pq) = Ok (PStr e) ->
  getitem "operator" (tokdict pq) = Ok (PStr o) ->
  getitem "value" (tokdict pq) = Ok v ->
  is_scan e o = true ->
  In entry (items d) ->
  compare_with o (operand_of e entry) v = Raise x ->
  exists matches d',
    _query q d = (Ok (ok matches), d') /\ ~ In entry matches.
Proof.
  intros Hq He Ho Hv Hs Hin Hx.
  destruct (_parse_query_string_shape q pq Hq)
    as (a & e' & o' & v' & Hp & Ha & _ & _).
  pose proof Hp as (_ & He' & Ho' & Hv').
  rewrite He in He'. rewrite Ho in Ho'. rewrite Hv in Hv'.
  injection He' as <-. injection Ho' as <-. injection Hv' as <-.
  destruct (run_parsed_scan pq a e o v d Hp Ha Hs) as (m & d' & Hr & Hm).
  exists m, d'. split.
  - rewrite _query_unfold, Hq. unfold try_except. now rewrite Hr.
  - intros H. apply Hm in H. destruct H as [_ H]. congruence.
Qed.

Lemma scan_skips_incompatible_witness :
  let q := PStr "read key > int ( 5 )" in
  let pq := {| toklist := ["read"; "key"; ">"; "int"; "("; "5"; ")"]%string;
               tokdict := [ ("action", PStr "read");
                            ("element", PStr "key");
                            ("operator", PStr ">");
                            ("value_type", PStr "int");
                            ("value", PInt 5) ]%string |} in
  let entry := (PStr "1a2b3c", PStr "John") in
  _parse_query_string q = Ok pq /\
  is_scan "key" ">" = true /\
  In entry (items store0) /\
  compare_with ">" (operand_of "key" entry) (PInt 5) = Raise TypeError /\
  exists matches d',
    _query q store0 = (Ok (ok matches), d') /\ ~ In entry matches.
Proof.
  intros q pq entry.
  split; [reflexivity |]. split; [reflexivity |].
  split; [now left |]. split; [reflexivity |].
  apply (scan_skips_incompatible q pq "key" ">" (PInt 5) store0 entry
           TypeError); try reflexivity.
  now left.
Defined.

(** ** The invariant of the store is kept *)

Lemma keeps_wf_ret {A} (a : A) : keeps_wf (ret a).
Proof. now intros d. Qed.

Lemma keeps_wf_lift {A} (r : result A) : keeps_wf (lift r).
Proof. now intros d. Qed.

Lemma keeps_wf_bind {A B} (m : M A) (k : A -> M B) :
  keeps_wf m -> (forall a, keeps_wf (k a)) -> keeps_wf (bind m k).
Proof.
  intros Hm Hk d Hd. unfold bind. specialize (Hm d Hd).
  destruct (m d) as [[a | e] d']; [now apply Hk | exact Hm].
Qed.

Lemma keeps_wf_try_except {A} (body handler : M A) :
  keeps_wf body -> keeps_wf handler -> keeps_wf (try_except body handler).
Proof.
  intros Hb Hh d Hd. unfold try_except. specialize (Hb d Hd).
  destruct (body d) as [[a | e] d']; [exact Hb | now apply Hh].
Qed.

Lemma keeps_wf_getitem (k : object) : keeps_wf (self_data_getitem k).
Proof. now intros d. Qed.

Lemma keeps_wf_new_object (v : pyobj) : keeps_wf (new_object v).
Proof. now intros d. Qed.

Lemma keeps_wf_setitem (k : object) (v : pyobj) :
  keeps_wf (self_data_setitem k v).
Proof. intros d Hd. now apply dict_wf_setitem. Qed.

Lemma keeps_wf_delitem (k : object) : keeps_wf (self_data_delitem k).
Proof.
  intros d Hd. unfold self_data_delitem.
  destruct (dict_delitem k d) as [d' |] eqn:E; [| exact Hd].
  now apply (dict_wf_delitem k d).
Qed.

Create HintDb keeps.

#[local] Hint Resolve keeps_wf_ret keeps_wf_lift keeps_wf_getitem
  keeps_wf_new_object keeps_wf_setitem keeps_wf_delitem keeps_wf_bind
  keeps_wf_try_except : keeps.

Lemma keeps_wf_read (k : pyobj) : keeps_wf (_read k).
Proof. unfold _read, _send_error. auto 10 with keeps. Qed.

Lemma keeps_wf_add (k v : pyobj) : keeps_wf (_add k v).
Proof. unfold _add, _send_error. auto 10 with keeps. Qed.

Lemma keeps_wf_delete (k : pyobj) : keeps_wf (_delete k).
Proof. unfold _delete, _send_error. auto 10 with keeps. Qed.

Lemma keeps_wf_call_action (a : string)
  (query_action : option (object -> M unit)) (k : object) :
  table_get [("read"%string, None);
             ("delete"%string, Some _delete_from_query)] a
  = Ok query_action ->
  keeps_wf (call_action query_action k).
Proof.
  cbn [table_get]. destruct (String.eqb "read" a).
  - intros [= <-]. now intros d.
  - destruct (String.eqb "delete" a); [| discriminate].
    intros [= <-]. apply keeps_wf_delitem.
Qed.

Lemma keeps_wf_scan (query_action : option (object -> M unit))
  (pq : ParseResults) (operand : object * pyobj -> pyobj)
  (items : list (object * pyobj)) :
  (forall k, keeps_wf (call_action query_action k)) ->
  forall matches,
    keeps_wf (scan (fun entry =>
                      scan_entry query_action pq operators (operand entry)
                        entry) items matches).
Proof.
  intros Hqa. induction items as [| entry items IH]; intros matches.
  - apply keeps_wf_ret.
  - cbn [scan]. apply keeps_wf_bind; [| intro; apply IH].
    unfold scan_entry.
    destruct (apply_operator pq operators (operand entry)) as [[|] | e];
      auto 10 with keeps.
Qed.

Lemma keeps_wf_query (q : pyobj) : keeps_wf (_query q).
Proof.
  intros d Hd. rewrite _query_unfold.
  destruct (_parse_query_string q) as [pq |]; [| exact Hd].
  revert d Hd. change (keeps_wf (try_except (run_parsed pq)
                                   (_send_error "Invalid query syntax."))).
  unfold run_parsed, _send_error.
  apply keeps_wf_try_except; [| auto 10 with keeps].
  apply keeps_wf_bind; [auto 10 with keeps | intros a].
  unfold lift at 1. intros d Hd. unfold bind at 1.
  destruct (table_get _ a) as [qa |] eqn:Eqa; [| exact Hd].
  pose proof (fun k => keeps_wf_call_action a qa k Eqa) as Hqa.
  revert d Hd.
  match goal with |- forall d, dict_wf d -> dict_wf (snd (?m d)) =>
    change (keeps_wf m) end.
  apply keeps_wf_bind; [auto 10 with keeps | intros e].
  unfold lift at 1. intros d Hd. unfold bind at 1. cbn [table_get].
  destruct (String.eqb "key" e);
    [| destruct (String.eqb "value" e); [| exact Hd]].
  - revert d Hd.
    match goal with |- forall d, dict_wf d -> dict_wf (snd (?m d)) =>
      change (keeps_wf m) end.
    apply keeps_wf_bind; [| auto 10 with keeps]. unfold _execute_query_by_key.
    apply keeps_wf_bind; [auto 10 with keeps | intros o].
    destruct (py_eq o (PStr "=")).
    + auto 10 with keeps.
    + apply keeps_wf_bind; [now intros d' | intros items].
      now apply keeps_wf_scan.
  - revert d Hd.
    match goal with |- forall d, dict_wf d -> dict_wf (snd (?m d)) =>
      change (keeps_wf m) end.
    apply keeps_wf_bind; [| auto 10 with keeps]. unfold _execute_query_by_value.
    apply keeps_wf_bind; [now intros d' | intros items].
    now apply keeps_wf_scan.
Qed.

(** Every request leaves a dictionary whose keys are pairwise
    distinct, answered or not. *)
Lemma keeps_wf_dispatch (r : Request) : keeps_wf (dispatch r).
Proof.
  unfold dispatch. cbn [get].
  repeat match goal with
         | |- context [py_eq ?a ?b] => destruct (py_eq a b)
         end;
    cbn [call];
    auto using keeps_wf_read, keeps_wf_add, keeps_wf_delete, keeps_wf_query.
  - unfold _send_error. auto 10 with keeps.
  - now intros d.
Qed.

Lemma dispatch_by_type (r : Request) (d : dict) :
  (request_type r = PInt 0 -> dispatch r d = _read (key r) d) /\
  (request_type r = PInt 1 -> dispatch r d = _add (key r) (value r) d) /\
  (request_type r = PInt 2 -> dispatch r d = _delete (key r) d) /\
  (request_type r = PInt 3 -> dispatch r d = _query (query r) d).
Proof. unfold dispatch. repeat split; intros ->; reflexivity. Qed.

(** ** Keywords out of place *)

Lemma startswith_spec (m s : string) :
  forall b b' u, startswith m s b = Some (b', u) ->
                 s = (m ++ u)%string /\ b' = last_char m b.
Proof.
  revert s. induction m as [| a m IH]; intros s b b' u; simpl.
  - now intros [= <- <-].
  - destruct s as [| c s]; [discriminate |].
    destruct (Ascii.eqb_spec a c) as [<- |]; [| discriminate].
    intros H. apply IH in H. destruct H as [-> ->]. auto.
Qed.

Lemma skip_white_no_blank_first (b : option ascii) (s : string) :
  blank_first s = false -> skip_white b s = {| before := b; text := s |}.
Proof.
  destruct s as [| c s]; [reflexivity |]. unfold blank_first. simpl.
  now intros ->.
Qed.

Lemma tokens_skip_white (s : string) :
  forall b, Spec.tokens (text (skip_white b s)) = Spec.tokens s.
Proof.
  induction s as [| c s IH]; intros b; [reflexivity |].
  cbn [skip_white Spec.tokens].
  destruct (DEFAULT_WHITE_CHARS c) eqn:E; [apply IH |].
  cbn [text Spec.tokens]. now rewrite E.
Qed.

Lemma tokens_word (m : string) (u : string) :
  m <> EmptyString -> no_blank m = true -> blank_first u = true ->
  Spec.tokens (m ++ u) = m :: Spec.tokens u.
Proof.
  intros Hm Hn Hu. destruct u as [| c u]; [discriminate |].
  unfold blank_first in Hu. simpl in Hu.
  induction m as [| a m IH]; [congruence |].
  simpl in Hn. apply andb_prop in Hn. destruct Hn as [Ha%negb_true_iff Hn].
  destruct m as [| a' m].
  - cbn [append Spec.tokens]. now rewrite Ha, Hu.
  - assert (Ha' : DEFAULT_WHITE_CHARS a' = false).
    { simpl in Hn. apply andb_prop in Hn. now destruct Hn as [?%negb_true_iff _]. }
    change (Spec.tokens (String a (String a' m) ++ String c u))
      with (if DEFAULT_WHITE_CHARS a
            then Spec.tokens (String a' m ++ String c u)
            else if DEFAULT_WHITE_CHARS a'
                 then [String a EmptyString]
                        ++ Spec.tokens (String a' m ++ String c u)
                 else match Spec.tokens (String a' m ++ String c u) with
                      | t :: ts => String a t :: ts
                      | [] => [String a EmptyString]
                      end).
    rewrite Ha, Ha', (IH ltac:(discriminate) Hn). reflexivity.
Qed.

Lemma prefix_nil (s : string) : prefix "" s = true.
Proof. now destruct s. Qed.

Lemma tokens_prefix (m : string) (u : string) :
  m <> EmptyString -> no_blank m = true ->
  exists t ts, Spec.tokens (m ++ u) = t :: ts /\ prefix m t = true.
Proof.
  intros Hm Hn. induction m as [| a m IH]; [congruence |].
  simpl in Hn. apply andb_prop in Hn. destruct Hn as [Ha%negb_true_iff Hn].
  assert (Haa : forall t, prefix (String a m) (String a t) = prefix m t).
  { intros t. cbn [prefix]. destruct (ascii_dec a a); [reflexivity | congruence]. }
  destruct m as [| a' m].
  - cbn [append Spec.tokens]. rewrite Ha.
    assert (Hp : forall t, prefix (String a "") (String a t) = true)
      by (intros t; rewrite Haa; apply prefix_nil).
    destruct u as [| c u]; [eexists _, _; split; [reflexivity | apply Hp] |].
    destruct (DEFAULT_WHITE_CHARS c);
      [eexists _, _; split; [reflexivity | apply Hp] |].
    destruct (Spec.tokens (String c u));
      eexists _, _; (split; [reflexivity | apply Hp]).
  - assert (Ha' : DEFAULT_WHITE_CHARS a' = false).
    { simpl in Hn. apply andb_prop in Hn. now destruct Hn as [?%negb_true_iff _]. }
    destruct (IH ltac:(discriminate) Hn) as (t & ts & Ht & Hp).
    change (Spec.tokens (String a (String a' m) ++ u))
      with (if DEFAULT_WHITE_CHARS a
            then Spec.tokens (String a' m ++ u)
            else if DEFAULT_WHITE_CHARS a'
                 then [String a EmptyString] ++ Spec.tokens (String a' m ++ u)
                 else match Spec.tokens (String a' m ++ u) with
                      | t :: ts => String a t :: ts
                      | [] => [String a EmptyString]
                      end).
    rewrite Ha, Ha', Ht. exists (String a t), ts. split; [reflexivity |].
    now rewrite Haa.
Qed.

(** A keyword that matched: the text it stood at the head of, and the
    location it leaves. *)
Lemma Keyword_ok (m : string) (l l' : loc) (r : ParseResults) :
  Keyword m l = Ok (r, l') ->
  exists u,
    text (preParse l) = (m ++ u)%string /\
    l' = {| before := last_char m (before (preParse l)); text := u |} /\
    char_in DEFAULT_KEYWORD_CHARS (before (preParse l)) = false.
Proof.
  unfold Keyword.
  destruct (startswith m (text (preParse l)) (before (preParse l)))
    as [[b u] |] eqn:E; [| discriminate].
  apply startswith_spec in E. destruct E as [E ->].
  destruct (char_in DEFAULT_KEYWORD_CHARS (before (preParse l)));
    [rewrite andb_false_r; discriminate |].
  destruct (negb _ && negb _)%bool; [| discriminate].
  intros [= _ <-]. eauto.
Qed.

Lemma setResultsName_loc (e : ParserElement) (n : string) (l l' : loc)
  (r : ParseResults) :
  setResultsName e n l = Ok (r, l') -> exists r0, e l = Ok (r0, l').
Proof.
  unfold setResultsName. destruct (e l) as [[r0 l0] |]; [| discriminate].
  destruct (rev (toklist r0)); intros [= _ <-]; eauto.
Qed.

Lemma ACTION_keyword (l l' : loc) (r : ParseResults) :
  ACTION l = Ok (r, l') -> keyword_matched ["read"; "delete"]%string l l'.
Proof.
  unfold ACTION.
  intros [H | H]%MatchFirst_inv; apply setResultsName_loc in H;
    destruct H as [r0 H]; eexists _, r0; (split; [| exact H]); simpl; auto.
Qed.

Lemma ELEMENT_keyword (l l' : loc) (r : ParseResults) :
  ELEMENT l = Ok (r, l') -> keyword_matched ["key"; "value"]%string l l'.
Proof.
  unfold ELEMENT.
  intros [H | H]%MatchFirst_inv; apply setResultsName_loc in H;
    destruct H as [r0 H]; eexists _, r0; (split; [| exact H]); simpl; auto.
Qed.

Lemma OPERATOR_keyword (l l' : loc) (r : ParseResults) :
  OPERATOR l = Ok (r, l') -> keyword_matched operator_names l l'.
Proof.
  unfold OPERATOR. intros H.
  repeat (apply MatchFirst_inv in H; destruct H as [H | H]);
    apply setResultsName_loc in H; destruct H as [r0 H];
    eexists _, r0; (split; [| exact H]); simpl; auto 10.
Qed.

(** After a keyword that ends in a keyword character, a second keyword
    matches only across a blank. *)
Lemma keyword_needs_blank (ms : list string) (b : ascii) (u : string)
  (l' : loc) :
  DEFAULT_KEYWORD_CHARS b = true ->
  keyword_matched ms {| before := Some b; text := u |} l' ->
  blank_first u = true.
Proof.
  intros Hb (m & r & _ & H). apply Keyword_ok in H.
  destruct H as (u' & _ & _ & Hc).
  destruct (blank_first u) eqn:E; [reflexivity |].
  unfold preParse in Hc. cbn [before text] in Hc.
  rewrite (skip_white_no_blank_first _ _ E) in Hc. simpl in Hc. congruence.
Qed.

Lemma tokens_after_keyword (ms : list string) (l l' : loc) :
  Forall (fun m => m <> EmptyString /\ no_blank m = true) ms ->
  keyword_matched ms l l' ->
  exists m,
    In m ms /\ before l' = last_char m (before (preParse l)) /\
    (blank_first (text l') = true ->
     Spec.tokens (text l) = m :: Spec.tokens (text l')) /\
    exists t ts, Spec.tokens (text l) = t :: ts /\ prefix m t = true.
Proof.
  intros Hms (m & r & Hin & H). apply Keyword_ok in H.
  destruct H as (u & Hu & -> & _).
  rewrite Forall_forall in Hms. destruct (Hms m Hin) as [Hne Hnb].
  assert (Ht : Spec.tokens (text l) = Spec.tokens (m ++ u)%string).
  { rewrite <- Hu. unfold preParse. now rewrite tokens_skip_white. }
  exists m. cbn [before text]. repeat split; [exact Hin | |].
  - intros Hb. rewrite Ht. now apply tokens_word.
  - rewrite Ht. now apply tokens_prefix.
Qed.

Lemma prefix_operator (o t : string) :
  In o operator_names -> prefix o t = true -> starts_with_operator t = true.
Proof.
  unfold starts_with_operator.
  intros [<- | [<- | [<- | [<- | [<- | [<- | []]]]]]] H;
    try (rewrite H; now rewrite ?orb_true_r).
  - destruct t as [| c t]; [discriminate H |]. revert H. cbn [prefix].
    destruct (ascii_dec "<" c); [| discriminate]. now rewrite prefix_nil.
  - destruct t as [| c t]; [discriminate H |]. revert H. cbn [prefix].
    destruct (ascii_dec ">" c); [| discriminate].
    rewrite prefix_nil. now rewrite ?orb_true_r.
Qed.

(** A string that [SYNTAX] matches has its keywords in place. *)
Lemma SYNTAX_keywords (s : string) (pq : ParseResults) :
  parseString SYNTAX s = Ok pq -> keywords_in_place s = true.
Proof.
  unfold parseString.
  destruct (SYNTAX {| before := None; text := s |}) as [[r l'] |] eqn:E;
    [| discriminate].
  intros _. unfold SYNTAX in E.
  apply And_inv in E. destruct E as (r3 & l3 & rv & H3 & _ & _).
  apply And_inv in H3. destruct H3 as (r2 & l2 & ro & H2 & Ho & _).
  apply And_inv in H2. destruct H2 as (ra & la & re & Ha & He & _).
  rewrite !preParse_idem in Ha.
  apply ACTION_keyword in Ha. apply ELEMENT_keyword in He.
  apply OPERATOR_keyword in Ho.
  apply tokens_after_keyword in Ha;
    [| keywords_are_words].
  destruct Ha as (a & Hina & Hba & Hta & _).
  assert (Hs : Spec.tokens s = Spec.tokens (text (preParse
                 {| before := None; text := s |})))
    by (unfold preParse; now rewrite tokens_skip_white).
  assert (Hda : exists b, before la = Some b /\ DEFAULT_KEYWORD_CHARS b = true).
  { rewrite Hba. destruct Hina as [<- | [<- | []]]; eexists; split;
      reflexivity. }
  destruct Hda as (ba & Hda & Hka). clear Hba. destruct la as [bla ula].
  cbn [before text] in *. subst bla.
  pose proof (keyword_needs_blank _ ba ula l2 Hka He) as Hblank.
  apply tokens_after_keyword in He;
    [| keywords_are_words].
  destruct He as (e & Hine & Hbe & Hte & _). cbn [before text] in *.
  assert (Hde : exists b, before l2 = Some b /\ DEFAULT_KEYWORD_CHARS b = true).
  { rewrite Hbe. destruct Hine as [<- | [<- | []]]; eexists; split;
      reflexivity. }
  destruct Hde as (be & Hde & Hke). clear Hbe. destruct l2 as [bl2 ul2].
  cbn [before text] in *. subst bl2.
  pose proof (keyword_needs_blank _ be ul2 l3 Hke Ho) as Hblank2.
  apply tokens_after_keyword in Ho;
    [| keywords_are_words].
  destruct Ho as (o & Hino & _ & _ & t & ts & Ht & Hp). cbn [text] in Ht.
  unfold keywords_in_place.
  rewrite Hs, (Hta Hblank), (Hte Hblank2), Ht.
  rewrite (prefix_operator o t Hino Hp), andb_true_r.
  apply andb_true_intro. split.
  - destruct Hina as [<- | [<- | []]]; reflexivity.
  - destruct Hine as [<- | [<- | []]]; reflexivity.
Qed.

Lemma keywords_out_of_place_rejected (s : string) :
  keywords_in_place s = false -> rejects (PStr s) = true.
Proof.
  intros H. unfold rejects.
  destruct (parseString SYNTAX s) as [pq |] eqn:E; [| reflexivity].
  apply SYNTAX_keywords in E. congruence.
Qed.

(** ** Queries that are turned down *)

Lemma rejects_spec (q : pyobj) :
  if rejects q then exists e, _parse_query_string q = Raise e
  else exists pq, _parse_query_string q = Ok pq.
Proof.
  destruct q as [| | | | s]; try (simpl; eauto; fail).
  unfold rejects, _parse_query_string.
  destruct (parseString SYNTAX s) as [pq0 |] eqn:E; [| simpl; eauto].
  apply SYNTAX_inv in E.
  destruct E as (a & e & o & rest & Hd & _ & _ & _ & Hrest).
  cbn [rbind]. unfold contains. rewrite !Hd.
  destruct Hrest as [[v ->] | (t & v & ->)].
  - cbn. string_eqb. cbn. eauto.
  - cbn -[_parse_value_to_type]. string_eqb. cbn -[_parse_value_to_type].
    destruct (_parse_value_to_type v t) as [k |]; cbn; eauto.
Qed.

(** The query operation answers "Invalid query syntax." with no data,
    and leaves the store alone, on every string that
    [_parse_query_string] raises on; every other string is run and
    answered with a success.  A string whose first three tokens are not
    an action, an element and a token that begins with an operator is
    among the former. *)
Lemma _query_turns_down (q : pyobj) (d : dict) :
  (rejects q = true ->
   _query q d = (Ok (failure "Invalid query syntax."), d)) /\
  (rejects q = false ->
   exists matches d', _query q d = (Ok (ok matches), d')) /\
  (forall s, q = PStr s -> keywords_in_place s = false -> rejects q = true).
Proof.
  pose proof (rejects_spec q) as H. rewrite _query_unfold.
  split; [| split].
  - intros Hr. rewrite Hr in H. destruct H as [e ->]. reflexivity.
  - intros Hr. rewrite Hr in H. destruct H as [pq Hq]. rewrite Hq.
    destruct (run_parsed_total q pq d Hq) as (m & d' & Hm).
    exists m, d'. unfold try_except. now rewrite Hm.
  - intros s ->. apply keywords_out_of_place_rejected.
Qed.

(** The deviations the docstring of [_parse_query_string] rules out and
    [parseString] finds: a wrong keyword, a missing value, a type that
    is not known, a literal that does not convert. *)
Lemma deviations_turned_down :
  Forall (fun s => Spec.conforms s = false /\
                   _query (PStr s) store0
                   = (Ok (failure "Invalid query syntax."), store0))
    [ "read something > int ( 5 )"; "fetch key = a"; "read key ~ a";
      "read key ="; "read key"; "";
      "read key = list ( 1 )"; "read key = int ( abc )" ].
Proof. repeat constructor. Qed.

(** C2 (the code at the failing input).  "read key = a b" has five
    tokens and "read key = int ( 10" does not close its parenthesis;
    neither is of a form of the grammar, and each is run and answered
    with a success: [parseString] matches at the start of the string and
    does not look at what follows the value, which is [a] in the first
    and, the typed form failing, the word [int] in the second. *)
Theorem extra_token_is_accepted :
  Spec.conforms "read key = a b" = false /\
  _query (PStr "read key = a b") store0 = (Ok (ok []), store0) /\
  Spec.conforms "read key = int ( 10" = false /\
  _query (PStr "read key = int ( 10") store0 = (Ok (ok []), store0) /\
  _query (PStr "read key = int ( 10 )") store0
  = (Ok (ok [(PInt 10, PStr "Radu-Mihai")]), store0).
Proof. repeat split; reflexivity. Qed.

(* ================================================================== *)
(** * Further properties *)
(* ================================================================== *)

(** ** Matching of keys is an equivalence

    [1], [1.0] and [1+0j] are one key; so a probe that matches a stored
    key matches no other stored key. *)

Lemma xeq_fin_scaled (m1 e1 m2 e2 E : Z) :
  E <= Z.min e1 e2 ->
  xeq (XFin m1 e1) (XFin m2 e2) = true <->
  m1 * 2 ^ (e1 - E) = m2 * 2 ^ (e2 - E).
Proof.
  intros HE. unfold xeq, xcompare.
  set (e := Z.min e1 e2) in *.
  assert (H1 : 2 ^ (e1 - E) = 2 ^ (e1 - e) * 2 ^ (e - E))
    by (rewrite <- Z.pow_add_r by lia; f_equal; lia).
  assert (H2 : 2 ^ (e2 - E) = 2 ^ (e2 - e) * 2 ^ (e - E))
    by (rewrite <- Z.pow_add_r by lia; f_equal; lia).
  assert (Hp : 2 ^ (e - E) <> 0) by (apply Z.pow_nonzero; lia).
  rewrite H1, H2, !Z.mul_assoc.
  destruct (Z.compare_spec (m1 * 2 ^ (e1 - e)) (m2 * 2 ^ (e2 - e)))
    as [Heq | Hlt | Hgt].
  - split; [intros _; now rewrite Heq | reflexivity].
  - split; [discriminate | intros H%Z.mul_cancel_r; [lia | exact Hp]].
  - split; [discriminate | intros H%Z.mul_cancel_r; [lia | exact Hp]].
Qed.

Lemma xeq_sym (a b : xnum) : xeq a b = xeq b a.
Proof.
  destruct a as [| s1 | m1 e1], b as [| s2 | m2 e2];
    try (unfold xeq, xcompare;
         repeat match goal with s : bool |- _ => destruct s end;
         reflexivity).
  apply eq_true_iff_eq.
  rewrite (xeq_fin_scaled m1 e1 m2 e2 (Z.min e1 e2)) by lia.
  rewrite (xeq_fin_scaled m2 e2 m1 e1 (Z.min e1 e2)) by lia.
  split; intros H; now symmetry.
Qed.

Lemma xeq_trans (a b c : xnum) :
  xeq a b = true -> xeq b c = true -> xeq a c = true.
Proof.
  destruct a as [| s1 | m1 e1], b as [| s2 | m2 e2], c as [| s3 | m3 e3];
    try (unfold xeq, xcompare;
         repeat match goal with s : bool |- _ => destruct s end;
         (discriminate || auto); fail).
  set (E := Z.min e1 (Z.min e2 e3)).
  rewrite (xeq_fin_scaled m1 e1 m2 e2 E), (xeq_fin_scaled m2 e2 m3 e3 E),
    (xeq_fin_scaled m1 e1 m3 e3 E) by (subst E; lia).
  congruence.
Qed.

Lemma py_eq_sym (a b : pyobj) : py_eq a b = py_eq b a.
Proof.
  destruct a, b; try reflexivity; unfold py_eq; cbn [as_complex];
    rewrite ?(xeq_sym (XFin 0 0)); try (now rewrite xeq_sym);
    try (rewrite xeq_sym; f_equal; apply xeq_sym).
  apply String.eqb_sym.
Qed.

Lemma py_eq_numbers (a b : pyobj) :
  py_eq a b = true ->
  (a = PNone /\ b = PNone) \/
  (exists s, a = PStr s /\ b = PStr s) \/
  (exists r1 i1 r2 i2,
     as_complex a = Some (r1, i1) /\ as_complex b = Some (r2, i2) /\
     xeq r1 r2 = true /\ xeq i1 i2 = true).
Proof.
  destruct a, b; unfold py_eq; cbn [as_complex]; try discriminate; auto;
    try (intros [H1 H2]%andb_prop; right; right; eauto 10).
  intros H%String.eqb_eq. subst. eauto.
Qed.

Lemma py_eq_trans (a b c : pyobj) :
  py_eq a b = true -> py_eq b c = true -> py_eq a c = true.
Proof.
  intros Hab Hbc.
  destruct (py_eq_numbers a b Hab)
    as [[-> ->] | [(s & -> & ->) | (r1 & i1 & r2 & i2 & Ha & Hb & Hr & Hi)]];
    [exact Hbc | exact Hbc |].
  destruct (py_eq_numbers b c Hbc)
    as [[-> _] | [(s & -> & _) | (r2' & i2' & r3 & i3 & Hb' & Hc & Hr' & Hi')]];
    [discriminate | discriminate |].
  rewrite Hb in Hb'. injection Hb' as <- <-.
  assert (Hx : xeq r1 r3 && xeq i1 i3 = true)
    by (rewrite (xeq_trans r1 r2 r3), (xeq_trans i1 i2 i3); auto).
  destruct a, c; try discriminate; unfold py_eq; rewrite Ha, Hc; exact Hx.
Qed.

Lemma sf_same_eq (f g : spec_float) : sf_same f g = true -> f = g.
Proof.
  destruct f, g; simpl; try discriminate; auto.
  - now intros ->%Bool.eqb_prop.
  - now intros ->%Bool.eqb_prop.
  - intros [[->%Bool.eqb_prop ->%Pos.eqb_eq]%andb_prop ->%Z.eqb_eq]%andb_prop.
    reflexivity.
Qed.

Lemma same_value_eq (a b : pyobj) : same_value a b = true -> a = b.
Proof.
  destruct a, b; simpl; try discriminate; auto.
  - now intros ->%Z.eqb_eq.
  - now intros ->%sf_same_eq.
  - now intros [->%sf_same_eq ->%sf_same_eq]%andb_prop.
  - now intros ->%String.eqb_eq.
Qed.

Lemma py_is_eq (a b : object) : py_is a b = true -> a = b.
Proof.
  destruct a as [a x], b as [b y]. unfold py_is. cbn [addr val].
  now intros [->%Nat.eqb_eq ->%same_value_eq]%andb_prop.
Qed.

Lemma key_eq_sym (a b : object) : key_eq a b = true -> key_eq b a = true.
Proof.
  unfold key_eq. intros [H | H]%orb_prop.
  - apply py_is_eq in H. subst. now rewrite py_is_refl.
  - rewrite py_eq_sym, H. apply orb_true_r.
Qed.

Lemma key_eq_trans (a b c : object) :
  key_eq a b = true -> key_eq b c = true -> key_eq a c = true.
Proof.
  unfold key_eq. intros [H1 | H1]%orb_prop [H2 | H2]%orb_prop.
  - apply py_is_eq in H1, H2. subst. now rewrite py_is_refl.
  - apply py_is_eq in H1. subst. rewrite H2. apply orb_true_r.
  - apply py_is_eq in H2. subst. rewrite H1. apply orb_true_r.
  - rewrite (py_eq_trans _ _ _ H1 H2). apply orb_true_r.
Qed.

(** Two values of which one equals a third and the other does not are
    not equal. *)
Lemma py_eq_apart (a b c : pyobj) :
  py_eq a b = true -> py_eq b c = false -> py_eq a c = false.
Proof.
  intros Hab Hbc. destruct (py_eq a c) eqn:Hac; [| reflexivity].
  rewrite py_eq_sym in Hab. now rewrite (py_eq_trans b a c Hab Hac) in Hbc.
Qed.

(** ** New objects as probes

    Objects that are no key of a dictionary and have one value are
    looked up alike in it. *)

Lemma fresh_incl (p : object) (d d' : dict) :
  incl d' d -> fresh p d -> fresh p d'.
Proof.
  unfold fresh. rewrite !Forall_forall. intros Hi Hp e He.
  apply Hp, Hi, He.
Qed.

Lemma fresh_agree (p p' : object) (d : dict) :
  fresh p d -> fresh p' d -> val p = val p' ->
  Forall (fun e => key_eq (fst e) p = key_eq (fst e) p') d.
Proof.
  unfold fresh. rewrite !Forall_forall. intros Hp Hp' Hv e He.
  now rewrite (fresh_key_eq p _ (Hp e He)), (fresh_key_eq p' _ (Hp' e He)), Hv.
Qed.

Lemma agree_ops (p p' : object) (d : dict) :
  Forall (fun e => key_eq (fst e) p = key_eq (fst e) p') d ->
  dict_getitem p d = dict_getitem p' d /\
  dict_contains p d = dict_contains p' d /\
  dict_delitem p d = dict_delitem p' d.
Proof.
  induction 1 as [| [k v] d Hk _ (IH1 & IH2 & IH3)]; [repeat split |].
  cbn [fst] in Hk. cbn [dict_getitem dict_contains existsb dict_delitem fst].
  unfold dict_contains in IH2. now rewrite Hk, IH1, IH2, IH3.
Qed.

Lemma new_agree (k : pyobj) (p : object) (d : dict) :
  fresh p d -> val p = k ->
  dict_getitem (new d k) d = dict_getitem p d /\
  dict_contains (new d k) d = dict_contains p d /\
  dict_delitem (new d k) d = dict_delitem p d.
Proof.
  intros Hp Hv. apply agree_ops, fresh_agree; auto using new_fresh.
Qed.

Lemma dict_delitem_incl (k : object) (d d' : dict) :
  dict_delitem k d = Ok d' -> incl d' d.
Proof.
  revert d'. induction d as [| [k' v'] d IH]; simpl; [discriminate |].
  intros d'. destruct (key_eq k' k).
  - intros [= <-]. apply incl_tl, incl_refl.
  - destruct (dict_delitem k d) as [d'' |]; [| discriminate].
    intros [= <-]. apply incl_cons; [now left |].
    apply incl_tl. now apply IH.
Qed.

Lemma fresh_setitem_inv (p q : object) (v : pyobj) (d : dict) :
  fresh q (dict_setitem p v d) -> fresh q d.
Proof.
  unfold fresh. induction d as [| [k' v'] d IH]; cbn [dict_setitem];
    [constructor |].
  destruct (key_eq k' p); intros H; inversion H; subst;
    constructor; auto.
Qed.

(** ** The store under add and delete *)

Lemma dict_absent_Forall (k : object) (d : dict) :
  dict_contains k d = false ->
  Forall (fun e => key_eq (fst e) k = false) d.
Proof.
  induction d as [| [k' v'] d IH]; simpl; [constructor |].
  intros [H1 H2]%orb_false_elim. constructor; auto.
Qed.

Lemma dict_getitem_absent (k : object) (d : dict) (e : exn) :
  dict_getitem k d = Raise e -> dict_contains k d = false.
Proof.
  induction d as [| [k' v'] d IH]; simpl; [reflexivity |].
  destruct (key_eq k' k); [discriminate | exact IH].
Qed.

Lemma dict_setitem_absent (k : object) (v : pyobj) (d : dict) :
  dict_contains k d = false -> dict_setitem k v d = d ++ [(k, v)].
Proof.
  induction d as [| [k' v'] d IH]; simpl; [reflexivity |].
  intros [H1 H2]%orb_false_elim. rewrite H1. now rewrite IH.
Qed.

Lemma dict_setitem_keys (k : object) (v : pyobj) (d : dict) :
  dict_contains k d = true ->
  map fst (dict_setitem k v d) = map fst d.
Proof.
  induction d as [| [k' v'] d IH]; simpl; [discriminate |].
  destruct (key_eq k' k); simpl; [reflexivity |].
  intros H. now rewrite IH.
Qed.

Lemma new_same_keys (d d' : dict) (v : pyobj) :
  map fst d = map fst d' -> new d v = new d' v.
Proof.
  intros H. unfold new. f_equal.
  now rewrite <- !(map_map fst addr), H.
Qed.

(** The entry that a probe matches, after entries it does not match, is
    the one deleted. *)
Lemma dict_delitem_found (pre : dict) (k q : object) (v : pyobj)
  (rest : dict) :
  Forall (fun e => key_eq (fst e) q = false) pre ->
  key_eq k q = true ->
  dict_delitem q (pre ++ (k, v) :: rest) = Ok (pre ++ rest).
Proof.
  intros Hpre Hk. induction Hpre as [| [k' v'] pre Hk' _ IH]; simpl.
  - now rewrite Hk.
  - simpl in Hk'. now rewrite Hk', IH.
Qed.

(** A new object whose value does not equal that of [p] is looked up
    alike before and after [p] is set or deleted. *)
Lemma dict_getitem_setitem_other (p q : object) (v : pyobj) (d : dict) :
  fresh p d -> fresh q (dict_setitem p v d) ->
  py_eq (val p) (val q) = false ->
  dict_getitem q (dict_setitem p v d) = dict_getitem q d.
Proof.
  intros Hp Hq Hpq. unfold fresh in *.
  induction d as [| [k0 v0] d IH]; cbn [dict_setitem] in *.
  - inversion Hq as [| ? ? Hq0 _]; subst. cbn [fst] in Hq0.
    cbn [dict_getitem]. now rewrite (fresh_key_eq q p Hq0), Hpq.
  - inversion Hp as [| ? ? Hp0 Hpd]; subst. cbn [fst] in Hp0.
    pose proof (fresh_key_eq p k0 Hp0) as E.
    destruct (key_eq k0 p) eqn:E0;
      inversion Hq as [| ? ? Hq0 Hqd]; subst; cbn [fst] in Hq0;
      cbn [dict_getitem]; rewrite (fresh_key_eq q k0 Hq0).
    + now rewrite (py_eq_apart (val k0) (val p) (val q) (eq_sym E) Hpq).
    + destruct (py_eq (val k0) (val q)); [reflexivity | now apply IH].
Qed.

Lemma dict_getitem_delitem_other (p q : object) (d d' : dict) :
  fresh p d -> fresh q d ->
  py_eq (val p) (val q) = false ->
  dict_delitem p d = Ok d' ->
  dict_getitem q d' = dict_getitem q d.
Proof.
  intros Hp Hq Hpq. unfold fresh in *. revert d'.
  induction d as [| [k0 v0] d IH]; cbn [dict_delitem]; [discriminate |].
  inversion Hp as [| ? ? Hp0 Hpd]; subst. cbn [fst] in Hp0.
  inversion Hq as [| ? ? Hq0 Hqd]; subst. cbn [fst] in Hq0.
  pose proof (fresh_key_eq p k0 Hp0) as E.
  intros d'. destruct (key_eq k0 p) eqn:E0.
  - intros [= <-]. cbn [dict_getitem]. rewrite (fresh_key_eq q k0 Hq0).
    now rewrite (py_eq_apart (val k0) (val p) (val q) (eq_sym E) Hpq).
  - destruct (dict_delitem p d) as [d1 |]; cbn [rbind]; [| discriminate].
    intros [= <-]. cbn [dict_getitem]. now rewrite (IH Hpd Hqd d1 eq_refl).
Qed.

(** In a dictionary, deleting the entry a probe matches leaves no entry
    that the probe matches. *)
Lemma dict_delitem_absent (k : object) (d d' : dict) :
  dict_wf d -> dict_delitem k d = Ok d' -> dict_contains k d' = false.
Proof.
  revert d'. induction d as [| [k0 v0] d IH]; simpl; [discriminate |].
  intros d' [Hk0 Hwf]. destruct (key_eq k0 k) eqn:E0.
  - intros [= <-].
    destruct (dict_contains k d) eqn:Ec; [| reflexivity].
    unfold dict_contains in Ec. apply existsb_exists in Ec.
    destruct Ec as ([k1 v1] & Hin & E1). simpl in E1.
    rewrite forallb_forall in Hk0. specialize (Hk0 _ Hin). simpl in Hk0.
    rewrite (key_eq_trans k0 k k1 E0 (key_eq_sym _ _ E1)) in Hk0.
    discriminate.
  - destruct (dict_delitem k d) as [d1 |]; simpl; [| discriminate].
    intros [= <-]. simpl. rewrite E0. simpl. now apply IH.
Qed.

Lemma store0_wf : dict_wf store0.
Proof. simpl. repeat split; reflexivity. Qed.

(** X1.  [add] puts a key that is not in the store after all the
    entries; for a key that is in the store it changes the value in place:
    the keys of the store and their order stay as they were, and a read
    of the key then gives the new value. *)
Theorem add_keeps_order (d : dict) (k v : pyobj) :
  (dict_contains (new d k) d = false ->
   snd (_add k v d) = d ++ [(new d k, v)]) /\
  (dict_contains (new d k) d = true ->
   map fst (snd (_add k v d)) = map fst d /\
   _read k (snd (_add k v d)) = (Ok (ok [(k, v)]), snd (_add k v d))).
Proof.
  rewrite _add_spec. cbn [snd]. split.
  - apply dict_setitem_absent.
  - intros H. pose proof (dict_setitem_keys (new d k) v d H) as Hkeys.
    split; [exact Hkeys |].
    rewrite _read_unfold, (new_same_keys _ d k Hkeys).
    now rewrite dict_getitem_setitem.
Qed.

Lemma add_keeps_order_witness :
  (dict_contains (new store0 (PInt 1)) store0 = false ->
   snd (_add (PInt 1) (PInt 123) store0)
   = store0 ++ [({| addr := 5; val := PInt 1 |}, PInt 123)]) /\
  (dict_contains (new store0 (PFloat (S754_finite false 5 1))) store0 = true ->
   map fst (snd (_add (PFloat (S754_finite false 5 1)) PNone store0))
   = map fst store0 /\
   _read (PFloat (S754_finite false 5 1))
     (snd (_add (PFloat (S754_finite false 5 1)) PNone store0))
   = (Ok (ok [(PFloat (S754_finite false 5 1), PNone)]),
      snd (_add (PFloat (S754_finite false 5 1)) PNone store0))).
Proof.
  split.
  - exact (proj1 (add_keeps_order store0 (PInt 1) (PInt 123))).
  - exact (proj2 (add_keeps_order store0 (PFloat (S754_finite false 5 1))
                    PNone)).
Defined.

(** X2.  [add] and [delete] of a key [k] do not change what [read]
    answers for a key that does not equal [k]. *)
Theorem other_keys_untouched (d : dict) (k k' v : pyobj) :
  py_eq k k' = false ->
  fst (_read k' (snd (_add k v d))) = fst (_read k' d) /\
  fst (_read k' (snd (_delete k d))) = fst (_read k' d).
Proof.
  intros Hk. rewrite !_read_unfold, _add_spec, _delete_unfold. cbn [snd].
  split.
  - set (d1 := dict_setitem (new d k) v d).
    pose proof (new_fresh d1 k') as Hq. unfold d1 at 2 in Hq.
    unfold d1 at 2.
    rewrite (dict_getitem_setitem_other (new d k) (new d1 k') v d
               (new_fresh d k) Hq Hk).
    apply fresh_setitem_inv in Hq.
    rewrite <- (proj1 (new_agree k' (new d1 k') d Hq eq_refl)).
    now destruct (dict_getitem (new d k') d).
  - destruct (dict_delitem (new d k) d) as [d1 |] eqn:E; cbn [snd];
      [| reflexivity].
    pose proof (fresh_incl _ d d1 (dict_delitem_incl _ _ _ E)
                  (new_fresh d k')) as Hq.
    rewrite (proj1 (new_agree k' (new d k') d1 Hq eq_refl)).
    rewrite (dict_getitem_delitem_other (new d k) (new d k') d d1
               (new_fresh d k) (new_fresh d k') Hk E).
    now destruct (dict_getitem (new d k') d).
Qed.

Lemma other_keys_untouched_witness :
  py_eq (PInt 10) (PInt 15) = false /\
  fst (_read (PInt 15) (snd (_add (PInt 10) PNone store0)))
  = fst (_read (PInt 15) store0) /\
  fst (_read (PInt 15) (snd (_delete (PInt 10) store0)))
  = fst (_read (PInt 15) store0).
Proof.
  split; [reflexivity |].
  exact (other_keys_untouched store0 (PInt 10) (PInt 15) PNone eq_refl).
Defined.

(** X3.  Once [delete] has removed a key from a store, [read] of the key
    answers "Entry does not exist." and a second [delete] answers "Entry
    could not be deleted.". *)
Theorem delete_then_absent (d : dict) (k : pyobj) :
  dict_wf d ->
  dict_contains (new d k) d = true ->
  let d' := snd (_delete k d) in
  dict_contains (new d' k) d' = false /\
  _read k d' = (Ok (failure "Entry does not exist."), d') /\
  _delete k d' = (Ok (failure "Entry could not be deleted."), d').
Proof.
  intros Hwf Hk. rewrite _delete_unfold.
  destruct (dict_contains_delitem _ d Hk) as [d1 E]. rewrite E. cbn [snd].
  assert (Ha : dict_contains (new d1 k) d1 = false).
  { rewrite (proj1 (proj2 (new_agree k (new d k) d1
                             (fresh_incl _ d d1 (dict_delitem_incl _ _ _ E)
                                (new_fresh d k)) eq_refl))).
    exact (dict_delitem_absent _ d d1 Hwf E). }
  split; [exact Ha |]. split.
  - rewrite _read_unfold. now rewrite (dict_absent_getitem _ _ Ha).
  - rewrite _delete_unfold. now rewrite (dict_absent_delitem _ _ Ha).
Qed.

Lemma delete_then_absent_witness :
  let d' := snd (_delete (PInt 10) store0) in
  dict_wf store0 /\ dict_contains (new store0 (PInt 10)) store0 = true /\
  dict_contains (new d' (PInt 10)) d' = false /\
  _read (PInt 10) d' = (Ok (failure "Entry does not exist."), d') /\
  _delete (PInt 10) d' = (Ok (failure "Entry could not be deleted."), d').
Proof.
  intros d'. split; [exact store0_wf |]. split; [reflexivity |].
  exact (delete_then_absent store0 (PInt 10) store0_wf eq_refl).
Defined.

(** X4.  Adding a key that is not in the store and equals itself, and
    deleting it again, gives back the store as it was, entry for
    entry. *)
Theorem add_then_delete_restores (d : dict) (k v : pyobj) :
  dict_contains (new d k) d = false ->
  py_eq k k = true ->
  _delete k (snd (_add k v d)) = (Ok (ok []), d).
Proof.
  intros Hk Hrefl. rewrite _add_spec. cbn [snd].
  rewrite (dict_setitem_absent _ v d Hk), _delete_unfold.
  set (d1 := d ++ [(new d k, v)]).
  assert (Hpre : Forall (fun e => key_eq (fst e) (new d1 k) = false) d).
  { pose proof (fresh_incl _ d1 d (incl_appl _ (incl_refl d))
                  (new_fresh d1 k)) as Hq.
    pose proof (fresh_agree _ _ d Hq (new_fresh d k) eq_refl) as Hag.
    pose proof (dict_absent_Forall _ d Hk) as Hab.
    rewrite Forall_forall in *. intros e He.
    now rewrite (Hag e He), (Hab e He). }
  unfold d1 at 2.
  rewrite (dict_delitem_found d (new d k) (new d1 k) v [] Hpre).
  - now rewrite app_nil_r.
  - unfold key_eq. cbn [val new]. now rewrite Hrefl, orb_true_r.
Qed.

Lemma add_then_delete_restores_witness :
  dict_contains (new store0 (PInt 1)) store0 = false /\
  py_eq (PInt 1) (PInt 1) = true /\
  _delete (PInt 1) (snd (_add (PInt 1) (PInt 123) store0))
  = (Ok (ok []), store0).
Proof.
  split; [reflexivity |]. split; [reflexivity |].
  exact (add_then_delete_restores store0 (PInt 1) (PInt 123)
           eq_refl eq_refl).
Defined.

(** ** What a scan returns *)

Lemma scan_read_filter (pq : ParseResults)
  (operand : object * pyobj -> pyobj) (entries : list (object * pyobj)) :
  forall (matches : list (pyobj * pyobj)) (d : dict),
  scan (fun entry => scan_entry None pq operators (operand entry) entry)
    entries matches d
  = (Ok (matches ++ items (filter (matching pq operand) entries)), d).
Proof.
  induction entries as [| entry entries IH]; intros matches d.
  - simpl. unfold ret. now rewrite app_nil_r.
  - cbn [scan filter]. unfold bind at 1, scan_entry.
    assert (Hm : matching pq operand entry
                 = match apply_operator pq operators (operand entry) with
                   | Ok true => true
                   | _ => false
                   end) by reflexivity.
    rewrite Hm. clear Hm.
    destruct (apply_operator pq operators (operand entry)) as [[|] | x].
    + unfold bind, try_except, call_action, raise, ret at 1 2.
      rewrite IH. cbn [items map]. now rewrite <- app_assoc.
    + unfold ret at 1. apply IH.
    + unfold ret at 1. apply IH.
Qed.

Lemma matching_holds (pq : ParseResults) (a e o : string) (v : pyobj) :
  parsed_as pq a e o v ->
  forall entry,
    matching pq (fun entry => operand_of e (item entry)) entry
    = holds e o v (item entry).
Proof.
  intros Hp entry. unfold matching, holds.
  now rewrite (apply_operator_parsed pq a e o v _ Hp).
Qed.

Lemma filter_ext_holds (pq : ParseResults) (a e o : string) (v : pyobj)
  (d : dict) :
  parsed_as pq a e o v ->
  items (filter (matching pq (fun entry => operand_of e (item entry))) d)
  = filter (holds e o v) (items d) /\
  filter (fun x => negb (matching pq (fun entry => operand_of e (item entry))
                           x)) d
  = filter (fun x => negb (holds e o v (item x))) d.
Proof.
  intros Hp. split.
  - rewrite <- (items_filter (holds e o v) d). f_equal.
    apply filter_ext. intros x. now rewrite (matching_holds pq a e o v Hp).
  - apply filter_ext. intros x. now rewrite (matching_holds pq a e o v Hp).
Qed.

(** The scan a parsed query runs, as [_query] reaches it. *)
Lemma run_parsed_scan_unfold (pq : ParseResults) (a e o : string)
  (v : pyobj) (qa : option (object -> M unit)) (d : dict) :
  parsed_as pq a e o v ->
  table_get [("read"%string, None);
             ("delete"%string, Some _delete_from_query)] a = Ok qa ->
  is_scan e o = true ->
  run_parsed pq d =
  match scan (fun entry =>
                scan_entry qa pq operators (operand_of e (item entry)) entry)
          d [] d with
  | (Ok matches, d') => (Ok (ok matches), d')
  | (Raise x, d') => (Raise x, d')
  end.
Proof.
  intros (Hpa & Hpe & Hpo & Hpv) Hqa Hs.
  unfold run_parsed, bind at 1 2 3 4, lift. rewrite Hpa, Hpe.
  cbn [rbind as_str]. rewrite Hqa. cbv beta iota.
  unfold is_scan in Hs. apply orb_prop in Hs.
  destruct Hs as [He%String.eqb_eq | [He%String.eqb_eq Ho]%andb_prop];
    subst e; cbn [table_get]; string_eqb; cbv beta iota.
  - unfold bind, _execute_query_by_value, bind, self_data_copy_items.
    unfold operand_of, item. string_eqb. reflexivity.
  - unfold bind, _execute_query_by_key, bind, lift. rewrite Hpo.
    change (py_eq (PStr o) (PStr "=")) with (String.eqb o "=").
    apply negb_true_iff in Ho. rewrite Ho. unfold self_data_copy_items.
    unfold operand_of, item. string_eqb. reflexivity.
Qed.

(** X5.  A read query that scans (by value, or by key with an operator
    other than "=") answers with the entries of the store on which the
    operator holds, in the order of the store, and leaves the store as
    it was. *)
Theorem read_scan_is_filter (q : pyobj) (pq : ParseResults) (e o : string)
  (v : pyobj) (d : dict) :
  _parse_query_string q = Ok pq ->
  parsed_as pq "read" e o v ->
  is_scan e o = true ->
  _query q d = (Ok (ok (filter (holds e o v) (items d))), d).
Proof.
  intros Hq Hp Hs. rewrite _query_unfold, Hq. unfold try_except.
  rewrite (run_parsed_scan_unfold pq "read" e o v None d Hp eq_refl Hs).
  rewrite (scan_read_filter pq _ d [] d). cbn [app].
  now rewrite (proj1 (filter_ext_holds pq "read" e o v d Hp)).
Qed.

Lemma read_scan_is_filter_witness :
  let q := PStr "read key >= float ( 12.5 )" in
  (exists pq v, _parse_query_string q = Ok pq /\
                parsed_as pq "read" "key" ">=" v /\
                _query q store0
                = (Ok (ok (filter (holds "key" ">=" v) (items store0))),
                   store0)) /\
  _query q store0 = (Ok (ok [(PInt 15, PStr "Onescu")]), store0).
Proof.
  intros q. split; [| reflexivity].
  eexists _, _. split; [reflexivity |]. split; [repeat split |].
  eapply read_scan_is_filter; [reflexivity | repeat split | reflexivity].
Defined.

(** X6.  A delete query that scans answers with the entries of the
    store on which the operator holds, in the order of the store, and
    leaves exactly the other entries; run again at once, it matches
    nothing and changes nothing. *)
Theorem delete_scan_is_partition (q : pyobj) (pq : ParseResults)
  (e o : string) (v : pyobj) (d : dict) :
  dict_wf d ->
  _parse_query_string q = Ok pq ->
  parsed_as pq "delete" e o v ->
  is_scan e o = true ->
  let removed := filter (holds e o v) (items d) in
  let kept := filter (fun x => negb (holds e o v (item x))) d in
  _query q d = (Ok (ok removed), kept) /\
  _query q kept = (Ok (ok []), kept).
Proof.
  intros Hwf Hq Hp Hs removed kept. subst removed kept.
  assert (Hrun : forall d0, dict_wf d0 ->
            _query q d0
            = (Ok (ok (filter (holds e o v) (items d0))),
               filter (fun x => negb (holds e o v (item x))) d0)).
  { intros d0 Hwf0. rewrite _query_unfold, Hq. unfold try_except.
    rewrite (run_parsed_scan_unfold pq "delete" e o v
               (Some _delete_from_query) d0 Hp eq_refl Hs).
    pose proof (scan_delete pq (fun entry => operand_of e (item entry))
                  d0 [] [] Hwf0 (Forall_nil _)) as H.
    cbn [app] in H. rewrite H.
    destruct (filter_ext_holds pq "delete" e o v d0 Hp) as [-> ->].
    reflexivity. }
  split; [now apply Hrun |].
  rewrite (Hrun _ (dict_wf_filter _ d Hwf)).
  rewrite <- (items_filter (holds e o v)).
  destruct (filter_filter_negb (fun x => holds e o v (item x)) d)
    as [-> ->].
  reflexivity.
Qed.

Lemma delete_scan_is_partition_witness :
  let q := PStr "delete key < int ( 12 )" in
  let kept := [ ({| addr := 2; val := PStr "1a2b3c" |}, PStr "John");
                ({| addr := 4; val := PInt 15 |}, PStr "Onescu") ] in
  dict_wf store0 /\
  (exists pq, _parse_query_string q = Ok pq /\
              parsed_as pq "delete" "key" "<" (PInt 12)) /\
  is_scan "key" "<" = true /\
  _query q store0 = (Ok (ok [(PInt 10, PStr "Radu-Mihai")]), kept) /\
  _query q kept = (Ok (ok []), kept).
Proof.
  intros q kept. split; [exact store0_wf |].
  split; [eexists; split; [reflexivity | repeat split] |].
  split; [reflexivity |].
  eapply (delete_scan_is_partition q _ "key" "<" (PInt 12) store0 store0_wf);
    [reflexivity | repeat split | reflexivity].
Defined.

(** X7.  The query "delete key = K" removes the entry of a key that is
    in the store and answers with that entry (where [delete] answers
    with no data), leaving the store [delete] leaves; for a key that is
    not in the store it succeeds with no match and changes nothing. *)
Theorem delete_by_key_eq (q : pyobj) (pq : ParseResults) (k : pyobj)
  (d : dict) :
  _parse_query_string q = Ok pq ->
  parsed_as pq "delete" "key" "=" k ->
  (dict_contains (new d k) d = true ->
   exists v, dict_getitem (new d k) d = Ok v /\
             _query q d = (Ok (ok [(k, v)]), snd (_delete k d))) /\
  (dict_contains (new d k) d = false -> _query q d = (Ok (ok []), d)).
Proof.
  intros Hq (Hpa & Hpe & Hpo & Hpv).
  assert (Hrun : _query q d =
            match dict_getitem (new d k) d with
            | Ok v => (Ok (ok [(k, v)]),
                       snd (self_data_delitem (new d k) d))
            | Raise _ => (Ok (ok []), d)
            end).
  { rewrite _query_unfold, Hq.
    unfold try_except at 1, run_parsed, bind at 1 2 3 4, lift.
    rewrite Hpa, Hpe. cbn [rbind as_str table_get]. string_eqb.
    cbv beta iota. unfold bind at 1, _execute_query_by_key, bind at 1, lift.
    rewrite Hpo. change (py_eq (PStr "=") (PStr "=")) with true.
    cbv beta iota. unfold try_except at 1, bind at 1, lift. rewrite Hpv.
    unfold bind at 1, new_object. unfold bind at 1, self_data_getitem.
    destruct (dict_getitem (new d k) d) as [v |]; [| reflexivity].
    unfold bind, try_except, call_action, _delete_from_query, ret.
    destruct (self_data_delitem (new d k) d) as [[[] | x] d'];
      reflexivity. }
  rewrite Hrun. split.
  - intros Hk. destruct (dict_contains_getitem _ d Hk) as [v Hv].
    exists v. split; [exact Hv |]. rewrite Hv, _delete_unfold.
    unfold self_data_delitem. now destruct (dict_delitem (new d k) d).
  - intros Hk. now rewrite (dict_absent_getitem _ d Hk).
Qed.

Lemma delete_by_key_eq_witness :
  let q := PStr "delete key = int ( 10 )" in
  let q' := PStr "delete key = float ( nan )" in
  let d' := [({| addr := 1; val := PFloat S754_nan |}, PInt 1)] in
  (exists pq, _parse_query_string q = Ok pq /\
              parsed_as pq "delete" "key" "=" (PInt 10)) /\
  _query q store0
  = (Ok (ok [(PInt 10, PStr "Radu-Mihai")]),
     [ ({| addr := 2; val := PStr "1a2b3c" |}, PStr "John");
       ({| addr := 4; val := PInt 15 |}, PStr "Onescu") ]) /\
  (exists pq, _parse_query_string q' = Ok pq /\
              parsed_as pq "delete" "key" "=" (PFloat S754_nan)) /\
  _query q' d' = (Ok (ok []), d').
Proof.
  intros q q' d'. split; [eexists; split; [reflexivity | repeat split] |].
  split; [| split; [eexists; split; [reflexivity | repeat split] |]].
  - assert (H : exists v, dict_getitem (new store0 (PInt 10)) store0 = Ok v /\
                          _query q store0
                          = (Ok (ok [(PInt 10, v)]),
                             snd (_delete (PInt 10) store0))).
    { eapply (delete_by_key_eq q); [reflexivity | repeat split | reflexivity]. }
    destruct H as (v & Hv & Hq). injection Hv as <-. exact Hq.
  - eapply (proj2 (delete_by_key_eq q' _ (PFloat S754_nan) d' eq_refl _)).
    reflexivity.
    Unshelve. repeat split.
Defined.

(** ** Requests that are answered *)

Lemma _query_answers (q : pyobj) (d : dict) :
  exists r d', _query q d = (Ok r, d').
Proof.
  rewrite _query_unfold.
  destruct (_parse_query_string q) as [pq |] eqn:E; [| eauto].
  destruct (run_parsed_total q pq d E) as (m & d' & H).
  unfold try_except. rewrite H. eauto.
Qed.

Lemma methods_answer (r : Request) (d : dict) :
  (exists x d', _read (key r) d = (Ok x, d')) /\
  (exists x d', _add (key r) (value r) d = (Ok x, d')) /\
  (exists x d', _delete (key r) d = (Ok x, d')) /\
  (exists x d', _query (query r) d = (Ok x, d')).
Proof.
  repeat split.
  - rewrite _read_unfold. destruct (dict_getitem _ d); eauto.
  - rewrite _add_spec. eauto.
  - rewrite _delete_unfold. destruct (dict_delitem _ d); eauto.
  - apply _query_answers.
Qed.

Lemma dispatch_known (r : Request) (d : dict) :
  known_type r = true -> exists x d', dispatch r d = (Ok x, d').
Proof.
  destruct (methods_answer r d) as (Hr & Ha & Hd & Hq).
  unfold known_type, dispatch. cbn [existsb get].
  destruct (py_eq (PInt 0) (request_type r)); [intros _; exact Hr |].
  destruct (py_eq (PInt 1) (request_type r)); [intros _; exact Ha |].
  destruct (py_eq (PInt 2) (request_type r)); [intros _; exact Hd |].
  destruct (py_eq (PInt 3) (request_type r)); [intros _; exact Hq |].
  destruct (py_eq (PInt 4) (request_type r)); [| discriminate].
  intros _. cbn [call]. unfold _send_error, ret. eauto.
Qed.

Lemma dispatch_unknown (r : Request) (d : dict) :
  known_type r = false -> dispatch r d = (Raise TypeError, d).
Proof.
  intros H. apply dispatch_unmatched_type.
  unfold known_type in H. revert H. cbn [existsb forallb].
  repeat match goal with
         | |- context [py_eq ?a ?b] => destruct (py_eq a b)
         end; cbn; congruence.
Qed.

Lemma serve_known (data : payload) (d : dict) :
  known data = true -> exists x d', serve data d = (Ok x, d').
Proof.
  destruct data as [r | | e]; [| discriminate ..].
  apply dispatch_known.
Qed.

Lemma serve_not_known (data : payload) (d : dict) :
  known data = false ->
  serve data d
  = (Raise (match data with
            | Whole _ => TypeError
            | Other_object => AttributeError
            | Raises e => e
            end), d).
Proof.
  destruct data as [r | | e]; [| reflexivity ..].
  apply dispatch_unknown.
Qed.

Lemma _listen_app (turns1 turns2 : list turn) (d : dict) :
  _listen (turns1 ++ turns2) d =
  match _listen turns1 d with
  | (Ok x1, d1) =>
      match _listen turns2 d1 with
      | (Ok x2, d2) => (Ok (x1 ++ x2), d2)
      | (Raise e, d2) => (Raise e, d2)
      end
  | (Raise e, d1) => (Raise e, d1)
  end.
Proof.
  revert d. induction turns1 as [| t turns1 IH]; intros d.
  - cbn [app _listen]. unfold ret at 1.
    destruct (_listen turns2 d) as [[x2 | e] d2]; reflexivity.
  - cbn [app _listen]. unfold bind, ret, lift.
    destruct (serve (received t) d) as [[x | e] d0]; [| reflexivity].
    destruct (sent t) as [[] | e]; [| reflexivity].
    rewrite IH.
    destruct (_listen turns1 d0) as [[x1 | e] d1]; [| reflexivity].
    destruct (_listen turns2 d1) as [[x2 | e] d2]; reflexivity.
Qed.

Lemma _listen_served (turns : list turn) (d : dict) :
  forallb served turns = true ->
  exists responses d',
    _listen turns d = (Ok responses, d') /\
    List.length responses = List.length turns.
Proof.
  revert d. induction turns as [| t turns IH]; intros d.
  - intros _. exists [], d. split; reflexivity.
  - cbn [forallb]. unfold served at 1.
    intros [[Hr Hs]%andb_prop Hrs]%andb_prop.
    destruct (serve_known (received t) d Hr) as (x & d0 & Hx).
    destruct (IH d0 Hrs) as (xs & d' & Hxs & Hlen).
    exists (x :: xs), d'. cbn [_listen]. unfold bind, lift. rewrite Hx.
    destruct (sent t) as [[] | e]; [| discriminate]. rewrite Hxs.
    split; [reflexivity | simpl; now rewrite Hlen].
Qed.

(** The turn that is not [served] ends the loop. *)
Lemma _listen_not_served (t : turn) (turns : list turn) (d : dict) :
  served t = false ->
  _listen (t :: turns) d
  = (Raise (raised_on t), snd (serve (received t) d)).
Proof.
  destruct t as [data s]. unfold served, raised_on. cbn [received sent].
  cbn [_listen received sent]. unfold bind, lift.
  destruct (known data) eqn:Hk.
  - destruct (serve_known data d Hk) as (x & d0 & ->).
    destruct data as [r | | e]; [| discriminate ..]. cbn [known] in Hk.
    rewrite Hk. destruct s as [[] | e]; [discriminate | reflexivity].
  - intros _. rewrite (serve_not_known data d Hk).
    destruct data as [r | | e]; [| reflexivity ..].
    cbn [known] in Hk. rewrite Hk. now destruct s.
Qed.

(** X8.  A connection on which every turn brings a whole request of one
    of the types [0] to [4] and sends its response is served to its
    end: one response per request is sent, and the connection served in
    two parts gives the responses of the first part followed by those of
    the second. *)
Theorem known_requests_are_answered (turns1 turns2 : list turn)
  (d : dict) :
  forallb served (turns1 ++ turns2) = true ->
  exists x1 d1 x2 d2,
    _listen turns1 d = (Ok x1, d1) /\ _listen turns2 d1 = (Ok x2, d2) /\
    _listen (turns1 ++ turns2) d = (Ok (x1 ++ x2), d2) /\
    List.length x1 = List.length turns1 /\
    List.length x2 = List.length turns2.
Proof.
  rewrite forallb_app. intros [H1 H2]%andb_prop.
  destruct (_listen_served turns1 d H1) as (x1 & d1 & E1 & L1).
  destruct (_listen_served turns2 d1 H2) as (x2 & d2 & E2 & L2).
  exists x1, d1, x2, d2. rewrite _listen_app, E1, E2. auto.
Qed.

Lemma known_requests_are_answered_witness :
  let turns :=
    [ answered
        (Whole {| request_type := PInt 1; key := PInt 1; value := PInt 123;
                  query := PNone |});
      answered
        (Whole {| request_type := PInt 3; key := PNone; value := PNone;
                  query := PStr "read key = int ( 1 )" |}) ] in
  forallb served turns = true /\
  exists x1 d1 x2 d2,
    _listen [] [] = (Ok x1, d1) /\ _listen turns d1 = (Ok x2, d2) /\
    _listen turns [] = (Ok (x1 ++ x2), d2) /\
    List.length x1 = 0%nat /\ List.length x2 = List.length turns.
Proof.
  intros turns. split; [reflexivity |].
  apply (known_requests_are_answered [] turns []). reflexivity.
Defined.

(** X9.  The first turn that is not served ends the connection with an
    exception: [TypeError] for a request of another type,
    [AttributeError] for an object that is no request, the exception of
    [recv] or of [pickle.loads] for bytes that do not come or do not
    load, such as the first 1024 bytes of a longer request, and the
    exception of [send] for a response that is not sent.  What the turns
    before did to the store stays, and so does what the last request
    did when it is its response that is not sent; the turns after are
    not looked at. *)
Theorem unknown_request_ends_connection (turns1 turns2 : list turn)
  (t : turn) (d : dict) :
  forallb served turns1 = true ->
  served t = false ->
  let d1 := snd (_listen turns1 d) in
  _listen (turns1 ++ t :: turns2) d
  = (Raise (raised_on t), snd (serve (received t) d1)) /\
  (known (received t) = false -> snd (serve (received t) d1) = d1).
Proof.
  intros H1 Hr d1. subst d1. rewrite _listen_app.
  destruct (_listen_served turns1 d H1) as (x1 & d1 & -> & _).
  cbn [snd]. rewrite (_listen_not_served t turns2 d1 Hr).
  split; [reflexivity |].
  intros Hk. now rewrite (serve_not_known _ d1 Hk).
Qed.

Lemma unknown_request_ends_connection_witness :
  let add := Whole {| request_type := PInt 1; key := PInt 1;
                      value := PInt 123; query := PNone |} in
  let delete := Whole {| request_type := PInt 2; key := PInt 1;
                         value := PNone; query := PNone |} in
  let d1 := [({| addr := 1; val := PInt 1 |}, PInt 123)] in
  forallb served [answered add] = true /\
  served (answered (Whole (with_type (PStr "read")))) = false /\
  served (answered (Raises UnpicklingError)) = false /\
  served {| received := delete; sent := Raise BrokenPipeError |} = false /\
  _listen ([answered add] ++ answered (Whole (with_type (PStr "read")))
             :: [answered delete]) []
  = (Raise TypeError, d1) /\
  _listen ([answered add] ++ answered (Raises UnpicklingError)
             :: [answered delete]) []
  = (Raise UnpicklingError, d1) /\
  _listen ([answered add]
             ++ {| received := delete; sent := Raise BrokenPipeError |}
             :: [answered add]) []
  = (Raise BrokenPipeError, []).
Proof.
  intros add delete d1. split; [reflexivity |]. split; [reflexivity |].
  split; [reflexivity |]. split; [reflexivity |]. split; [| split].
  - exact (proj1 (unknown_request_ends_connection [answered add]
                    [answered delete]
                    (answered (Whole (with_type (PStr "read")))) []
                    eq_refl eq_refl)).
  - exact (proj1 (unknown_request_ends_connection [answered add]
                    [answered delete] (answered (Raises UnpicklingError)) []
                    eq_refl eq_refl)).
  - exact (proj1 (unknown_request_ends_connection [answered add]
                    [answered add]
                    {| received := delete; sent := Raise BrokenPipeError |} []
                    eq_refl eq_refl)).
Defined.

(** ** The configuration *)

(** X11.  [_read_config] takes the four settings of 'config.ini' when
    all four are there and the port and the interval are integers;
    in every other case (no file, a file that is not read, a setting
    that is missing or is no integer) all four attributes take their
    defaults, those that were given included. *)
Theorem _read_config_all_or_nothing (ini : config_ini) :
  (forall settings c,
     ini = Settings settings -> complete settings c -> _read_config ini = c) /\
  ((forall settings c, ini = Settings settings -> ~ complete settings c) ->
   _read_config ini = default_configuration).
Proof.
  split.
  - intros settings [h p f i] -> (Hh & Hp & Hf & Hi).
    cbn [host port filename snapshot_interval] in *.
    unfold _read_config. cbn [obind]. rewrite Hh. cbn [obind].
    rewrite Hp. cbn [obind]. rewrite Hf. cbn [obind]. rewrite Hi.
    reflexivity.
  - intros Hnone. destruct ini as [| | settings]; try reflexivity.
    unfold _read_config. cbn [obind].
    destruct (settings "database" "host") as [h |] eqn:Hh; [| reflexivity].
    cbn [obind].
    destruct (obind (settings "database" "port") int_of_str) as [p |] eqn:Hp;
      [| reflexivity].
    cbn [obind].
    destruct (settings "database" "filename") as [f |] eqn:Hf;
      [| reflexivity].
    cbn [obind].
    destruct (obind (settings "snapshot" "interval") int_of_str)
      as [i |] eqn:Hi; [| reflexivity].
    exfalso.
    apply (Hnone settings {| host := h; port := p; filename := f;
                             snapshot_interval := i |} eq_refl).
    repeat split; assumption.
Qed.

Lemma _read_config_all_or_nothing_witness :
  let given (section option : string) :=
    if String.eqb section "database" then
      if String.eqb option "host" then Some "0.0.0.0"%string
      else if String.eqb option "port" then Some "8_080"%string
      else if String.eqb option "filename" then Some "db"%string
      else None
    else if String.eqb option "interval" then Some "five"%string
    else None in
  let fixed (section option : string) :=
    if String.eqb section "snapshot" then Some "5"%string
    else given section option in
  _read_config (Settings given) = default_configuration /\
  _read_config (Settings fixed)
  = {| host := "0.0.0.0"; port := 8080; filename := "db";
       snapshot_interval := 5 |}.
Proof.
  intros given fixed. split.
  - apply (proj2 (_read_config_all_or_nothing (Settings given))).
    intros settings c [= <-] (_ & _ & _ & Hi). discriminate Hi.
  - apply (proj1 (_read_config_all_or_nothing (Settings fixed)) fixed);
      [reflexivity | repeat split].
Defined.

(** ** The formats the parser accepts *)

Lemma blank_is (c : ascii) :
  DEFAULT_WHITE_CHARS c = true ->
  c = " "%char \/ c = "010"%char \/ c = "009"%char \/ c = "013"%char.
Proof.
  unfold DEFAULT_WHITE_CHARS. intros H.
  rewrite <- (ascii_nat_embedding c).
  repeat (apply orb_prop in H; destruct H as [H | H]);
    apply Nat.eqb_eq in H; rewrite H; auto.
Qed.

Lemma blank_not_keyword_char (c : ascii) :
  DEFAULT_WHITE_CHARS c = true ->
  DEFAULT_KEYWORD_CHARS c = false /\ printables c = false.
Proof.
  intros H. destruct (blank_is c H) as [-> | [-> | [-> | ->]]];
    split; reflexivity.
Qed.

Lemma blank_neq (a c : ascii) :
  DEFAULT_WHITE_CHARS a = false -> DEFAULT_WHITE_CHARS c = true ->
  Ascii.eqb a c = false.
Proof.
  intros Ha Hc. destruct (Ascii.eqb_spec a c) as [-> |]; congruence.
Qed.

Lemma skip_white_run (w s : string) :
  forall b, all_blank w = true -> blank_first s = false ->
  skip_white b (w ++ s) = {| before := last_char w b; text := s |}.
Proof.
  induction w as [| c w IH]; intros b; simpl.
  - intros _. apply skip_white_no_blank_first.
  - intros [Hc Hw]%andb_prop Hs. rewrite Hc. now apply IH.
Qed.

Lemma skip_white_all_blank (w : string) :
  forall b, all_blank w = true -> text (skip_white b w) = EmptyString.
Proof.
  induction w as [| c w IH]; intros b; simpl; [reflexivity |].
  intros [Hc Hw]%andb_prop. rewrite Hc. now apply IH.
Qed.

Lemma last_char_run (w : string) :
  forall b, all_blank w = true ->
  char_in DEFAULT_KEYWORD_CHARS b = false ->
  char_in DEFAULT_KEYWORD_CHARS (last_char w b) = false.
Proof.
  induction w as [| c w IH]; intros b; simpl; [auto |].
  intros [Hc Hw]%andb_prop _. apply IH; [exact Hw |].
  simpl. now apply blank_not_keyword_char.
Qed.

Lemma gap_blank_first (w s : string) :
  gap w = true -> blank_first (w ++ s) = true /\ all_blank w = true.
Proof.
  destruct w as [| c w]; simpl; [discriminate |].
  intros H. split; [| exact H]. unfold blank_first. simpl.
  now apply andb_prop in H.
Qed.

Lemma startswith_app (m rest : string) :
  forall b, startswith m (m ++ rest) b = Some (last_char m b, rest).
Proof.
  induction m as [| a m IH]; intros b; simpl; [reflexivity |].
  now rewrite Ascii.eqb_refl.
Qed.

(** A keyword at the head of the text, blanks skipped, between two
    characters that are no keyword characters. *)
Lemma Keyword_hit (m : string) (l : loc) (b : option ascii) (rest : string) :
  preParse l = {| before := b; text := (m ++ rest)%string |} ->
  char_in DEFAULT_KEYWORD_CHARS b = false ->
  blank_first rest = true ->
  Keyword m l
  = Ok ({| toklist := [m]; tokdict := [] |},
        {| before := last_char m b; text := rest |}).
Proof.
  intros Hl Hb Hr. unfold Keyword. rewrite Hl. cbn [before text].
  rewrite startswith_app, Hb.
  destruct rest as [| c rest]; [discriminate |].
  unfold blank_first in Hr. simpl in Hr. cbn [first_char char_in].
  now rewrite (proj1 (blank_not_keyword_char c Hr)).
Qed.

Lemma Keyword_miss (m : string) (l : loc) :
  startswith m (text (preParse l)) (before (preParse l)) = None ->
  Keyword m l = Raise ParseException.
Proof. intros H. unfold Keyword. now rewrite H. Qed.

Lemma ACTION_accepts (a : string) (l : loc) (b : option ascii)
  (rest : string) :
  In a ["read"; "delete"]%string ->
  preParse l = {| before := b; text := (a ++ rest)%string |} ->
  char_in DEFAULT_KEYWORD_CHARS b = false ->
  blank_first rest = true ->
  ACTION l
  = Ok ({| toklist := [a]; tokdict := [("action"%string, PStr a)] |},
        {| before := last_char a b; text := rest |}).
Proof.
  intros [<- | [<- | []]] Hl Hb Hr; unfold ACTION, MatchFirst, setResultsName.
  - rewrite (Keyword_hit _ _ _ _ Hl Hb Hr); reflexivity.
  - rewrite Keyword_miss by (rewrite Hl; reflexivity).
    rewrite (Keyword_hit _ _ _ _ Hl Hb Hr); reflexivity.
Qed.

Lemma ELEMENT_accepts (e : string) (l : loc) (b : option ascii)
  (rest : string) :
  In e ["key"; "value"]%string ->
  preParse l = {| before := b; text := (e ++ rest)%string |} ->
  char_in DEFAULT_KEYWORD_CHARS b = false ->
  blank_first rest = true ->
  ELEMENT l
  = Ok ({| toklist := [e]; tokdict := [("element"%string, PStr e)] |},
        {| before := last_char e b; text := rest |}).
Proof.
  intros [<- | [<- | []]] Hl Hb Hr; unfold ELEMENT, MatchFirst, setResultsName.
  - rewrite (Keyword_hit _ _ _ _ Hl Hb Hr); reflexivity.
  - rewrite Keyword_miss by (rewrite Hl; reflexivity).
    rewrite (Keyword_hit _ _ _ _ Hl Hb Hr); reflexivity.
Qed.

Lemma OPERATOR_accepts (o : string) (l : loc) (b : option ascii)
  (rest : string) :
  In o operator_names ->
  preParse l = {| before := b; text := (o ++ rest)%string |} ->
  char_in DEFAULT_KEYWORD_CHARS b = false ->
  blank_first rest = true ->
  OPERATOR l
  = Ok ({| toklist := [o]; tokdict := [("operator"%string, PStr o)] |},
        {| before := last_char o b; text := rest |}).
Proof.
  intros Ho Hl Hb Hr.
  assert (Hc : exists c rest', rest = String c rest' /\
                               Ascii.eqb "=" c = false).
  { destruct rest as [| c rest']; [discriminate |]. exists c, rest'.
    split; [reflexivity |]. now apply blank_neq. }
  destruct Hc as (c & rest' & Hrest & Hc).
  assert (Hmiss : forall s,
             startswith (String s "=") (String s (String c rest')) b = None).
  { intros s. cbn [startswith]. now rewrite Ascii.eqb_refl, Hc. }
  destruct Ho as [<- | [<- | [<- | [<- | [<- | [<- | []]]]]]];
    unfold OPERATOR, MatchFirst, setResultsName.
  - rewrite (Keyword_hit _ _ _ _ Hl Hb Hr); reflexivity.
  - rewrite Keyword_miss by (rewrite Hl; reflexivity).
    rewrite (Keyword_hit _ _ _ _ Hl Hb Hr); reflexivity.
  - rewrite (Keyword_miss "<=") by (rewrite Hl, Hrest; apply Hmiss).
    rewrite Keyword_miss by (rewrite Hl; reflexivity).
    rewrite (Keyword_hit _ _ _ _ Hl Hb Hr); reflexivity.
  - rewrite Keyword_miss by (rewrite Hl; reflexivity).
    rewrite (Keyword_miss ">=") by (rewrite Hl, Hrest; apply Hmiss).
    rewrite Keyword_miss by (rewrite Hl; reflexivity).
    rewrite (Keyword_hit _ _ _ _ Hl Hb Hr); reflexivity.
  - do 4 rewrite Keyword_miss by (rewrite Hl; reflexivity).
    rewrite (Keyword_hit _ _ _ _ Hl Hb Hr); reflexivity.
  - do 5 rewrite Keyword_miss by (rewrite Hl; reflexivity).
    rewrite (Keyword_hit _ _ _ _ Hl Hb Hr); reflexivity.
Qed.

Lemma span_literal (x w : string) :
  forall b, all_printable x = true ->
  char_in printables (first_char w) = false ->
  span printables (x ++ w) b = (x, {| before := last_char x b; text := w |}).
Proof.
  induction x as [| a x IH]; intros b; simpl.
  - intros _ Hw. destruct w as [| c w]; [reflexivity |].
    simpl in Hw. simpl. now rewrite Hw.
  - intros [Ha Hx]%andb_prop Hw. rewrite Ha. now rewrite (IH (Some a) Hx Hw).
Qed.

Lemma literal_no_blank_first (x w : string) :
  is_literal x = true -> blank_first (x ++ w) = false.
Proof.
  destruct x as [| c x]; simpl; [discriminate |].
  intros [Hc _]%andb_prop. unfold blank_first. simpl.
  now apply printable_not_white.
Qed.

Lemma run_not_printable_first (w s : string) :
  gap w = true -> char_in printables (first_char (w ++ s)) = false.
Proof.
  destruct w as [| c w]; simpl; [discriminate |].
  intros [Hc _]%andb_prop. now apply blank_not_keyword_char.
Qed.

Lemma all_blank_not_printable_first (w : string) :
  all_blank w = true -> char_in printables (first_char w) = false.
Proof.
  destruct w as [| c w]; simpl; [reflexivity |].
  intros [Hc _]%andb_prop. now apply blank_not_keyword_char.
Qed.

(** [Word(printables)] on a literal, blanks skipped, that a blank or the
    end of the string follows. *)
Lemma Word_literal (l : loc) (b : option ascii) (x w : string) :
  is_literal x = true ->
  char_in printables (first_char w) = false ->
  preParse l = {| before := b; text := (x ++ w)%string |} ->
  Word printables l
  = Ok ({| toklist := [x]; tokdict := [] |},
        {| before := last_char x b; text := w |}).
Proof.
  intros Hx Hw Hl. unfold Word. rewrite Hl. cbn [before text].
  destruct x as [| a x]; [discriminate |].
  now rewrite (span_literal (String a x) w b Hx Hw).
Qed.

Lemma Literal_after_run (m : ascii) (b : option ascii) (w rest : string) :
  all_blank w = true -> DEFAULT_WHITE_CHARS m = false ->
  Literal (String m EmptyString)
    {| before := b; text := (w ++ String m rest)%string |}
  = Ok ({| toklist := [String m EmptyString]; tokdict := [] |},
        {| before := Some m; text := rest |}).
Proof.
  intros Hw Hm. unfold Literal, preParse. cbn [before text].
  rewrite (skip_white_run w (String m rest) b Hw)
    by (unfold blank_first; simpl; exact Hm).
  cbn [before text startswith]. now rewrite Ascii.eqb_refl.
Qed.

Lemma append_assoc (s1 s2 s3 : string) :
  ((s1 ++ s2) ++ s3 = s1 ++ s2 ++ s3)%string.
Proof. induction s1 as [| c s1 IH]; simpl; [reflexivity | now rewrite IH]. Qed.

Lemma last_char_gap (w : string) (b : option ascii) :
  gap w = true -> char_in DEFAULT_KEYWORD_CHARS (last_char w b) = false.
Proof.
  destruct w as [| c w]; simpl; [discriminate |].
  intros [Hc Hw]%andb_prop. apply last_char_run; [exact Hw |].
  simpl. now apply blank_not_keyword_char.
Qed.

Lemma SYNTAX_head (w0 a w1 e w2 o w3 V : string) :
  all_blank w0 = true -> In a ["read"; "delete"]%string ->
  gap w1 = true -> In e ["key"; "value"]%string ->
  gap w2 = true -> In o operator_names -> gap w3 = true ->
  exists b,
    SYNTAX {| before := None;
              text := (head_text w0 a w1 e w2 o w3 ++ V)%string |}
    = match VALUE {| before := b; text := (w3 ++ V)%string |} with
      | Ok (rv, lv) =>
          Ok ({| toklist := [a; e; o] ++ toklist rv;
                 tokdict := [ ("action", PStr a); ("element", PStr e);
                              ("operator", PStr o) ]%string ++ tokdict rv |},
              lv)
      | Raise x => Raise x
      end.
Proof.
  intros H0 Ha H1 He H2 Ho H3. unfold head_text.
  replace ((w0 ++ a ++ w1 ++ e ++ w2 ++ o ++ w3) ++ V)%string
    with (w0 ++ a ++ (w1 ++ e ++ (w2 ++ o ++ (w3 ++ V))))%string
    by (now rewrite !append_assoc).
  set (r2 := (w3 ++ V)%string). set (r1 := (w1 ++ e ++ w2 ++ o ++ r2)%string).
  set (b0 := last_char w0 None). set (b1 := last_char w1 (last_char a b0)).
  set (b2 := last_char w2 (last_char e b1)).
  exists (last_char o b2).
  unfold SYNTAX. unfold And at 1 2 3.
  rewrite (ACTION_accepts a _ b0 r1 Ha).
  2: { rewrite !preParse_idem. unfold preParse. cbn [before text].
       apply skip_white_run; [exact H0 |].
       destruct Ha as [<- | [<- | []]]; reflexivity. }
  2: { now apply last_char_run. }
  2: { now apply gap_blank_first. }
  cbv beta iota. cbn [toklist tokdict app].
  rewrite (ELEMENT_accepts e _ b1 (w2 ++ o ++ r2) He).
  2: { unfold preParse. cbn [before text].
       apply skip_white_run; [now apply (gap_blank_first w1 EmptyString) |].
       destruct He as [<- | [<- | []]]; reflexivity. }
  2: { now apply last_char_gap. }
  2: { now apply gap_blank_first. }
  cbv beta iota. cbn [toklist tokdict app].
  rewrite (OPERATOR_accepts o _ b2 r2 Ho).
  2: { unfold preParse. cbn [before text].
       apply skip_white_run; [now apply (gap_blank_first w2 EmptyString) |].
       unfold operator_names in Ho.
       repeat (destruct Ho as [<- | Ho]; [reflexivity |]). destruct Ho. }
  2: { now apply last_char_gap. }
  2: { now apply gap_blank_first. }
  cbv beta iota. cbn [toklist tokdict app].
  destruct (VALUE _) as [[rv lv] | x]; reflexivity.
Qed.

Lemma VALUE_untyped (l : loc) (b : option ascii) (x w : string) :
  is_literal x = true -> all_blank w = true ->
  preParse l = {| before := b; text := untyped_text x w |} ->
  VALUE l
  = Ok ({| toklist := [x]; tokdict := [("value"%string, PStr x)] |},
        {| before := last_char x b; text := w |}).
Proof.
  intros Hx Hw Hl. unfold untyped_text in Hl.
  pose proof (all_blank_not_printable_first w Hw) as Hfirst.
  assert (HW : forall l0, preParse l0 = preParse l ->
             Word printables l0
             = Ok ({| toklist := [x]; tokdict := [] |},
                   {| before := last_char x b; text := w |})).
  { intros l0 H0. apply Word_literal; [exact Hx | exact Hfirst |].
    now rewrite H0. }
  assert (HL : Literal "(" {| before := last_char x b; text := w |}
               = Raise ParseException).
  { unfold Literal, preParse. cbn [before text].
    destruct (skip_white (last_char x b) w) as [b' t'] eqn:E.
    pose proof (skip_white_all_blank w (last_char x b) Hw) as Ht.
    rewrite E in Ht. cbn [text] in Ht. subst t'. reflexivity. }
  unfold VALUE, MatchFirst. unfold And at 1 2 3.
  unfold setResultsName at 1.
  rewrite HW by (now rewrite !preParse_idem).
  cbn [toklist tokdict rev app].
  rewrite HL. cbv beta iota.
  unfold setResultsName. rewrite (HW l eq_refl). cbn [toklist rev app].
  reflexivity.
Qed.

Lemma VALUE_typed_spaced (l : loc) (b : option ascii)
  (t w4 w5 x w6 tail : string) :
  is_literal t = true -> is_literal x = true ->
  gap w4 = true -> all_blank w5 = true -> gap w6 = true ->
  preParse l = {| before := b; text := typed_text t w4 w5 x w6 tail |} ->
  VALUE l
  = Ok ({| toklist := [t; "("; x; ")"]%string;
           tokdict := [("value_type", PStr t); ("value", PStr x)]%string |},
        {| before := Some ")"%char; text := tail |}).
Proof.
  intros Ht Hx H4 H5 H6 Hl. unfold typed_text in Hl.
  destruct (gap_blank_first w4 ("(" ++ w5 ++ x ++ w6 ++ ")" ++ tail) H4)
    as [_ B4].
  destruct (gap_blank_first w6 (")" ++ tail) H6) as [_ B6].
  unfold VALUE, MatchFirst. unfold And at 1 2 3.
  unfold setResultsName at 1.
  rewrite (Word_literal _ b t (w4 ++ "(" ++ w5 ++ x ++ w6 ++ ")" ++ tail)
             Ht (run_not_printable_first _ _ H4))
    by (now rewrite !preParse_idem).
  cbn [toklist tokdict rev app].
  assert (HL1 : Literal "(" {| before := last_char t b;
                 text := (w4 ++ "(" ++ w5 ++ x ++ w6 ++ ")" ++ tail)%string |}
               = Ok ({| toklist := ["("%string]; tokdict := [] |},
                     {| before := Some "("%char;
                        text := (w5 ++ x ++ w6 ++ ")" ++ tail)%string |}))
    by exact (Literal_after_run "(" (last_char t b) w4
                (w5 ++ x ++ w6 ++ ")" ++ tail) B4 eq_refl).
  rewrite HL1.
  cbv beta iota. cbn [toklist tokdict app].
  unfold setResultsName at 1.
  rewrite (Word_literal _ (last_char w5 (Some "("%char)) x
             (w6 ++ ")" ++ tail) Hx (run_not_printable_first _ _ H6)).
  2: { unfold preParse. cbn [before text].
       apply skip_white_run; [exact H5 |].
       now apply literal_no_blank_first. }
  cbn [toklist tokdict rev app]. cbv beta iota.
  assert (HL2 : Literal ")"
                 {| before := last_char x (last_char w5 (Some "("%char));
                    text := (w6 ++ ")" ++ tail)%string |}
               = Ok ({| toklist := [")"%string]; tokdict := [] |},
                     {| before := Some ")"%char; text := tail |}))
    by exact (Literal_after_run ")" _ w6 tail B6 eq_refl).
  rewrite HL2.
  reflexivity.
Qed.

(** [SYNTAX] on the two formats, at the start of a string. *)
Lemma SYNTAX_untyped (w0 a w1 e w2 o w3 x w : string) :
  all_blank w0 = true -> In a ["read"; "delete"]%string ->
  gap w1 = true -> In e ["key"; "value"]%string ->
  gap w2 = true -> In o operator_names -> gap w3 = true ->
  is_literal x = true -> all_blank w = true ->
  parseString SYNTAX (head_text w0 a w1 e w2 o w3 ++ untyped_text x w)
  = Ok (parsed_untyped a e o x).
Proof.
  intros H0 Ha H1 He H2 Ho H3 Hx Hw.
  destruct (SYNTAX_head w0 a w1 e w2 o w3 (untyped_text x w)
              H0 Ha H1 He H2 Ho H3) as [b Hb].
  unfold parseString. rewrite Hb.
  rewrite (VALUE_untyped _ (last_char w3 b) x w Hx Hw); [reflexivity |].
  unfold preParse. cbn [before text].
  apply skip_white_run; [now apply (gap_blank_first w3 EmptyString) |].
  now apply literal_no_blank_first.
Qed.

Lemma SYNTAX_typed (w0 a w1 e w2 o w3 t w4 w5 x w6 tail : string) :
  all_blank w0 = true -> In a ["read"; "delete"]%string ->
  gap w1 = true -> In e ["key"; "value"]%string ->
  gap w2 = true -> In o operator_names -> gap w3 = true ->
  is_literal t = true -> gap w4 = true -> all_blank w5 = true ->
  is_literal x = true -> gap w6 = true ->
  parseString SYNTAX
    (head_text w0 a w1 e w2 o w3 ++ typed_text t w4 w5 x w6 tail)
  = Ok (parsed_typed a e o t x (PStr x)).
Proof.
  intros H0 Ha H1 He H2 Ho H3 Ht H4 H5 Hx H6.
  destruct (SYNTAX_head w0 a w1 e w2 o w3 (typed_text t w4 w5 x w6 tail)
              H0 Ha H1 He H2 Ho H3) as [b Hb].
  unfold parseString. rewrite Hb.
  rewrite (VALUE_typed_spaced _ (last_char w3 b) t w4 w5 x w6 tail
             Ht Hx H4 H5 H6); [reflexivity |].
  unfold preParse. cbn [before text].
  apply skip_white_run; [now apply (gap_blank_first w3 EmptyString) |].
  unfold typed_text. now apply literal_no_blank_first.
Qed.

Lemma _parse_query_string_untyped (s : string) (a e o x : string) :
  parseString SYNTAX s = Ok (parsed_untyped a e o x) ->
  _parse_query_string (PStr s) = Ok (parsed_untyped a e o x).
Proof.
  intros H. unfold _parse_query_string. rewrite H.
  cbn [rbind]. unfold contains, parsed_untyped.
  cbn [existsb tokdict fst]. string_eqb. reflexivity.
Qed.

Lemma _parse_query_string_typed (s : string) (a e o t x : string) :
  parseString SYNTAX s = Ok (parsed_typed a e o t x (PStr x)) ->
  _parse_query_string (PStr s)
  = rbind (_parse_value_to_type x t)
          (fun k => Ok (parsed_typed a e o t x k)).
Proof.
  intros H. unfold _parse_query_string. rewrite H.
  cbn [rbind]. unfold contains, parsed_typed at 1 2 3.
  cbn [existsb tokdict fst]. string_eqb.
  cbn [orb getitem]. string_eqb. cbn [rbind as_str].
  destruct (_parse_value_to_type x t) as [k | ex]; [| reflexivity].
  cbn [rbind]. unfold setitem, parsed_typed. cbn [toklist tokdict set_named].
  string_eqb. reflexivity.
Qed.

(** X12.  A string of the format "[ACTION] [ELEMENT] [OPERATOR] [VALUE]"
    of the docstring (any blanks in front, at least one blank between
    two tokens, only blanks after the value) is parsed into its four
    tokens, the value being a string; a data type written against its
    parentheses, as in "int(5)", is such a value. *)
Theorem untyped_format_is_parsed (w0 a w1 e w2 o w3 x w : string) :
  all_blank w0 = true -> In a ["read"; "delete"]%string ->
  gap w1 = true -> In e ["key"; "value"]%string ->
  gap w2 = true -> In o operator_names -> gap w3 = true ->
  is_literal x = true -> all_blank w = true ->
  _parse_query_string
    (PStr (head_text w0 a w1 e w2 o w3 ++ untyped_text x w))
  = Ok (parsed_untyped a e o x).
Proof.
  intros H0 Ha H1 He H2 Ho H3 Hx Hw.
  apply _parse_query_string_untyped. now apply SYNTAX_untyped.
Qed.

Lemma untyped_format_is_parsed_witness :
  _parse_query_string (PStr "  delete value contains  J.D. ")
  = Ok (parsed_untyped "delete" "value" "contains" "J.D.") /\
  _parse_query_string (PStr "read key = int(5)")
  = Ok (parsed_untyped "read" "key" "=" "int(5)").
Proof.
  split.
  - apply (untyped_format_is_parsed "  " "delete" " " "value" " "
             "contains" "  " "J.D." " "); simpl; auto 10.
  - apply (untyped_format_is_parsed "" "read" " " "key" " " "=" " "
             "int(5)" ""); simpl; auto 10.
Defined.

(** X13.  A string of the format
    "[ACTION] [ELEMENT] [OPERATOR] [DATATYPE] ( [VALUE] )", with at least
    one blank after the data type and after the value, is parsed when
    the value converts to the data type, whatever follows the closing
    parenthesis: the value of the result is the converted object.  When
    the conversion raises (a data type that is not in the table, a
    value that is no number of that type), so does the parsing. *)
Theorem typed_format_is_parsed
  (w0 a w1 e w2 o w3 t w4 w5 x w6 tail : string) :
  all_blank w0 = true -> In a ["read"; "delete"]%string ->
  gap w1 = true -> In e ["key"; "value"]%string ->
  gap w2 = true -> In o operator_names -> gap w3 = true ->
  is_literal t = true -> gap w4 = true -> all_blank w5 = true ->
  is_literal x = true -> gap w6 = true ->
  _parse_query_string
    (PStr (head_text w0 a w1 e w2 o w3 ++ typed_text t w4 w5 x w6 tail))
  = rbind (_parse_value_to_type x t)
          (fun k => Ok (parsed_typed a e o t x k)).
Proof.
  intros H0 Ha H1 He H2 Ho H3 Ht H4 H5 Hx H6.
  apply _parse_query_string_typed. now apply SYNTAX_typed.
Qed.

Lemma typed_format_is_parsed_witness :
  _parse_query_string (PStr "read key >= float (1_0.5 ) and more")
  = Ok (parsed_typed "read" "key" ">=" "float" "1_0.5"
          (PFloat (S754_finite false 5910974510923776 (-49)))) /\
  _parse_query_string (PStr "read key >= bool ( 1 )") = Raise KeyError.
Proof.
  split.
  - apply (typed_format_is_parsed "" "read" " " "key" " " ">=" " " "float"
             " " "" "1_0.5" " " " and more"); simpl; auto 10.
  - apply (typed_format_is_parsed "" "read" " " "key" " " ">=" " " "bool"
             " " " " "1" " " ""); simpl; auto 10.
Defined.

(** ** The default data type *)

Lemma bind_ext {A B} (m : M A) (k k' : A -> M B) (d : dict) :
  (forall a d', k a d' = k' a d') -> bind m k d = bind m k' d.
Proof.
  intros H. unfold bind.
  destruct (m d) as [[a | x] d']; [apply H | reflexivity].
Qed.

Lemma bind_lift_ext {A B} (r : result A) (k k' : A -> M B) (d : dict) :
  (forall a, r = Ok a -> k a d = k' a d) ->
  bind (lift r) k d = bind (lift r) k' d.
Proof.
  intros H. unfold bind, lift.
  destruct r as [a | x]; [now apply H | reflexivity].
Qed.

Lemma scan_ext (step step' : object * pyobj -> list (pyobj * pyobj)
                             -> M (list (pyobj * pyobj))) :
  (forall entry matches d, step entry matches d = step' entry matches d) ->
  forall entries matches d,
    scan step entries matches d = scan step' entries matches d.
Proof.
  intros H. induction entries as [| entry entries IH]; intros matches d.
  - reflexivity.
  - cbn [scan]. unfold bind. rewrite H.
    destruct (step' entry matches d) as [[m | x] d']; [apply IH | reflexivity].
Qed.

(** [_query] reads a parsed query through its four named results
    only. *)
Lemma run_parsed_ext (pq pq' : ParseResults) :
  getitem "action" (tokdict pq) = getitem "action" (tokdict pq') ->
  getitem "element" (tokdict pq) = getitem "element" (tokdict pq') ->
  getitem "operator" (tokdict pq) = getitem "operator" (tokdict pq') ->
  getitem "value" (tokdict pq) = getitem "value" (tokdict pq') ->
  forall d, run_parsed pq d = run_parsed pq' d.
Proof.
  intros Ha He Ho Hv d.
  assert (Hstep : forall qa (f : object * pyobj -> pyobj) entry m d0,
            scan_entry qa pq operators (f entry) entry m d0
            = scan_entry qa pq' operators (f entry) entry m d0).
  { intros. unfold scan_entry, apply_operator. now rewrite Ho, Hv. }
  unfold run_parsed. rewrite Ha, He.
  apply bind_ext. intros a d1. apply bind_ext. intros qa d2.
  apply bind_ext. intros e d3. apply bind_lift_ext. intros execute Hex.
  assert (Hrun : execute qa pq operators d3 = execute qa pq' operators d3).
  { cbn [table_get] in Hex.
    destruct (String.eqb "key" e);
      [| destruct (String.eqb "value" e); [| discriminate]];
      injection Hex as <-.
    - unfold _execute_query_by_key. rewrite Ho, Hv.
      apply bind_ext. intros o d4. destruct (py_eq o (PStr "="));
        [reflexivity |].
      apply bind_ext. intros items d5. apply scan_ext. intros.
      apply (Hstep qa (fun entry => val (fst entry))).
    - unfold _execute_query_by_value.
      apply bind_ext. intros items d5. apply scan_ext. intros.
      apply (Hstep qa snd). }
  unfold bind. now rewrite Hrun.
Qed.

(** X14.  The data type "str" is the default: a query that gives its
    value as "str ( X )" is answered as the query that gives it as "X",
    and leaves the store the same. *)
Theorem str_type_is_default
  (w0 a w1 e w2 o w3 w4 w5 x w6 tail w : string) (d : dict) :
  all_blank w0 = true -> In a ["read"; "delete"]%string ->
  gap w1 = true -> In e ["key"; "value"]%string ->
  gap w2 = true -> In o operator_names -> gap w3 = true ->
  gap w4 = true -> all_blank w5 = true ->
  is_literal x = true -> gap w6 = true -> all_blank w = true ->
  _query (PStr (head_text w0 a w1 e w2 o w3
                ++ typed_text "str" w4 w5 x w6 tail)) d
  = _query (PStr (head_text w0 a w1 e w2 o w3 ++ untyped_text x w)) d.
Proof.
  intros H0 Ha H1 He H2 Ho H3 H4 H5 Hx H6 Hw.
  rewrite !_query_unfold.
  rewrite (_parse_query_string_typed _ a e o "str" x)
    by now apply SYNTAX_typed.
  rewrite (_parse_query_string_untyped _ a e o x)
    by now apply SYNTAX_untyped.
  change (_parse_value_to_type x "str") with (Ok (PStr x)). cbn [rbind].
  unfold try_except.
  now rewrite (run_parsed_ext (parsed_typed a e o "str" x (PStr x))
                 (parsed_untyped a e o x)).
Qed.

Lemma str_type_is_default_witness :
  _query (PStr "delete value contains str ( o ) now") store0
  = _query (PStr "delete value contains o") store0.
Proof.
  apply (str_type_is_default "" "delete" " " "value" " " "contains" " "
           " " " " "o" " " " now" ""); simpl; auto 10.
Defined.

(** ** What puts an entry in the store *)

Lemma adds_nothing_ret {A} (a : A) : adds_nothing (ret a).
Proof. intros d. apply incl_refl. Qed.

Lemma adds_nothing_lift {A} (r : result A) : adds_nothing (lift r).
Proof. intros d. apply incl_refl. Qed.

Lemma adds_nothing_raise {A} (e : exn) : adds_nothing (@raise A e).
Proof. intros d. apply incl_refl. Qed.

Lemma adds_nothing_bind {A B} (m : M A) (k : A -> M B) :
  adds_nothing m -> (forall a, adds_nothing (k a)) -> adds_nothing (bind m k).
Proof.
  intros Hm Hk d. unfold bind. specialize (Hm d).
  destruct (m d) as [[a | e] d']; [| exact Hm].
  eapply incl_tran; [apply Hk | exact Hm].
Qed.

Lemma adds_nothing_try_except {A} (body handler : M A) :
  adds_nothing body -> adds_nothing handler ->
  adds_nothing (try_except body handler).
Proof.
  intros Hb Hh d. unfold try_except. specialize (Hb d).
  destruct (body d) as [[a | e] d']; [exact Hb |].
  eapply incl_tran; [apply Hh | exact Hb].
Qed.

Lemma adds_nothing_getitem (k : object) : adds_nothing (self_data_getitem k).
Proof. intros d. apply incl_refl. Qed.

Lemma adds_nothing_new_object (v : pyobj) : adds_nothing (new_object v).
Proof. intros d. apply incl_refl. Qed.

Lemma adds_nothing_copy_items : adds_nothing self_data_copy_items.
Proof. intros d. apply incl_refl. Qed.

Lemma adds_nothing_delitem (k : object) : adds_nothing (self_data_delitem k).
Proof.
  intros d. unfold self_data_delitem.
  destruct (dict_delitem k d) as [d' |] eqn:E; [| apply incl_refl].
  now apply (dict_delitem_incl k).
Qed.

Create HintDb adds.

#[local] Hint Resolve adds_nothing_ret adds_nothing_lift adds_nothing_raise
  adds_nothing_getitem adds_nothing_new_object adds_nothing_copy_items
  adds_nothing_delitem adds_nothing_bind adds_nothing_try_except : adds.

Lemma adds_nothing_call_action (query_action : option (object -> M unit))
  (k : object) :
  In query_action [None; Some _delete_from_query] ->
  adds_nothing (call_action query_action k).
Proof.
  intros [<- | [<- | []]]; unfold call_action, _delete_from_query;
    auto with adds.
Qed.

Lemma adds_nothing_scan (query_action : option (object -> M unit))
  (pq : ParseResults) (operand : object * pyobj -> pyobj)
  (entries : list (object * pyobj)) :
  In query_action [None; Some _delete_from_query] ->
  forall matches,
    adds_nothing (scan (fun entry =>
                          scan_entry query_action pq operators
                            (operand entry) entry) entries matches).
Proof.
  intros Hqa. induction entries as [| entry entries IH]; intros matches.
  - apply adds_nothing_ret.
  - cbn [scan]. apply adds_nothing_bind; [| intro; apply IH].
    unfold scan_entry.
    pose proof (adds_nothing_call_action query_action (fst entry) Hqa).
    destruct (apply_operator pq operators (operand entry)) as [[|] | e];
      auto 10 with adds.
Qed.

Lemma adds_nothing_execute (query_action : option (object -> M unit))
  (pq : ParseResults) :
  In query_action [None; Some _delete_from_query] ->
  adds_nothing (_execute_query_by_key query_action pq operators) /\
  adds_nothing (_execute_query_by_value query_action pq operators).
Proof.
  intros Hqa. pose proof (adds_nothing_call_action query_action) as Hc.
  split.
  - unfold _execute_query_by_key.
    apply adds_nothing_bind; [auto with adds | intros o].
    destruct (py_eq o (PStr "=")).
    + apply adds_nothing_try_except; [| auto with adds].
      apply adds_nothing_bind; [auto with adds | intros qv].
      apply adds_nothing_bind; [auto with adds | intros k].
      apply adds_nothing_bind; [auto with adds | intros v].
      apply adds_nothing_bind; [| auto with adds].
      apply adds_nothing_try_except; auto with adds.
    + apply adds_nothing_bind; [auto with adds | intros entries].
      now apply adds_nothing_scan.
  - unfold _execute_query_by_value.
    apply adds_nothing_bind; [auto with adds | intros entries].
    now apply adds_nothing_scan.
Qed.

Lemma table_get_In {V} (t : list (string * V)) (k : string) (v : V) :
  table_get t k = Ok v -> In v (map snd t).
Proof.
  induction t as [| [n v'] t IH]; simpl; [discriminate |].
  destruct (String.eqb n k); [intros [= <-]; now left | auto].
Qed.

Lemma adds_nothing_query (q : pyobj) : adds_nothing (_query q).
Proof.
  unfold _query, _send_error.
  apply adds_nothing_try_except; [| auto with adds].
  apply adds_nothing_bind; [auto with adds | intros pq].
  apply adds_nothing_bind; [auto with adds | intros a].
  intros d. unfold bind at 1, lift at 1.
  destruct (table_get _ a) as [qa |] eqn:Eqa; [| apply incl_refl].
  apply table_get_In in Eqa. cbn [map snd] in Eqa.
  destruct (adds_nothing_execute qa pq Eqa) as [Hk Hv].
  revert d.
  match goal with |- forall d, incl (snd (?m d)) d =>
    change (adds_nothing m) end.
  apply adds_nothing_bind; [auto with adds | intros e].
  intros d. unfold bind at 1, lift at 1.
  destruct (table_get _ e) as [execute |] eqn:Eex; [| apply incl_refl].
  apply table_get_In in Eex. cbn [map snd] in Eex.
  revert d.
  match goal with |- forall d, incl (snd (?m d)) d =>
    change (adds_nothing m) end.
  apply adds_nothing_bind; [| auto with adds].
  destruct Eex as [<- | [<- | []]]; assumption.
Qed.

Lemma adds_nothing_dispatch (r : Request) :
  is_add r = false -> adds_nothing (dispatch r).
Proof.
  unfold is_add, dispatch. intros Hr. cbn [get]. rewrite Hr.
  repeat match goal with
         | |- context [py_eq ?a ?b] => destruct (py_eq a b)
         end;
    cbn [call]; unfold _read, _delete, _send_error;
    auto 10 using adds_nothing_query with adds.
Qed.

Lemma adds_nothing_serve (data : payload) :
  selects_add data = false -> adds_nothing (serve data).
Proof.
  destruct data as [r | | e]; cbn [selects_add serve];
    auto using adds_nothing_dispatch with adds.
Qed.

(** X15.  Only a request to add puts an entry in the store: after a
    connection on which nothing that is received selects [_add], unknown
    request types, queries of any kind and bytes that are not unpickled
    included, every entry of the store was in it before. *)
Theorem only_add_puts_entries (turns : list turn) (d : dict) :
  forallb (fun t => negb (selects_add (received t))) turns = true ->
  incl (snd (_listen turns d)) d.
Proof.
  revert d. induction turns as [| t turns IH]; intros d.
  - intros _. apply incl_refl.
  - cbn [forallb]. intros [Hr Hrs]%andb_prop.
    apply negb_true_iff in Hr.
    pose proof (adds_nothing_serve (received t) Hr d) as Hd.
    cbn [_listen]. unfold bind at 1.
    destruct (serve (received t) d) as [[x | e] d0]; [| exact Hd].
    cbn [snd] in Hd. unfold bind at 1, lift.
    destruct (sent t) as [[] | e]; [| exact Hd].
    unfold bind at 1. specialize (IH d0 Hrs).
    destruct (_listen turns d0) as [[xs | e] d1]; cbn [snd] in *;
      eapply incl_tran; eauto.
Qed.

Lemma only_add_puts_entries_witness :
  let turns :=
    map answered
      [ Whole {| request_type := PInt 0; key := PInt 10; value := PNone;
                 query := PNone |};
        Whole {| request_type := PInt 3; key := PNone; value := PNone;
                 query := PStr "delete key < int ( 12 )" |};
        Whole {| request_type := PInt 2; key := PStr "1a2b3c";
                 value := PNone; query := PNone |};
        Whole (with_type (PInt 7)) ] in
  snd (_listen turns store0)
  = [({| addr := 4; val := PInt 15 |}, PStr "Onescu")] /\
  incl (snd (_listen turns store0)) store0.
Proof.
  intros turns. split; [reflexivity |].
  apply (only_add_puts_entries turns store0). reflexivity.
Defined.

Lemma keeps_wf_serve (data : payload) : keeps_wf (serve data).
Proof.
  destruct data as [r | | e]; cbn [serve];
    [apply keeps_wf_dispatch | now intros d ..].
Qed.

(** X16.  Whatever a connection brings, answered or not, no two entries
    of the store come to have keys that are one object or equal
    objects. *)
Theorem requests_keep_keys_distinct (turns : list turn) (d : dict) :
  dict_wf d -> dict_wf (snd (_listen turns d)).
Proof.
  revert d. induction turns as [| t turns IH]; intros d Hd.
  - exact Hd.
  - cbn [_listen]. unfold bind at 1.
    pose proof (keeps_wf_serve (received t) d Hd) as H0.
    destruct (serve (received t) d) as [[x | e] d0]; [| exact H0].
    cbn [snd] in H0. unfold bind at 1, lift.
    destruct (sent t) as [[] | e]; [| exact H0].
    unfold bind at 1. specialize (IH d0 H0).
    destruct (_listen turns d0) as [[xs | e] d1]; exact IH.
Qed.

Lemma requests_keep_keys_distinct_witness :
  let nan := PFloat S754_nan in
  let turns :=
    map answered
      [ Whole {| request_type := PInt 1;
                 key := PFloat (S754_finite false 5 1);
                 value := PStr "ten"; query := PNone |};
        Whole {| request_type := PInt 1; key := nan; value := PInt 0;
                 query := PNone |};
        Whole {| request_type := PInt 1; key := nan; value := PInt 1;
                 query := PNone |} ] in
  snd (_listen turns store0)
  = [ ({| addr := 2; val := PStr "1a2b3c" |}, PStr "John");
      ({| addr := 3; val := PInt 10 |}, PStr "ten");
      ({| addr := 4; val := PInt 15 |}, PStr "Onescu");
      ({| addr := 5; val := nan |}, PInt 0);
      ({| addr := 6; val := nan |}, PInt 1) ] /\
  dict_wf (snd (_listen turns store0)).
Proof.
  intros nan turns. split; [reflexivity |].
  apply (requests_keep_keys_distinct turns store0 store0_wf).
Defined.
